(** * StDemon: the process-inspection engine of [stdutil.py]

    A shallow embedding of the functions of [src/stdutil.py] that the
    specification talks about, followed by the properties established for
    them.

    Conventions of the embedding.
    - A Python [str] is a [string]: a sequence of code points below 256.
    - A Python [int] is a [Z]; a Python [float] is a binary64 value
      ([pyfloat]), with round-to-nearest-even written out.
    - A Python [dict] with string keys is a [gmap string _] (insertion order,
      which only matters for display, is not kept).
    - Calls into the operating system are answered by a record describing the
      host ([host]); a call that raises carries the exception it raises.
    - [try]/[except] is written with the combinators of a small
      state-and-exception monad. *)

From Stdlib Require Import ZArith QArith Qpower Ascii String List Bool Lia.
From stdpp Require Import base option list strings gmap.

Set Warnings "-register-all".
Local Open Scope string_scope.
Local Open Scope list_scope.
Local Open Scope Z_scope.

(* ================================================================== *)
(** * Part I. Definitions *)
(* ================================================================== *)

(** ** Python strings *)

Definition ord (c : ascii) : Z := Z.of_N (N_of_ascii c).
Definition chr (n : Z) : ascii := ascii_of_N (Z.to_N n).

(** [str.lower] on code points below 256: the upper-case letters there are
    A-Z, and U+00C0-U+00DE without the multiplication sign U+00D7; each maps
    to the code point 32 above it.  On these strings [str.lower] works one
    character at a time; what it does in context (the final sigma) or with
    more than one character concerns code points from 256 on, which the
    strings of this file do not hold. *)
Definition chr_lower (c : ascii) : ascii :=
  let n := ord c in
  if ((65 <=? n) && (n <=? 90)) || ((192 <=? n) && (n <=? 222) && negb (n =? 215))
  then chr (n + 32) else c.

Fixpoint lower (s : string) : string :=
  match s with
  | EmptyString => EmptyString
  | String c s' => String (chr_lower c) (lower s')
  end.

Fixpoint startswith (s p : string) {struct p} : bool :=
  match p, s with
  | EmptyString, _ => true
  | String a p', String b s' => Ascii.eqb a b && startswith s' p'
  | String _ _, EmptyString => false
  end.

(** [sub in s] for two strings. *)
Fixpoint str_in (sub s : string) : bool :=
  startswith s sub ||
  match s with
  | EmptyString => false
  | String _ s' => str_in sub s'
  end.

Definition QUOTE : ascii := "034".
Definition APOSTROPHE : ascii := "039".
Definition BACKSLASH : ascii := "092".
Definition NEWLINE : ascii := "010".

(** [str.isspace] for one code point below 256. *)
Definition isspace (c : ascii) : bool :=
  let n := ord c in
  ((9 <=? n) && (n <=? 13)) || ((28 <=? n) && (n <=? 32)) || (n =? 133) || (n =? 160).

Fixpoint lstrip (s : string) : string :=
  match s with
  | EmptyString => EmptyString
  | String c s' => if isspace c then lstrip s' else s
  end.

Fixpoint rstrip (s : string) : string :=
  match s with
  | EmptyString => EmptyString
  | String c s' =>
      match rstrip s' with
      | EmptyString => if isspace c then EmptyString else String c EmptyString
      | r => String c r
      end
  end.

Definition strip (s : string) : string := rstrip (lstrip s).

(** [s.split()] with no argument: the maximal runs of non-space characters. *)
Fixpoint split_ws_aux (s : string) (cur : string) : list string :=
  match s with
  | EmptyString => if String.eqb cur "" then [] else [cur]
  | String c s' =>
      if isspace c
      then (if String.eqb cur "" then split_ws_aux s' "" else cur :: split_ws_aux s' "")
      else split_ws_aux s' (cur +:+ String c "")
  end.

Definition split_ws (s : string) : list string := split_ws_aux s "".

(** [s.split(":", 1)] on a line that contains a colon: the text before the
    first colon and the text after it. *)
Fixpoint split_colon (s : string) : string * string :=
  match s with
  | EmptyString => ("", "")
  | String c s' =>
      if Ascii.eqb c ":" then ("", s')
      else let (k, v) := split_colon s' in (String c k, v)
  end.

(** [str.splitlines]: the line boundaries below 256 are LF, VT, FF, CR (with
    CR LF counted once), FS, GS, RS and NEL; no empty last line. *)
Definition islinebreak (c : ascii) : bool :=
  let n := ord c in
  ((10 <=? n) && (n <=? 13)) || ((28 <=? n) && (n <=? 30)) || (n =? 133).

Fixpoint splitlines_aux (s : string) (cur : string) : list string :=
  match s with
  | EmptyString => if String.eqb cur "" then [] else [cur]
  | String c s' =>
      if islinebreak c then
        match s' with
        | String c' s'' =>
            if (ord c =? 13) && (ord c' =? 10)
            then cur :: splitlines_aux s'' ""
            else cur :: splitlines_aux s' ""
        | EmptyString => [cur]
        end
      else splitlines_aux s' (cur +:+ String c "")
  end.

Definition splitlines (s : string) : list string := splitlines_aux s "".

(** [s.replace('\0', ' ')]. *)
Fixpoint replace_nul (s : string) : string :=
  match s with
  | EmptyString => EmptyString
  | String c s' => String (if ord c =? 0 then " "%char else c) (replace_nul s')
  end.

(** ** Process directory reader: [search_processes] *)

(** A process reference is the pair [(pid, command)] that
    [get_all_processes] appends. *)
Definition proc : Type := string * string.

Definition search_processes (processes : list proc) (search_term : string) : list proc :=
  let search_term := lower search_term in
  List.filter
    (fun proc => str_in search_term (lower proc.1) || str_in search_term (lower proc.2))
    processes.

(** The same call on list objects.  A heap holds the list objects that are
    alive, each at its address; the comprehension of [search_processes]
    builds a fresh list object, so the call allocates and returns a new
    address and writes to no existing one. *)
Abbreviation heap := (list (list proc)).

Definition search_processes_obj (h : heap) (processes : nat) (search_term : string)
  : option (heap * nat) :=
  ps ← h !! processes;
  Some (h ++ [search_processes ps search_term], length h).

(** ** Exceptions and the monad of the collectors *)

(** The exception classes that the calls made by this program raise.  All of
    them derive from [Exception]; [TimeoutExpired] and [CalledProcessError]
    derive from [SubprocessError], and the first three from [OSError]. *)
Inductive exn_class :=
  | PermissionError | FileNotFoundError | ProcessLookupError | OSError
  | UnicodeDecodeError | ValueError | IndexError | KeyError | OverflowError
  | ZeroDivisionError
  | SubprocessError | TimeoutExpired | CalledProcessError.

(** An exception object: its class and [str(e)]. *)
Record exn := Exn { class_of : exn_class; str_of : string }.

Inductive result (A : Type) :=
  | Ok (a : A)
  | Raise (e : exn).
Arguments Ok {A} a.
Arguments Raise {A} e.

(** A computation that reads and writes a state of type [S] and returns or
    raises; the state reached when it raises is kept, as the objects a Python
    function has mutated stay mutated when it raises. *)
Definition M (S A : Type) : Type := S -> result A * S.

#[export] Instance M_ret {S} : MRet (M S) := fun A a s => (Ok a, s).

#[export] Instance M_bind {S} : MBind (M S) := fun A B f m s =>
  match m s with
  | (Ok a, s') => f a s'
  | (Raise e, s') => (Raise e, s')
  end.

Definition lift {S A} (r : result A) : M S A := fun s => (r, s).

Definition modify {S} (f : S -> S) : M S unit := fun s => (Ok tt, f s).

(** [try: body except <classes> as e: handler e]; an exception whose class is
    not handled goes on. *)
Definition try_except {S A} (body : M S A) (handles : exn_class -> bool)
    (handler : exn -> M S A) : M S A := fun s =>
  match body s with
  | (Ok a, s') => (Ok a, s')
  | (Raise e, s') => if handles (class_of e) then handler e s' else (Raise e, s')
  end.

(** [except Exception] and a bare [except] handle every class above. *)
Definition any_exception (c : exn_class) : bool := true.

Definition is_PermissionError (c : exn_class) : bool :=
  match c with PermissionError => true | _ => false end.

Fixpoint for_each {S A} (l : list A) (body : A -> M S unit) : M S unit :=
  match l with
  | [] => mret tt
  | x :: l' => body x ;; for_each l' body
  end.

(** ** Python numbers *)

(** A [float]: a finite binary64 value [m * 2^e], an infinity, or a NaN.
    Finite values come out of [b64_round] with [|m| < 2^53] and
    [-1074 <= e <= 971]; zero is [Finite 0 0] (the sign of zero is not kept). *)
Inductive pyfloat :=
  | Finite (m e : Z)
  | Infinity (negative : bool)
  | NaN.

(** The rational a finite float stands for. *)
Definition Q_of_float (x : pyfloat) : option Q :=
  match x with
  | Finite m e => Some (inject_Z m * Qpower 2 e)%Q
  | _ => None
  end.

(** [n/d] to the nearest integer, ties to the even one ([0 <= n], [0 < d]). *)
Definition round_half_even (n d : Z) : Z :=
  let q := n / d in
  match 2 * (n mod d) ?= d with
  | Lt => q
  | Gt => q + 1
  | Eq => if Z.even q then q else q + 1
  end.

(** For [0 < n] and [0 < d], the [g] with [2^g <= n/d < 2^(g+1)]. *)
Definition ratio_log2 (n d : Z) : Z :=
  let g := Z.log2 n - Z.log2 d in
  if n * 2 ^ Z.max 0 (- g) <? d * 2 ^ Z.max 0 g then g - 1 else g.

(** Round [n/d], for [0 < n] and [0 < d], to 53 significant bits with the
    exponent no lower than -1074: the mantissa and the exponent. *)
Definition b64_round_pos (n d : Z) : Z * Z :=
  let e := Z.max (ratio_log2 n d - 52) (-1074) in
  let m := round_half_even (n * 2 ^ Z.max 0 (- e)) (d * 2 ^ Z.max 0 e) in
  if m =? 2 ^ 53 then (2 ^ 52, e + 1) else (m, e).

(** Round the rational [n/d] ([d] not zero) to binary64; a magnitude of
    [2^1024] or more after rounding is an infinity. *)
Definition b64_round (n d : Z) : pyfloat :=
  if n =? 0 then Finite 0 0
  else
    let negative := xorb (n <? 0) (d <? 0) in
    let '(m, e) := b64_round_pos (Z.abs n) (Z.abs d) in
    if 971 <? e then Infinity negative
    else if m =? 0 then Finite 0 0
    else Finite (if negative then - m else m) e.

(** [a / b] on two [int]s: the exact quotient, correctly rounded. *)
Definition int_truediv (a b : Z) : result pyfloat :=
  if b =? 0 then Raise (Exn ZeroDivisionError "division by zero")
  else
    match b64_round a b with
    | Infinity _ => Raise (Exn OverflowError "integer division result too large for a float")
    | x => Ok x
    end.

(** The conversion of an [int] operand of a float operation. *)
Definition float_of_int (k : Z) : result pyfloat :=
  match b64_round k 1 with
  | Infinity _ => Raise (Exn OverflowError "int too large to convert to float")
  | x => Ok x
  end.

(** [x / y] on two [float]s. *)
Definition float_truediv (x y : pyfloat) : result pyfloat :=
  match x, y with
  | _, Finite 0 _ => Raise (Exn ZeroDivisionError "float division by zero")
  | NaN, _ | _, NaN => Ok NaN
  | Infinity _, Infinity _ => Ok NaN
  | Infinity s, Finite m _ => Ok (Infinity (xorb s (m <? 0)))
  | Finite _ _, Infinity _ => Ok (Finite 0 0)
  | Finite m e, Finite m' e' =>
      Ok (b64_round (m * 2 ^ Z.max 0 (e - e')) (m' * 2 ^ Z.max 0 (e' - e)))
  end.

(** [x / k] with [x] a [float] and [k] an [int]. *)
Definition float_div_int (x : pyfloat) (k : Z) : result pyfloat :=
  match float_of_int k with
  | Ok y => float_truediv x y
  | Raise e => Raise e
  end.

(** [x - y] on two [float]s. *)
Definition float_sub (x y : pyfloat) : pyfloat :=
  match x, y with
  | NaN, _ | _, NaN => NaN
  | Infinity s, Infinity s' => if Bool.eqb s s' then NaN else Infinity s
  | Infinity s, Finite _ _ => Infinity s
  | Finite _ _, Infinity s => Infinity (negb s)
  | Finite m e, Finite m' e' =>
      let e0 := Z.min e e' in
      b64_round ((m * 2 ^ (e - e0) - m' * 2 ^ (e' - e0)) * 2 ^ Z.max 0 e0) (2 ^ Z.max 0 (- e0))
  end.

Definition digit_of (c : ascii) : option Z :=
  let n := ord c in
  if (48 <=? n) && (n <=? 57) then Some (n - 48) else None.

(** A run of decimal digits, in which one underscore may stand between two
    digits: the value after [acc], the number of digits read after [count],
    and the rest of the string. *)
Fixpoint digitpart (s : string) (acc : Z) (count : nat) : Z * nat * string :=
  match s with
  | EmptyString => (acc, count, s)
  | String c s' =>
      match digit_of c with
      | Some d => digitpart s' (10 * acc + d) (S count)
      | None =>
          if Ascii.eqb c "_" && negb (Nat.eqb count 0) then
            match s' with
            | String c' _ =>
                match digit_of c' with
                | Some _ => digitpart s' acc count
                | None => (acc, count, s)
                end
            | EmptyString => (acc, count, s)
            end
          else (acc, count, s)
      end
  end.

(** An optional sign: whether it is a minus, and the rest. *)
Definition signpart (s : string) : bool * string :=
  match s with
  | String "-" s' => (true, s')
  | String "+" s' => (false, s')
  | _ => (false, s)
  end.

(** White space as [int()] and [float()] skip it at the two ends of their
    argument: of the code points below 128 only those of C's [isspace], so
    not U+001C to U+001F, which [str.isspace] accepts. *)
Definition isspace_number (c : ascii) : bool :=
  isspace c && negb ((28 <=? ord c) && (ord c <=? 31)).

Fixpoint lstrip_number (s : string) : string :=
  match s with
  | EmptyString => EmptyString
  | String c s' => if isspace_number c then lstrip_number s' else s
  end.

Fixpoint rstrip_number (s : string) : string :=
  match s with
  | EmptyString => EmptyString
  | String c s' =>
      match rstrip_number s' with
      | EmptyString => if isspace_number c then EmptyString else String c EmptyString
      | r => String c r
      end
  end.

Definition strip_number (s : string) : string := rstrip_number (lstrip_number s).

(** [str.isprintable] for one code point below 256. *)
Definition isprintable (c : ascii) : bool :=
  let n := ord c in
  ((32 <=? n) && (n <? 127)) || ((161 <=? n) && negb (n =? 173)).

Definition hex_digit (n : Z) : ascii :=
  if n <? 10 then chr (48 + n) else chr (87 + n).

(** One character of [repr(s)] between the quotes [quote]. *)
Definition repr_char (quote c : ascii) : string :=
  if Ascii.eqb c quote || Ascii.eqb c BACKSLASH then String BACKSLASH (String c EmptyString)
  else if ord c =? 9 then String BACKSLASH "t"
  else if ord c =? 10 then String BACKSLASH "n"
  else if ord c =? 13 then String BACKSLASH "r"
  else if isprintable c then String c EmptyString
  else String BACKSLASH
         (String "x" (String (hex_digit (ord c / 16)) (String (hex_digit (ord c mod 16))
                                                              EmptyString))).

Fixpoint repr_body (quote : ascii) (s : string) : string :=
  match s with
  | EmptyString => EmptyString
  | String c s' => repr_char quote c +:+ repr_body quote s'
  end.

Fixpoint has_char (c : ascii) (s : string) : bool :=
  match s with
  | EmptyString => false
  | String x s' => Ascii.eqb x c || has_char c s'
  end.

(** [repr(s)]: in double quotes when [s] holds an apostrophe and no double
    quote, in apostrophes otherwise. *)
Definition repr (s : string) : string :=
  let quote := if has_char APOSTROPHE s && negb (has_char QUOTE s) then QUOTE else APOSTROPHE in
  String quote (repr_body quote s +:+ String quote EmptyString).

(** The first [n] characters of [s]. *)
Fixpoint str_take (n : nat) (s : string) : string :=
  match n, s with
  | S n', String c s' => String c (str_take n' s')
  | _, _ => EmptyString
  end.

(** [str(n)] for a number that is not negative; [fuel] bounds the number of
    digits. *)
Fixpoint str_of_nat_aux (fuel : nat) (n : nat) (acc : string) : string :=
  match fuel with
  | O => acc
  | S fuel' =>
      let acc' := String (chr (48 + Z.of_nat (n mod 10)%nat)) acc in
      if (n <? 10)%nat then acc' else str_of_nat_aux fuel' (n / 10)%nat acc'
  end.

Definition str_of_nat (n : nat) : string := str_of_nat_aux (S n) n EmptyString.

(** [sys.int_info.default_max_str_digits]: the longest run of digits that
    [int()] converts (Python 3.11 and later). *)
Definition MAX_STR_DIGITS : nat := 4300.

(** [int(s)].  The digits are scanned first: an underscore that is not
    between two digits makes the literal invalid; then a literal of more
    than [MAX_STR_DIGITS] digits is refused, leading zeros counted, whatever
    follows the digits; then only white space may follow.  The message of an
    invalid literal shows at most 200 characters of [repr(s)]. *)
Definition int_of_str (s : string) : result Z :=
  let invalid :=
    Raise (Exn ValueError ("invalid literal for int() with base 10: "
                           +:+ str_take 200 (repr s))) in
  let '(negative, body) := signpart (lstrip_number s) in
  match digitpart body 0 0 with
  | (v, count, rest) =>
      if Nat.eqb count 0 then invalid
      else if startswith rest "_" then invalid
      else if (MAX_STR_DIGITS <? count)%nat then
        Raise (Exn ValueError
                 ("Exceeds the limit (4300 digits) for integer string conversion: value has "
                  +:+ str_of_nat count
                  +:+ " digits; use sys.set_int_max_str_digits() to increase the limit"))
      else if String.eqb (lstrip_number rest) "" then Ok (if negative then - v else v)
      else invalid
  end.

(** The exponent part of a float literal, when there is one: the exponent and
    the rest; [None] when an exponent marker is not followed by digits. *)
Definition exponentpart (s : string) : option (Z * string) :=
  match s with
  | String c s' =>
      if Ascii.eqb c "e" || Ascii.eqb c "E" then
        let '(negative, body) := signpart s' in
        match digitpart body 0 0 with
        | (v, S _, rest) => Some (if negative then - v else v, rest)
        | _ => None
        end
      else Some (0, s)
  | EmptyString => Some (0, s)
  end.

(** [float(s)]. *)
Definition float_of_str (s : string) : result pyfloat :=
  let bad := Raise (Exn ValueError ("could not convert string to float: " +:+ repr s)) in
  let '(negative, body) := signpart (strip_number s) in
  let word := lower body in
  if String.eqb word "inf" || String.eqb word "infinity" then Ok (Infinity negative)
  else if String.eqb word "nan" then Ok NaN
  else
    let '(ip, ni, r1) := digitpart body 0 0 in
    let '(mant, nf, r2) :=
      match r1 with
      | String "." r => let '(v, n, r') := digitpart r ip 0 in (v, n, r')
      | _ => (ip, 0%nat, r1)
      end in
    if Nat.eqb (ni + nf) 0 then bad
    else
      match exponentpart r2 with
      | Some (ex, EmptyString) =>
          let p := ex - Z.of_nat nf in
          let v := if negative then - mant else mant in
          Ok (b64_round (v * 10 ^ Z.max 0 p) (10 ^ Z.max 0 (- p)))
      | _ => bad
      end.

(** ** The host: what the operating system answers *)

(** A path that [os.path.exists] reports missing, or one that is there,
    with what using it gives. *)
Inductive source (A : Type) :=
  | Missing
  | Present (a : A).
Arguments Missing {A}.
Arguments Present {A} a.

(** What the calls made for one pid return.  Each field is the answer at the
    moment the program asks, so a file may be present and still fail to open
    (the process went away, the bytes do not decode, permission is refused). *)
Record host := {
  platform_system : string;                     (* platform.system() *)
  SC_PAGE_SIZE : Z;                             (* os.sysconf("SC_PAGE_SIZE") *)
  SC_CLK_TCK : Z;                               (* os.sysconf("SC_CLK_TCK") *)
  proc_path_exists : bool;                      (* /proc/<pid> *)
  status_file : source (result string);         (* open(...).read() *)
  cmdline_file : source (result string);
  statm_file : source (result string);
  stat_file : source (result string);
  uptime_file : result string;                  (* /proc/uptime *)
  fd_dir : source (result (list (string * result string)));
                                                (* os.listdir, and os.readlink of each entry *)
  io_file : source (result string);
  maps_file : source (list string * option exn);
                                                (* the lines a loop over the file gets,
                                                   and the exception that ends it, if any *)
  limits_file : source (list string * option exn);
  cwd_link : result string;                     (* os.readlink *)
  exe_link : result string
}.

(** The calls into the operating system, as the program makes them. *)
Inductive syscall :=
  | Exists (path : string)
  | Open (path : string)
  | Listdir (path : string)
  | Readlink (path : string).

(** A call is appended to the log carried next to the state. *)
Definition call {S A} (c : syscall) (r : result A) : M (S * list syscall) A :=
  fun s => (r, (s.1, s.2 ++ [c])).

Definition update {S} (f : S -> S) : M (S * list syscall) unit :=
  modify (fun s => (f s.1, s.2)).

Definition os_path_exists {S A} (path : string) (src : source A) : M (S * list syscall) bool :=
  call (Exists path) (Ok (match src with Missing => false | Present _ => true end)).

Definition no_such_file (path : string) : exn :=
  Exn FileNotFoundError ("[Errno 2] No such file or directory: '" +:+ path +:+ "'").

(** [with open(path, "r") as f: f.read()]. *)
Definition open_read {S} (path : string) (src : source (result string))
  : M (S * list syscall) string :=
  call (Open path) (match src with Present r => r | Missing => Raise (no_such_file path) end).

(** [l[i]] for [0 <= i]. *)
Definition index {A} (l : list A) (i : nat) : result A :=
  match l !! i with
  | Some x => Ok x
  | None => Raise (Exn IndexError "list index out of range")
  end.

(** ** Process fact collector: [get_proc_info] *)

(** The values a snapshot holds: strings, counts, floats, nested mappings
    and the list of (descriptor, target) pairs. *)
Inductive value :=
  | VStr (s : string)
  | VInt (n : Z)
  | VFloat (x : pyfloat)
  | VDict (d : gmap string value)
  | VPairs (l : list (string * string)).

Abbreviation collector := (gmap string value * list syscall)%type.

(** [info[key] = v]. *)
Definition set_info (key : string) (v : value) : M collector unit :=
  update (fun info : gmap string value => <[key := v]> info).

(** The lines [key: value] of a text block, each stored stripped under its
    stripped key; a line without a colon is skipped. *)
Definition parse_colon_block (text : string) (d : gmap string value) : gmap string value :=
  foldl (fun d line =>
           if str_in ":" line
           then let '(key, value) := split_colon line in <[strip key := VStr (strip value)]> d
           else d)
        d (splitlines text).

Definition collect_status (h : host) (proc_path : string) : M collector unit :=
  b ← os_path_exists (proc_path +:+ "/status") (status_file h);
  if b : bool then
    text ← open_read (proc_path +:+ "/status") (status_file h);
    update (parse_colon_block text)
  else mret tt.

Definition collect_cmdline (h : host) (proc_path : string) : M collector unit :=
  b ← os_path_exists (proc_path +:+ "/cmdline") (cmdline_file h);
  if b : bool then
    text ← open_read (proc_path +:+ "/cmdline") (cmdline_file h);
    set_info "cmdline" (VStr (strip (replace_nul text)))
  else mret tt.

(** [int(statm[i]) * page_size / 1024]. *)
Definition pages_to_kb (statm : list string) (i : nat) (page_size : Z) : result pyfloat :=
  match index statm i with
  | Ok s =>
      match int_of_str s with
      | Ok n => int_truediv (n * page_size) 1024
      | Raise e => Raise e
      end
  | Raise e => Raise e
  end.

Definition collect_memory (h : host) (proc_path : string) : M collector unit :=
  b ← os_path_exists (proc_path +:+ "/statm") (statm_file h);
  if b : bool then
    text ← open_read (proc_path +:+ "/statm") (statm_file h);
    let statm := split_ws (strip text) in
    if (7 <=? length statm)%nat then
      let page_size := SC_PAGE_SIZE h in
      total_program_size ← lift (pages_to_kb statm 0 page_size);
      resident_set_size ← lift (pages_to_kb statm 1 page_size);
      shared_pages ← lift (pages_to_kb statm 2 page_size);
      text_kb ← lift (pages_to_kb statm 3 page_size);
      data_stack ← lift (pages_to_kb statm 5 page_size);
      set_info "memory"
        (VDict (list_to_map
                  [("total_program_size", VFloat total_program_size);
                   ("resident_set_size", VFloat resident_set_size);
                   ("shared_pages", VFloat shared_pages);
                   ("text", VFloat text_kb);
                   ("data_stack", VFloat data_stack)]))
    else mret tt
  else mret tt.

(** [float(stat_parts[i]) / os.sysconf("SC_CLK_TCK")]. *)
Definition ticks_to_seconds (stat_parts : list string) (i : nat) (clk_tck : Z) : result pyfloat :=
  match index stat_parts i with
  | Ok s =>
      match float_of_str s with
      | Ok x => float_div_int x clk_tck
      | Raise e => Raise e
      end
  | Raise e => Raise e
  end.

Definition collect_cpu (h : host) (proc_path : string) : M collector unit :=
  b ← os_path_exists (proc_path +:+ "/stat") (stat_file h);
  if b : bool then
    text ← open_read (proc_path +:+ "/stat") (stat_file h);
    let stat_parts := split_ws (strip text) in
    if (44 <=? length stat_parts)%nat then
      user_time ← lift (ticks_to_seconds stat_parts 13 (SC_CLK_TCK h));
      system_time ← lift (ticks_to_seconds stat_parts 14 (SC_CLK_TCK h));
      start_time ← lift (ticks_to_seconds stat_parts 21 (SC_CLK_TCK h));
      set_info "cpu"
        (VDict (list_to_map
                  [("user_time", VFloat user_time);
                   ("system_time", VFloat system_time);
                   ("start_time", VFloat start_time)]));;
      uptime_text ← call (Open "/proc/uptime") (uptime_file h);
      first ← lift (index (split_ws uptime_text) 0);
      uptime ← lift (float_of_str first);
      start_seconds_since_boot ← lift (ticks_to_seconds stat_parts 21 (SC_CLK_TCK h));
      set_info "uptime" (VFloat (float_sub uptime start_seconds_since_boot))
    else mret tt
  else mret tt.

(** [info["fd_details"].append((fd, target))]. *)
Definition append_fd_detail (fd target : string) : M collector unit :=
  update (fun info : gmap string value =>
            match info !! "fd_details" with
            | Some (VPairs l) => <["fd_details" := VPairs (l ++ [(fd, target)])]> info
            | _ => info
            end).

Definition collect_fds (h : host) (proc_path : string) : M collector unit :=
  let fd_path := proc_path +:+ "/fd" in
  b ← os_path_exists fd_path (fd_dir h);
  if b : bool then
    try_except
      (entries ← call (Listdir fd_path)
                   (match fd_dir h with Present r => r | Missing => Raise (no_such_file fd_path) end);
       set_info "fd_count" (VInt (Z.of_nat (length entries)));;
       set_info "fd_details" (VPairs []);;
       for_each (take 10 entries) (fun '(fd, link) =>
         try_except
           (target ← call (Readlink (fd_path +:+ "/" +:+ fd)) link;
            append_fd_detail fd target)
           any_exception (fun _ => mret tt)))
      is_PermissionError
      (fun _ => set_info "fd_count" (VStr "(Permission denied)"))
  else mret tt.

Definition collect_io (h : host) (proc_path : string) : M collector unit :=
  b ← os_path_exists (proc_path +:+ "/io") (io_file h);
  if b : bool then
    try_except
      (text ← open_read (proc_path +:+ "/io") (io_file h);
       set_info "io" (VDict (parse_colon_block text ∅)))
      any_exception
      (fun _ => set_info "io" (VStr "(Unable to read I/O statistics)"))
  else mret tt.

(** The body of the outer [try] of [get_proc_info]. *)
Definition collect_all (h : host) (proc_path : string) : M collector unit :=
  collect_status h proc_path;;
  collect_cmdline h proc_path;;
  collect_memory h proc_path;;
  collect_cpu h proc_path;;
  collect_fds h proc_path;;
  collect_io h proc_path.

(** The [info] mapping as it is now. *)
Definition current_info : M collector (gmap string value) := fun s => (Ok s.1, s).

Definition get_proc_info_m (h : host) (pid : string) : M collector (gmap string value) :=
  if negb (String.eqb (platform_system h) "Linux")
  then mret {[ "error" := VStr "This function is only available on Linux" ]}
  else
    let proc_path := "/proc/" +:+ pid in
    b ← call (Exists proc_path) (Ok (proc_path_exists h));
    if negb b
    then mret {[ "error" := VStr ("Process " +:+ pid +:+ " no longer exists") ]}
    else
      try_except (collect_all h proc_path) any_exception
        (fun e => set_info "error" (VStr ("Error reading process information: " +:+ str_of e)));;
      current_info.

(** [get_proc_info(pid)] on a host: what it returns or raises, and the calls
    it made. *)
Definition get_proc_info (h : host) (pid : string) : result (gmap string value) :=
  (get_proc_info_m h pid (∅, [])).1.

Definition get_proc_info_calls (h : host) (pid : string) : list syscall :=
  (get_proc_info_m h pid (∅, [])).2.2.

(** ** Section content resolver: [get_section_content] *)

Abbreviation resolver := (list string * list syscall)%type.

(** [content.append(line)]. *)
Definition append_line (line : string) : M resolver unit :=
  update (fun content : list string => content ++ [line]).

(** [with open(path) as f: for line in f: content.append(line.rstrip())]:
    the lines read before the file fails are appended before it fails. *)
Definition append_file_lines (path : string) (src : source (list string * option exn))
  : M resolver unit :=
  call (Open path) (Ok tt);;
  match src with
  | Present (lines, stop) =>
      for_each lines (fun line => append_line (rstrip line));;
      match stop with
      | Some e => lift (Raise e)
      | None => mret tt
      end
  | Missing => lift (Raise (no_such_file path))
  end.

Definition get_section_content_m (h : host) (proc_path section_id : string) : M resolver unit :=
  if String.eqb section_id "maps" then
    let maps_path := proc_path +:+ "/maps" in
    b ← os_path_exists maps_path (maps_file h);
    if b : bool then
      try_except (append_file_lines maps_path (maps_file h)) any_exception
        (fun e => append_line ("Error reading maps: " +:+ str_of e))
    else append_line "maps not available"
  else if String.eqb section_id "fd" then
    let fd_path := proc_path +:+ "/fd" in
    b ← os_path_exists fd_path (fd_dir h);
    if b : bool then
      try_except
        (fds ← call (Listdir fd_path)
               (match fd_dir h with Present r => r | Missing => Raise (no_such_file fd_path) end);
         for_each fds (fun '(fd, link) =>
           try_except
             (target ← call (Readlink (fd_path +:+ "/" +:+ fd)) link;
              append_line ("fd " +:+ fd +:+ ": " +:+ target))
             any_exception
             (fun e => append_line ("fd " +:+ fd +:+ ": Error: " +:+ str_of e))))
        any_exception
        (fun e => append_line ("Error reading fd: " +:+ str_of e))
    else append_line "fd not available"
  else if String.eqb section_id "cwd" then
    let cwd_path := proc_path +:+ "/cwd" in
    try_except (target ← call (Readlink cwd_path) (cwd_link h); append_line target)
      any_exception (fun e => append_line ("Error: " +:+ str_of e))
  else if String.eqb section_id "exe" then
    let exe_path := proc_path +:+ "/exe" in
    try_except (target ← call (Readlink exe_path) (exe_link h); append_line target)
      any_exception (fun e => append_line ("Error: " +:+ str_of e))
  else if String.eqb section_id "limits" then
    let limits_path := proc_path +:+ "/limits" in
    b ← os_path_exists limits_path (limits_file h);
    if b : bool then
      try_except (append_file_lines limits_path (limits_file h)) any_exception
        (fun e => append_line ("Error reading limits: " +:+ str_of e))
    else append_line "limits not available"
  else mret tt.

(** [get_section_content(proc_path, section_id)]: [content] starts empty and
    is returned at the end. *)
Definition get_section_content (h : host) (proc_path section_id : string)
  : result (list string) :=
  match get_section_content_m h proc_path section_id ([], []) with
  | (Ok _, s) => Ok s.1
  | (Raise e, _) => Raise e
  end.

(** ** Key codes *)

Definition KEY_DOWN : Z := 258.
Definition KEY_UP : Z := 259.
Definition KEY_NPAGE : Z := 338.
Definition KEY_PPAGE : Z := 339.
Definition KEY_ENTER : Z := 343.

(** [key in (a, b, ...)]. *)
Definition key_in (key : Z) (keys : list Z) : bool := existsb (Z.eqb key) keys.

(** What one turn of a screen's [while True] loop does. *)
Inductive turn (S : Type) :=
  | Continue (s : S)
  | Leave (r : option string).
Arguments Continue {S} s.
Arguments Leave {S} r.

(** ** Advanced info screen: the key loop of [show_advanced_info_tui] *)

Definition sections : list (string * string) :=
  [("Memory Maps", "maps");
   ("Open Files/Sockets", "fd");
   ("Current Working Directory", "cwd");
   ("Executable Path", "exe");
   ("Resource Limits", "limits")].

(** The variables of the screen that the loop changes. *)
Record advanced := {
  collapsed : list bool;
  selected_idx : nat;
  scroll_pos : Z
}.

(** The loop that fills [section_content] and [max_lines] before the first
    draw. *)
Fixpoint load_sections (h : host) (proc_path : string) (l : list (string * string))
    (acc : gmap string (list string) * gmap string Z)
  : result (gmap string (list string) * gmap string Z) :=
  match l with
  | [] => Ok acc
  | (_, section_id) :: l' =>
      match get_section_content h proc_path section_id with
      | Ok content =>
          load_sections h proc_path l'
            (<[section_id := content]> acc.1,
             <[section_id := Z.of_nat (length content)]> acc.2)
      | Raise e => Raise e
      end
  end.

Definition advanced_start : advanced :=
  {| collapsed := replicate (length sections) false; selected_idx := 0; scroll_pos := 0 |}.

(** One key of the main loop.  [collapsed[selected_idx]],
    [sections[selected_idx]] and [max_lines[section_id]] raise when the index
    or the key is not there. *)
Definition advanced_key (max_lines : gmap string Z) (st : advanced) (key : Z)
  : result (turn advanced) :=
  if key_in key [ord "q"; 27] then Ok (Leave None)
  else if key_in key [KEY_UP; ord "k"] then
    if (0 <? selected_idx st)%nat
    then Ok (Continue {| collapsed := collapsed st;
                         selected_idx := selected_idx st - 1;
                         scroll_pos := 0 |})
    else Ok (Continue st)
  else if key_in key [KEY_DOWN; ord "j"] then
    if (selected_idx st <? length sections - 1)%nat
    then Ok (Continue {| collapsed := collapsed st;
                         selected_idx := selected_idx st + 1;
                         scroll_pos := 0 |})
    else Ok (Continue st)
  else if key_in key [KEY_ENTER; 10; 13; ord " "] then
    match index (collapsed st) (selected_idx st) with
    | Ok c => Ok (Continue {| collapsed := <[selected_idx st := negb c]> (collapsed st);
                              selected_idx := selected_idx st;
                              scroll_pos := 0 |})
    | Raise e => Raise e
    end
  else if key =? KEY_NPAGE then
    match index (collapsed st) (selected_idx st) with
    | Ok c =>
        if negb c then
          match index sections (selected_idx st) with
          | Ok (_, section_id) =>
              match max_lines !! section_id with
              | Some content_length =>
                  Ok (Continue {| collapsed := collapsed st;
                                  selected_idx := selected_idx st;
                                  scroll_pos := Z.min (scroll_pos st + 5) (content_length - 1) |})
              | None => Raise (Exn KeyError ("'" +:+ section_id +:+ "'"))
              end
          | Raise e => Raise e
          end
        else Ok (Continue st)
    | Raise e => Raise e
    end
  else if key =? KEY_PPAGE then
    match index (collapsed st) (selected_idx st) with
    | Ok c =>
        if negb c then
          Ok (Continue {| collapsed := collapsed st;
                          selected_idx := selected_idx st;
                          scroll_pos := Z.max 0 (scroll_pos st - 5) |})
        else Ok (Continue st)
    | Raise e => Raise e
    end
  else Ok (Continue st).

(** The loop over the keys typed, from a given state: the state it is in when
    the keys run out, or that it has left. *)
Fixpoint advanced_keys (max_lines : gmap string Z) (st : advanced) (keys : list Z)
  : result (turn advanced) :=
  match keys with
  | [] => Ok (Continue st)
  | key :: keys' =>
      match advanced_key max_lines st key with
      | Ok (Continue st') => advanced_keys max_lines st' keys'
      | r => r
      end
  end.

(** The screen: when the [/proc] entry is gone it shows a message and
    returns; else the sections are loaded once and the keys are handled.
    [draw()], which runs before each key is read, changes none of the
    variables of [advanced] and is not part of the model. *)
Definition show_advanced_info_tui (h : host) (pid : string) (keys : list Z)
  : result (turn advanced) :=
  if negb (proc_path_exists h) then Ok (Leave None)
  else
    match load_sections h ("/proc/" +:+ pid) sections (∅, ∅) with
    | Ok (_, max_lines) => advanced_keys max_lines advanced_start keys
    | Raise e => Raise e
    end.

(** ** Main menu: the loop of [show_main_menu] *)

Definition menu_items : list string := ["Processes"; "Exit"].

(** What the menu loop gets in one turn: the drawing raises [curses.error]
    before a key is read, or a key is read. *)
Inductive menu_input :=
  | DrawError
  | Key (key : Z).

(** One turn of the loop.  Entering "Processes" runs the selector and the
    detail screen and comes back to the loop with [selected_idx] as it was;
    those screens are not part of this function. *)
Definition show_main_menu_turn (selected_idx : nat) (i : menu_input) : turn nat :=
  match i with
  | DrawError => Continue selected_idx
  | Key key =>
      if key_in key [KEY_UP; ord "k"] && (0 <? selected_idx)%nat
      then Continue (selected_idx - 1)%nat
      else if key_in key [KEY_DOWN; ord "j"] && (selected_idx <? length menu_items - 1)%nat
      then Continue (selected_idx + 1)%nat
      else if key_in key [KEY_ENTER; 10; 13] then
        if (selected_idx =? 0)%nat then Continue selected_idx
        else if (selected_idx =? 2)%nat then Leave (Some "exit")
        else Continue selected_idx
      else if key_in key [ord "q"; 27] then Leave (Some "exit")
      else Continue selected_idx
  end.

(** The loop from [selected_idx] over the inputs of the menu: what it
    returns, or [None] while it is still waiting for a key. *)
Fixpoint show_main_menu_from (selected_idx : nat) (inputs : list menu_input) : option string :=
  match inputs with
  | [] => None
  | i :: inputs' =>
      match show_main_menu_turn selected_idx i with
      | Continue selected_idx' => show_main_menu_from selected_idx' inputs'
      | Leave r => r
      end
  end.

Definition show_main_menu (inputs : list menu_input) : option string :=
  show_main_menu_from 0 inputs.

(** ** Live output monitor: [monitor_io_streams] *)

(** What a call made by the monitor can raise: [KeyboardInterrupt], which is
    not an [Exception], or an exception. *)
Inductive raised :=
  | KeyboardInterrupt
  | Exc (e : exn).

Inductive outcome (A : Type) :=
  | Returns (a : A)
  | Raises (r : raised).
Arguments Returns {A} a.
Arguments Raises {A} r.

Definition is_SubprocessError (c : exn_class) : bool :=
  match c with
  | SubprocessError | TimeoutExpired | CalledProcessError => true
  | _ => false
  end.

(** The answers of the calls of one turn of the streaming loop. *)
Record poll := {
  target_alive : bool;                      (* os.path.exists(proc_path) *)
  tracer_line : outcome string;             (* process.stdout.readline() *)
  stdin_line : outcome (option string);     (* select.select and sys.stdin.readline():
                                               the line typed, when there is one *)
  stdin_path_exists : bool;                 (* os.path.exists(stdin_path) *)
  stdin_write : outcome unit                (* open(stdin_path, "w"), write, flush *)
}.

(** The answers of the calls of one session of the monitor. *)
Record session := {
  session_system : string;                  (* platform.system() *)
  which_strace : outcome unit;              (* subprocess.run(['which', 'strace'], check=True) *)
  target_exists : bool;                     (* os.path.exists(proc_path), before the launch *)
  popen : outcome unit;                     (* subprocess.Popen(cmd, ...) *)
  polls : list poll;                        (* the turns of the loop, in order *)
  terminate : outcome unit;                 (* process.terminate() *)
  wait : outcome unit;                      (* process.wait(timeout=2) *)
  kill : outcome unit;                      (* process.kill() *)
  target_exists_at_end : bool               (* os.path.exists(proc_path), in the finally block *)
}.

(** The calls made on the tracer subprocess handle. *)
Inductive tracer_call :=
  | Terminate
  | Wait (timeout : Z)
  | Kill.

(** How the streaming loop stops. *)
Inductive loop_end :=
  | TargetExited
  | LoopRaised (r : raised).

(** [sys.stdin.readline().rstrip("\n")]. *)
Fixpoint rstrip_newline (s : string) : string :=
  match s with
  | EmptyString => EmptyString
  | String c s' =>
      match rstrip_newline s' with
      | EmptyString => if ord c =? 10 then EmptyString else String c EmptyString
      | r => String c r
      end
  end.

(** The [while True] loop over the turns given: how it stops, or [None] when
    it is still running after them. *)
Fixpoint streaming (turns : list poll) : option loop_end :=
  match turns with
  | [] => None
  | p :: turns' =>
      if negb (target_alive p) then Some TargetExited
      else
        match tracer_line p with
        | Raises r => Some (LoopRaised r)
        | Returns _ =>
            match stdin_line p with
            | Raises r => Some (LoopRaised r)
            | Returns None => streaming turns'
            | Returns (Some line) =>
                let user_input := rstrip_newline line in
                if negb (String.eqb user_input "") && stdin_path_exists p then
                  match stdin_write p with
                  | Raises KeyboardInterrupt => Some (LoopRaised KeyboardInterrupt)
                  | _ => streaming turns'
                  end
                else streaming turns'
            end
        end
  end.

(** The first part of the [finally] block, for a handle that exists. *)
Definition release_tracer (s : session) : list tracer_call :=
  match terminate s with
  | Returns _ =>
      match wait s with
      | Returns _ => [Terminate; Wait 2]
      | Raises _ => [Terminate; Wait 2; Kill]
      end
  | Raises _ => [Terminate; Kill]
  end.

(** What the [finally] block has done about the tracer when it is over. *)
Inductive tracer_fate :=
  | Exited        (* wait(timeout=2) returned: the tracer has exited *)
  | Killed        (* kill() returned: the signal was sent, or the tracer had exited *)
  | NotStopped.   (* kill() raised and [except: pass] swallowed it: the tracer has
                     not been seen to exit and no kill went through *)

Definition kill_tracer (s : session) : tracer_fate :=
  match kill s with
  | Returns _ => Killed
  | Raises _ => NotStopped
  end.

(** The same block, for what it leaves of the tracer. *)
Definition tracer_fate_of (s : session) : tracer_fate :=
  match terminate s with
  | Returns _ =>
      match wait s with
      | Returns _ => Exited
      | Raises _ => kill_tracer s
      end
  | Raises _ => kill_tracer s
  end.

(** How a session ends. *)
Inductive session_end :=
  | NotLinux                  (* the platform check returns *)
  | TracerMissing             (* [which strace] fails: message, pause, return *)
  | TargetMissing             (* the target is not there before the launch *)
  | Detached                  (* the target exited: the loop breaks *)
  | Stopped                   (* KeyboardInterrupt, handled *)
  | Failed (e : exn)          (* a SubprocessError, handled *)
  | Propagated (r : raised).  (* anything else leaves the function after [finally] *)

Record session_result := {
  ending : session_end;
  spawned : bool;                     (* [process] is bound: Popen returned *)
  tracer_calls : list tracer_call;    (* calls on the handle, in order *)
  tracer_at_end : option tracer_fate; (* what became of the tracer, when there is one *)
  paused_at_end : bool                (* input("Press Enter to return...") *)
}.

(** The [except] clauses of the outer [try]. *)
Definition handle_raised (r : raised) : session_end :=
  match r with
  | KeyboardInterrupt => Stopped
  | Exc e => if is_SubprocessError (class_of e) then Failed e else Propagated r
  end.

Definition not_started (e : session_end) : session_result :=
  {| ending := e; spawned := false; tracer_calls := []; tracer_at_end := None;
     paused_at_end := false |}.

(** [monitor_io_streams(pid)]: the result of the session, or [None] when the
    loop is still running after the turns given. *)
Definition monitor_io_streams (s : session) : option session_result :=
  if negb (String.eqb (session_system s) "Linux") then Some (not_started NotLinux)
  else
    match which_strace s with
    | Raises (Exc e) =>
        if match class_of e with CalledProcessError => true | _ => false end
        then Some (not_started TracerMissing)
        else Some (not_started (Propagated (Exc e)))
    | Raises KeyboardInterrupt => Some (not_started (Propagated KeyboardInterrupt))
    | Returns _ =>
        if negb (target_exists s) then Some (not_started TargetMissing)
        else
          match popen s with
          | Raises r =>
              Some {| ending := handle_raised r; spawned := false; tracer_calls := [];
                      tracer_at_end := None;
                      paused_at_end := negb (target_exists_at_end s) |}
          | Returns _ =>
              match streaming (polls s) with
              | None => None
              | Some stop =>
                  Some {| ending := match stop with
                                    | TargetExited => Detached
                                    | LoopRaised r => handle_raised r
                                    end;
                          spawned := true;
                          tracer_calls := release_tracer s;
                          tracer_at_end := Some (tracer_fate_of s);
                          paused_at_end := negb (target_exists_at_end s) |}
              end
          end
    end.

(** ** Sample hosts *)

Definition NUL : string := String "000" EmptyString.
Definition TAB : string := String "009" EmptyString.
Definition LF : string := String "010" EmptyString.

(** The text of a file with the given lines. *)
Definition unlines (lines : list string) : string :=
  foldr (fun line text => line +:+ LF +:+ text) EmptyString lines.

(** A shell, pid 4242, inspected by its owner. *)
Definition shell_process : host := {|
  platform_system := "Linux";
  SC_PAGE_SIZE := 4096;
  SC_CLK_TCK := 100;
  proc_path_exists := true;
  status_file := Present (Ok (unlines ["Name:" +:+ TAB +:+ "bash";
                                       "State:" +:+ TAB +:+ "S (sleeping)";
                                       "Pid:" +:+ TAB +:+ "4242";
                                       "Threads:" +:+ TAB +:+ "1"]));
  cmdline_file := Present (Ok ("prog" +:+ NUL +:+ "--flag" +:+ NUL +:+ "val" +:+ NUL));
  statm_file := Present (Ok (unlines ["2500 1200 300 200 0 700 0"]));
  stat_file := Missing;
  uptime_file := Ok (unlines ["1000.50 2000.00"]);
  fd_dir := Present (Ok [("0", Ok "/dev/pts/0"); ("1", Ok "/dev/pts/0");
                         ("2", Ok "/dev/pts/0"); ("3", Ok "socket:[31337]");
                         ("4", Ok "pipe:[4711]"); ("5", Ok "/var/log/a.log");
                         ("6", Raise (Exn FileNotFoundError "[Errno 2] No such file or directory"));
                         ("7", Ok "/var/log/b.log"); ("8", Ok "/var/log/c.log");
                         ("9", Ok "/var/log/d.log"); ("10", Ok "/var/log/e.log");
                         ("11", Ok "/var/log/f.log")]);
  io_file := Present (Ok (unlines ["rchar: 1024"; "wchar: 2048"]));
  maps_file := Present ([unlines ["00400000-0048e000 r-xp 00000000 08:01 131 /usr/bin/bash"]], None);
  limits_file := Present ([unlines ["Max open files 1024 4096 files"]], None);
  cwd_link := Ok "/home/user";
  exe_link := Ok "/usr/bin/bash"
|}.

(** The same process when the bytes of its command line are not valid in
    the encoding the file is opened with. *)
Definition undecodable_cmdline : host := {|
  platform_system := platform_system shell_process;
  SC_PAGE_SIZE := SC_PAGE_SIZE shell_process;
  SC_CLK_TCK := SC_CLK_TCK shell_process;
  proc_path_exists := true;
  status_file := status_file shell_process;
  cmdline_file :=
    Present (Raise (Exn UnicodeDecodeError
                      "'utf-8' codec can't decode byte 0xe9 in position 5: invalid continuation byte"));
  statm_file := statm_file shell_process;
  stat_file := stat_file shell_process;
  uptime_file := uptime_file shell_process;
  fd_dir := fd_dir shell_process;
  io_file := io_file shell_process;
  maps_file := maps_file shell_process;
  limits_file := limits_file shell_process;
  cwd_link := cwd_link shell_process;
  exe_link := exe_link shell_process
|}.

(** The same process with a memory record whose first field is [2^53 + 1]
    pages. *)
Definition huge_statm : host := {|
  platform_system := platform_system shell_process;
  SC_PAGE_SIZE := SC_PAGE_SIZE shell_process;
  SC_CLK_TCK := SC_CLK_TCK shell_process;
  proc_path_exists := true;
  status_file := status_file shell_process;
  cmdline_file := cmdline_file shell_process;
  statm_file := Present (Ok (unlines ["9007199254740993 1200 300 200 0 700 0"]));
  stat_file := stat_file shell_process;
  uptime_file := uptime_file shell_process;
  fd_dir := fd_dir shell_process;
  io_file := io_file shell_process;
  maps_file := maps_file shell_process;
  limits_file := limits_file shell_process;
  cwd_link := cwd_link shell_process;
  exe_link := exe_link shell_process
|}.

(** The character [c], [n] times. *)
Fixpoint repeat_char (c : ascii) (n : nat) : string :=
  match n with
  | O => EmptyString
  | S n' => String c (repeat_char c n')
  end.

(** A memory record whose first field is written with 4301 zeros in front
    of its digit. *)
Definition padded_statm : host := {|
  platform_system := platform_system shell_process;
  SC_PAGE_SIZE := SC_PAGE_SIZE shell_process;
  SC_CLK_TCK := SC_CLK_TCK shell_process;
  proc_path_exists := true;
  status_file := status_file shell_process;
  cmdline_file := cmdline_file shell_process;
  statm_file := Present (Ok (unlines [repeat_char "0" 4301 +:+ "1 1200 300 200 0 700 0"]));
  stat_file := stat_file shell_process;
  uptime_file := uptime_file shell_process;
  fd_dir := fd_dir shell_process;
  io_file := io_file shell_process;
  maps_file := maps_file shell_process;
  limits_file := limits_file shell_process;
  cwd_link := cwd_link shell_process;
  exe_link := exe_link shell_process
|}.

(** A kernel thread, pid 2, inspected by an ordinary user: its memory map is
    there and empty, its descriptors and links are not for that user. *)
Definition kernel_thread : host := {|
  platform_system := "Linux";
  SC_PAGE_SIZE := 4096;
  SC_CLK_TCK := 100;
  proc_path_exists := true;
  status_file := Present (Ok (unlines ["Name:" +:+ TAB +:+ "kthreadd";
                                       "State:" +:+ TAB +:+ "S (sleeping)"]));
  cmdline_file := Present (Ok EmptyString);
  statm_file := Present (Ok (unlines ["0 0 0 0 0 0 0"]));
  stat_file := Missing;
  uptime_file := Ok (unlines ["1000.50 2000.00"]);
  fd_dir := Present (Raise (Exn PermissionError "[Errno 13] Permission denied: '/proc/2/fd'"));
  io_file := Present (Raise (Exn PermissionError "[Errno 13] Permission denied: '/proc/2/io'"));
  maps_file := Present ([], None);
  limits_file := Present ([unlines ["Max open files 1024 4096 files"]], None);
  cwd_link := Raise (Exn PermissionError "[Errno 13] Permission denied: '/proc/2/cwd'");
  exe_link := Raise (Exn PermissionError "[Errno 13] Permission denied: '/proc/2/exe'")
|}.

(** A pid whose [/proc] entry is gone. *)
Definition vanished_process : host := {|
  platform_system := "Linux";
  SC_PAGE_SIZE := 4096;
  SC_CLK_TCK := 100;
  proc_path_exists := false;
  status_file := Missing;
  cmdline_file := Missing;
  statm_file := Missing;
  stat_file := Missing;
  uptime_file := Ok (unlines ["1000.50 2000.00"]);
  fd_dir := Missing;
  io_file := Missing;
  maps_file := Missing;
  limits_file := Missing;
  cwd_link := Raise (Exn FileNotFoundError "[Errno 2] No such file or directory: '/proc/777/cwd'");
  exe_link := Raise (Exn FileNotFoundError "[Errno 2] No such file or directory: '/proc/777/exe'")
|}.

(** ** What the resolver is expected to return, section by section *)

(** A table read line by line: a placeholder when the file is missing, else
    its lines with trailing blanks removed, followed by an error line when
    reading stopped on an exception. *)
Definition table_lines (name : string) (src : source (list string * option exn)) : list string :=
  match src with
  | Missing => [name +:+ " not available"]
  | Present (lines, None) => rstrip <$> lines
  | Present (lines, Some e) => (rstrip <$> lines) ++ ["Error reading " +:+ name +:+ ": " +:+ str_of e]
  end.

(** One line per descriptor, in the order of the listing. *)
Definition descriptor_line (entry : string * result string) : string :=
  match entry with
  | (fd, Ok target) => "fd " +:+ fd +:+ ": " +:+ target
  | (fd, Raise e) => "fd " +:+ fd +:+ ": Error: " +:+ str_of e
  end.

Definition descriptor_lines (src : source (result (list (string * result string)))) : list string :=
  match src with
  | Missing => ["fd not available"]
  | Present (Ok entries) => descriptor_line <$> entries
  | Present (Raise e) => ["Error reading fd: " +:+ str_of e]
  end.

Definition link_lines (link : result string) : list string :=
  match link with
  | Ok target => [target]
  | Raise e => ["Error: " +:+ str_of e]
  end.

Definition section_lines (h : host) (section_id : string) : list string :=
  if String.eqb section_id "maps" then table_lines "maps" (maps_file h)
  else if String.eqb section_id "fd" then descriptor_lines (fd_dir h)
  else if String.eqb section_id "cwd" then link_lines (cwd_link h)
  else if String.eqb section_id "exe" then link_lines (exe_link h)
  else if String.eqb section_id "limits" then table_lines "limits" (limits_file h)
  else [].

(** The source of a section is there, is read without an error, and holds
    nothing. *)
Definition empty_source (h : host) (section_id : string) : Prop :=
  (section_id = "maps" /\ maps_file h = Present ([], None))
  \/ (section_id = "limits" /\ limits_file h = Present ([], None))
  \/ (section_id = "fd" /\ fd_dir h = Present (Ok [])).

(** ** Sample sessions of the monitor *)

Definition quiet_turn : poll := {|
  target_alive := true;
  tracer_line := Returns EmptyString;
  stdin_line := Returns None;
  stdin_path_exists := true;
  stdin_write := Returns tt
|}.

Definition target_gone_turn : poll := {|
  target_alive := false;
  tracer_line := Returns EmptyString;
  stdin_line := Returns None;
  stdin_path_exists := false;
  stdin_write := Returns tt
|}.

Definition interrupted_turn : poll := {|
  target_alive := true;
  tracer_line := Returns EmptyString;
  stdin_line := Raises KeyboardInterrupt;
  stdin_path_exists := true;
  stdin_write := Returns tt
|}.

(** The target exits during the third turn; the tracer stops when asked. *)
Definition session_target_exits : session := {|
  session_system := "Linux";
  which_strace := Returns tt;
  target_exists := true;
  popen := Returns tt;
  polls := [quiet_turn; quiet_turn; target_gone_turn];
  terminate := Returns tt;
  wait := Returns tt;
  kill := Returns tt;
  target_exists_at_end := false
|}.

(** The operator interrupts; the tracer is still there after the two
    seconds. *)
Definition session_interrupted : session := {|
  session_system := "Linux";
  which_strace := Returns tt;
  target_exists := true;
  popen := Returns tt;
  polls := [quiet_turn; interrupted_turn];
  terminate := Returns tt;
  wait := Raises (Exc (Exn TimeoutExpired "Command 'strace' timed out after 2 seconds"));
  kill := Returns tt;
  target_exists_at_end := true
|}.

(** The operator interrupts; the tracer runs with the rights of another
    user (a [strace] that is a wrapper around [sudo]), so that no signal can
    be sent to it. *)
Definition session_kill_fails : session := {|
  session_system := "Linux";
  which_strace := Returns tt;
  target_exists := true;
  popen := Returns tt;
  polls := [quiet_turn; interrupted_turn];
  terminate := Raises (Exc (Exn PermissionError "[Errno 1] Operation not permitted"));
  wait := Returns tt;
  kill := Raises (Exc (Exn PermissionError "[Errno 1] Operation not permitted"));
  target_exists_at_end := true
|}.

(** What the interrupted session gives. *)
Definition interrupted_result : session_result :=
  {| ending := Stopped; spawned := true;
     tracer_calls := [Terminate; Wait 2; Kill]; tracer_at_end := Some Killed;
     paused_at_end := false |}.

(** ** Predicates used in the statements *)

(** The calls the [finally] block made on the tracer handle: terminate and a
    wait of two seconds that returned; or terminate, a wait of two seconds
    that raised, and kill; or a terminate that raised, and kill. *)
Definition released (s : session) (calls : list tracer_call) : Prop :=
  (calls = [Terminate; Wait 2]
   /\ exists u v, terminate s = Returns u /\ wait s = Returns v)
  \/ (calls = [Terminate; Wait 2; Kill]
      /\ exists u r, terminate s = Returns u /\ wait s = Raises r)
  \/ (calls = [Terminate; Kill]
      /\ exists r, terminate s = Raises r).

(** The session got as far as the streaming loop. *)
Definition entered_streaming (s : session) : Prop :=
  session_system s = "Linux"
  /\ (exists u, which_strace s = Returns u)
  /\ target_exists s = true
  /\ (exists u, popen s = Returns u).

(** The six steps of the outer [try] of [get_proc_info], in order, and the
    run of a list of steps one after the other. *)
Definition collection_steps (h : host) (proc_path : string) : list (M collector unit) :=
  [collect_status h proc_path; collect_cmdline h proc_path; collect_memory h proc_path;
   collect_cpu h proc_path; collect_fds h proc_path; collect_io h proc_path].

Definition run_steps (steps : list (M collector unit)) : M collector unit :=
  for_each steps (fun step => step).

(** The steps that come before the descriptors. *)
Definition collect_before_fds (h : host) (proc_path : string) : M collector unit :=
  collect_status h proc_path;;
  collect_cmdline h proc_path;;
  collect_memory h proc_path;;
  collect_cpu h proc_path.

(** A file that opens and reads without raising, or is missing. *)
Definition opens {A} (src : source (result A)) : Prop :=
  forall e, src <> Present (Raise e).

(** Field [i] of a memory record, as [collect_memory] reads it. *)
Definition statm_field (text : string) (i : nat) : result Z :=
  match index (split_ws (strip text)) i with
  | Ok s => int_of_str s
  | Raise e => Raise e
  end.

(** The entry [key] of a nested mapping is a float that stands for
    [pages * page_size / 1024]. *)
Definition reports_kb (m : gmap string value) (key : string) (pages page_size : Z) : Prop :=
  exists x q,
    m !! key = Some (VFloat x)
    /\ Q_of_float x = Some q
    /\ (q == (pages * page_size # 1024))%Q.

(** The (descriptor, target) pairs of the entries whose link could be read. *)
Definition resolved (entries : list (string * result string)) : list (string * string) :=
  omap (fun entry : string * result string =>
          match entry.2 with
          | Ok target => Some (entry.1, target)
          | Raise _ => None
          end) entries.

(** A computation changes no field of [info] outside [keys]. *)
Definition touches_only {A} (keys : list string) (m : M collector A) : Prop :=
  forall s r s' key, m s = (r, s') -> ~ In key keys -> s'.1 !! key = s.1 !! key.

(** The quotient [x/1024] of an [int] is a finite binary64 value: [x] has at
    most 53 significant bits, and the quotient is within the range of the
    exponent. *)
Definition binary64_over_1024 (x : Z) : Prop :=
  exists y k, x = y * 2 ^ k /\ 0 <= k <= 981 /\ Z.abs y < 2 ^ 53.

(** The field [key] does not hold a nested mapping. *)
Definition no_dict_at (key : string) (info : gmap string value) : Prop :=
  forall m, info !! key <> Some (VDict m).

(** The test of the comprehension of [search_processes]. *)
Definition matches (search_term : string) (p : proc) : bool :=
  str_in (lower search_term) (lower p.1) || str_in (lower search_term) (lower p.2).

(** The state is well formed: one collapse flag per section and the
    selection on a section. *)
Definition advanced_wf (st : advanced) : Prop :=
  length (collapsed st) = length sections /\ (selected_idx st < length sections)%nat.

(** The scroll offset is a valid offset into the content of the selected
    section. *)
Definition scroll_in_range (max_lines : gmap string Z) (st : advanced) : Prop :=
  exists title section_id content_length,
    sections !! selected_idx st = Some (title, section_id)
    /\ max_lines !! section_id = Some content_length
    /\ 0 <= scroll_pos st <= Z.max 0 (content_length - 1).

(** Every section has a content length, and none is empty. *)
Definition all_nonempty (max_lines : gmap string Z) : Prop :=
  forall title section_id, In (title, section_id) sections ->
    exists content_length, max_lines !! section_id = Some content_length /\ 1 <= content_length.

(** The call that reads the link of one entry of a descriptor directory. *)
Definition readlink_call (fd_path : string) (entry : string * result string) : syscall :=
  Readlink (fd_path +:+ "/" +:+ entry.1).

(* ================================================================== *)
(** * Part I, continued. The rest of the program *)
(* ================================================================== *)

(** ** More Python strings *)

(** The piece that is being read gets one more character in front. *)
Definition cons_head (c : ascii) (pieces : list string) : list string :=
  match pieces with
  | piece :: pieces' => String c piece :: pieces'
  | [] => [String c EmptyString]
  end.

(** [s.split(sep)] for a separator of one character: the pieces between its
    occurrences, the empty ones included. *)
Fixpoint split_char (sep : ascii) (s : string) : list string :=
  match s with
  | EmptyString => [EmptyString]
  | String c s' =>
      if Ascii.eqb c sep then EmptyString :: split_char sep s'
      else cons_head c (split_char sep s')
  end.

(** [s.split(None, maxsplit)]: words are cut at runs of white space while
    [n] more words may be cut; what then starts with a character that is
    not white space is the last piece, to the end of the string.  [inword]
    tells that a word is being read, whose rest is the head of the result. *)
Fixpoint split_max_aux (s : string) (inword : bool) (n : nat) : list string :=
  match s with
  | EmptyString => if inword then [EmptyString] else []
  | String c s' =>
      if isspace c then
        if inword then EmptyString :: split_max_aux s' false n
        else split_max_aux s' false n
      else if inword then cons_head c (split_max_aux s' true n)
      else
        match n with
        | O => [s]
        | S n' => cons_head c (split_max_aux s' true n')
        end
  end.

Definition split_ws_max (s : string) (maxsplit : nat) : list string :=
  split_max_aux s false maxsplit.

(** [s.strip(ch)] for one character [ch]. *)
Fixpoint lstrip_char (ch : ascii) (s : string) : string :=
  match s with
  | EmptyString => EmptyString
  | String c s' => if Ascii.eqb c ch then lstrip_char ch s' else s
  end.

Fixpoint rstrip_char (ch : ascii) (s : string) : string :=
  match s with
  | EmptyString => EmptyString
  | String c s' =>
      match rstrip_char ch s' with
      | EmptyString => if Ascii.eqb c ch then EmptyString else String c EmptyString
      | r => String c r
      end
  end.

Definition strip_char (ch : ascii) (s : string) : string := rstrip_char ch (lstrip_char ch s).

(** [s.split(sep)] for a separator of several characters: [skip] counts the
    characters of a separator just found that are still to pass. *)
Fixpoint split_str_aux (sep s : string) (skip : nat) : list string :=
  match s with
  | EmptyString => [EmptyString]
  | String c s' =>
      match skip with
      | S k => split_str_aux sep s' k
      | O =>
          if startswith s sep
          then EmptyString :: split_str_aux sep s' (String.length sep - 1)
          else cons_head c (split_str_aux sep s' 0)
      end
  end.

Definition split_str (sep s : string) : list string := split_str_aux sep s 0.

(** [sep.join(pieces)]. *)
Fixpoint join (sep : string) (pieces : list string) : string :=
  match pieces with
  | [] => EmptyString
  | [piece] => piece
  | piece :: pieces' => piece +:+ sep +:+ join sep pieces'
  end.


(** ** Process directory reader: [get_all_processes] *)

(** The list being built and the messages printed. *)
Abbreviation lister := (list proc * list string)%type.

Definition print (msg : string) : M lister unit :=
  modify (fun s : lister => (s.1, s.2 ++ [msg])).

(** [processes.append(p)]. *)
Definition append_process (p : proc) : M lister unit :=
  modify (fun s : lister => (s.1 ++ [p], s.2)).

(** One line of [ps aux]: the second and the eleventh field. *)
Definition ps_line (line : string) : M lister unit :=
  let parts := split_ws_max line 10 in
  if (11 <=? length parts)%nat then
    pid ← lift (index parts 1);
    cmd ← lift (index parts 10);
    append_process (pid, cmd)
  else mret tt.

(** The separator of the fields of a CSV line of [tasklist]: quote, comma,
    quote. *)
Definition CSV_SEP : string := String QUOTE (String "," (String QUOTE EmptyString)).

(** One line of [tasklist /fo csv /nh]: the second and the first field. *)
Definition tasklist_line (line : string) : M lister unit :=
  let parts := split_str CSV_SEP (strip_char QUOTE (strip line)) in
  if (2 <=? length parts)%nat then
    pid ← lift (index parts 1);
    name ← lift (index parts 0);
    append_process (pid, name)
  else mret tt.

(** [get_all_processes()]: [system] is [platform.system()] and
    [check_output] what [subprocess.check_output] returns or raises for the
    listing command of that platform. *)
Definition get_all_processes_m (system : string) (check_output : result string)
  : M lister unit :=
  try_except
    (if String.eqb system "Linux" then
       output ← lift check_output;
       for_each (drop 1 (split_char NEWLINE (strip output))) ps_line
     else if String.eqb system "Windows" then
       output ← lift check_output;
       for_each (split_char NEWLINE (strip output)) tasklist_line
     else print ("Unsupported operating system: " +:+ system))
    any_exception
    (fun e => print ("Error getting process list: " +:+ str_of e)).

Definition get_all_processes (system : string) (check_output : result string)
  : result (list proc) :=
  match get_all_processes_m system check_output ([], []) with
  | (Ok _, s) => Ok s.1
  | (Raise e, _) => Raise e
  end.

(** The messages [get_all_processes] prints. *)
Definition get_all_processes_printed (system : string) (check_output : result string)
  : list string :=
  (get_all_processes_m system check_output ([], [])).2.2.

(** ** Predicates and formats used in the statements about the listing *)

(** The pair a line of [ps aux] gives, when it has eleven fields. *)
Definition ps_fields (line : string) : option proc :=
  let parts := split_ws_max line 10 in
  match parts !! 1%nat, parts !! 10%nat with
  | Some pid, Some cmd => Some (pid, cmd)
  | _, _ => None
  end.

(** The pair a CSV line of [tasklist] gives, when it has two fields. *)
Definition tasklist_fields (line : string) : option proc :=
  let parts := split_str CSV_SEP (strip_char QUOTE (strip line)) in
  match parts !! 1%nat, parts !! 0%nat with
  | Some pid, Some name => Some (pid, name)
  | _, _ => None
  end.

(** The characters of a string. *)
Definition chars (s : string) : list ascii := list_ascii_of_string s.

(** A word: not empty, no white space in it. *)
Definition is_word (s : string) : Prop :=
  s <> EmptyString /\ Forall (fun c => isspace c = false) (chars s).

(** A gap between two columns: not empty, white space only, no line break. *)
Definition is_gap (s : string) : Prop :=
  s <> EmptyString /\ Forall (fun c => isspace c = true /\ c <> NEWLINE) (chars s).

(** A text on one line that neither starts nor ends with white space and is
    not empty. *)
Definition is_trimmed_line (s : string) : Prop :=
  s <> EmptyString /\ lstrip s = s /\ rstrip s = s /\ ~ In NEWLINE (chars s).

(** A line of a column listing: each cell is a word followed by a gap, and
    the command comes last. *)
Definition ps_format (cells : list (string * string)) (cmd : string) : string :=
  foldr (fun cell rest => cell.1 +:+ cell.2 +:+ rest) cmd cells.

(** A row that [ps aux] can print: ten cells before the command. *)
Definition is_ps_row (row : list (string * string) * string) : Prop :=
  length row.1 = 10%nat
  /\ Forall (fun cell => is_word cell.1 /\ is_gap cell.2) row.1
  /\ is_trimmed_line row.2.

(** The shape of what [s.split(None, n)] returns: words, of which there are
    at most [n], and then at most one last piece, which starts with a
    character that is not white space. *)
Fixpoint split_shape (n : nat) (pieces : list string) {struct pieces} : Prop :=
  match pieces with
  | [] => True
  | piece :: pieces' =>
      match n with
      | O => pieces' = [] /\ exists c r, piece = String c r /\ isspace c = false
      | S n' => is_word piece /\ split_shape n' pieces'
      end
  end.


(** The pair that belongs to a row: the word of its second cell, and its
    command. *)
Definition ps_row_pair (row : list (string * string) * string) : proc :=
  (nth 1 (fst <$> row.1) EmptyString, row.2).

(** The text of a listing: a header line, then one line per row, then
    whatever white space ends the output. *)
Definition ps_output (header : string) (rows : list (list (string * string) * string))
    (trailing : string) : string :=
  join (String NEWLINE EmptyString)
       (header :: ((fun row => ps_format row.1 row.2) <$> rows)) +:+ trailing.

(** A CSV line as [tasklist /fo csv] writes it: every field in quotes. *)
Definition csv_line (fields : list string) : string :=
  String QUOTE (join CSV_SEP fields +:+ String QUOTE EmptyString).

(** Fields that can be written so: none holds a quote or a line break, and
    the first and the last are not empty. *)
Definition is_csv_row (fields : list string) : Prop :=
  Forall (fun field => ~ In QUOTE (chars field) /\ ~ In NEWLINE (chars field)) fields
  /\ (exists name pid others, fields = name :: pid :: others)
  /\ head fields <> Some EmptyString /\ last fields <> Some EmptyString.


(** The pair that belongs to the fields of a CSV line: the second field and
    the first. *)
Definition csv_row_pair (fields : list string) : proc :=
  (nth 1 fields EmptyString, nth 0 fields EmptyString).

(** The text of a CSV listing: one line per row, then whatever white space
    ends the output. *)
Definition tasklist_output (rows : list (list string)) (trailing : string) : string :=
  join (String NEWLINE EmptyString) (csv_line <$> rows) +:+ trailing.


(** A row as [ps aux] prints it, for the examples. *)
Definition sample_ps_row : list (string * string) * string :=
  ([("root", "         "); ("1", "  "); ("0.0", "  "); ("0.1", " "); ("167584", " ");
    ("11820", " "); ("?", "        "); ("Ss", "   "); ("09:12", "   "); ("0:01", " ")],
   "/sbin/init splash").


(** ** Process selector: the loop of [show_process_selector] *)

Definition KEY_LEFT : Z := 260.
Definition KEY_RIGHT : Z := 261.
Definition KEY_BACKSPACE : Z := 263.

(** [a // b] on integers. *)
Definition floordiv (a b : Z) : result Z :=
  if b =? 0 then Raise (Exn ZeroDivisionError "integer division or modulo by zero")
  else Ok (a / b).

(** The variables of the selector that the loop changes; [selected] is its
    [selected_idx]. *)
Record selector := {
  page : Z;
  selected : Z;
  filtered_processes : list proc;
  search_term : option string
}.

(** What the search prompt gets inside its own [try]: a curses call raises
    [curses.error] before the next key is read, or a key is read; [echoed]
    tells whether the calls that redraw the input, when the key makes any,
    return. *)
Inductive prompt_input :=
  | PromptError
  | PromptKey (ch : Z) (echoed : bool).

(** [search_buf[:-1]]. *)
Fixpoint drop_last (s : string) : string :=
  match s with
  | EmptyString => EmptyString
  | String c s' =>
      match s' with
      | EmptyString => EmptyString
      | String _ _ => String c (drop_last s')
      end
  end.

(** The inner loop that reads the search term, with the [except
    curses.error: pass] around it: the buffer it ends with, or [None] when it
    is still waiting for a key. *)
Fixpoint search_prompt (w : Z) (search_buf : string) (inputs : list prompt_input)
  : option string :=
  match inputs with
  | [] => None
  | PromptError :: _ => Some search_buf
  | PromptKey ch echoed :: inputs' =>
      if key_in ch [10; 13] then Some search_buf
      else if ch =? 27 then Some EmptyString
      else if (ch =? KEY_BACKSPACE) || key_in ch [8; 127] then
        if negb (String.eqb search_buf "") then
          if echoed then search_prompt w (drop_last search_buf) inputs'
          else Some (drop_last search_buf)
        else search_prompt w search_buf inputs'
      else if (32 <=? ch) && (ch <=? 126) then
        if Z.of_nat (String.length search_buf) <? w - 10 then
          if echoed then search_prompt w (search_buf +:+ String (chr ch) EmptyString) inputs'
          else Some (search_buf +:+ String (chr ch) EmptyString)
        else search_prompt w search_buf inputs'
      else search_prompt w search_buf inputs'
  end.

(** What the selector gets in one turn of its loop: [stdscr.clear()] raises
    [curses.error]; or a later drawing call, or [getch], raises it; or a key
    is read while the window is [w] columns wide.  When the key opens the
    search prompt, [prompt] is what the prompt gets, and [restored] tells
    whether [curses.noecho()] and [curses.curs_set(0)] return after it.
    The two calls of the handler of [curses.error] are taken to return. *)
Inductive selector_input :=
  | ClearError
  | PaintError
  | Pressed (key : Z) (w : Z) (prompt : list prompt_input) (restored : bool).

(** Where the selector is after a turn. *)
Inductive selecting :=
  | Browsing (st : selector)        (* the loop goes on *)
  | Prompting                       (* the search prompt waits for a key *)
  | Selected (r : option proc).     (* the function has returned [r] *)

Definition selector_start (processes : list proc) : selector :=
  {| page := 0; selected := 0; filtered_processes := processes; search_term := None |}.

(** One turn of the loop.  [total_pages] is computed before anything is
    drawn; a [ZeroDivisionError] is not a [curses.error] and leaves the
    function.  After it [page_size] is known not to be 0, and the later
    divisions are written with [/]. *)
Definition selector_turn (processes : list proc) (page_size : Z) (st : selector)
    (i : selector_input) : result selecting :=
  let len := Z.of_nat (length (filtered_processes st)) in
  match i with
  | ClearError => Ok (Browsing st)
  | PaintError =>
      match floordiv (len + page_size - 1) page_size with
      | Raise e => Raise e
      | Ok _ => Ok (Browsing st)
      end
  | Pressed key w prompt restored =>
      match floordiv (len + page_size - 1) page_size with
      | Raise e => Raise e
      | Ok _ =>
          if key_in key [KEY_UP; ord "k"] then
            if 0 <? selected st then
              Ok (Browsing {| page := page st; selected := selected st - 1;
                              filtered_processes := filtered_processes st;
                              search_term := search_term st |})
            else if 0 <? page st then
              Ok (Browsing {| page := page st - 1; selected := page_size - 1;
                              filtered_processes := filtered_processes st;
                              search_term := search_term st |})
            else Ok (Browsing st)
          else if key_in key [KEY_DOWN; ord "j"] then
            let max_idx := Z.min (page_size - 1) (len - page st * page_size - 1) in
            if selected st <? max_idx then
              Ok (Browsing {| page := page st; selected := selected st + 1;
                              filtered_processes := filtered_processes st;
                              search_term := search_term st |})
            else if page st <? (len - 1) / page_size then
              Ok (Browsing {| page := page st + 1; selected := 0;
                              filtered_processes := filtered_processes st;
                              search_term := search_term st |})
            else Ok (Browsing st)
          else if key_in key [KEY_LEFT; ord "h"] && (0 <? page st) then
            Ok (Browsing {| page := page st - 1; selected := 0;
                            filtered_processes := filtered_processes st;
                            search_term := search_term st |})
          else if key_in key [KEY_RIGHT; ord "l"] && (page st <? (len - 1) / page_size) then
            Ok (Browsing {| page := page st + 1; selected := 0;
                            filtered_processes := filtered_processes st;
                            search_term := search_term st |})
          else if key_in key [ord "/"; ord "f"] then
            match search_prompt w EmptyString prompt with
            | None => Ok Prompting
            | Some search_buf =>
                if restored then
                  let term := strip search_buf in
                  if negb (String.eqb term "") then
                    Ok (Browsing {| page := 0; selected := 0;
                                    filtered_processes := search_processes processes term;
                                    search_term := Some term |})
                  else
                    Ok (Browsing {| page := 0; selected := 0;
                                    filtered_processes := processes;
                                    search_term := None |})
                else Ok (Browsing st)
            end
          else if key_in key [ord "q"; 27] then Ok (Selected None)
          else if key_in key [KEY_ENTER; 10; 13] then
            let idx := page st * page_size + selected st in
            if negb (Nat.eqb (length (filtered_processes st)) 0) && (0 <=? idx) && (idx <? len)
            then
              match index (filtered_processes st) (Z.to_nat idx) with
              | Ok p => Ok (Selected (Some p))
              | Raise e => Raise e
              end
            else Ok (Browsing st)
          else Ok (Browsing st)
      end
  end.

(** The loop from a state over the inputs given: where the selector is when
    they run out. *)
Fixpoint selector_loop (processes : list proc) (page_size : Z) (st : selector)
    (inputs : list selector_input) : result selecting :=
  match inputs with
  | [] => Ok (Browsing st)
  | i :: inputs' =>
      match selector_turn processes page_size st i with
      | Ok (Browsing st') => selector_loop processes page_size st' inputs'
      | r => r
      end
  end.

(** [show_process_selector(processes)] on a terminal of [LINES] lines. *)
Definition show_process_selector (LINES : Z) (processes : list proc)
    (inputs : list selector_input) : result selecting :=
  let page_size := Z.min 20 (LINES - 5) in
  selector_loop processes page_size (selector_start processes) inputs.

(** *** Predicates used in the statements about the selector *)

(** The highlighted row exists, or the list is empty and the selector is at
    its first row; the list shown is the one the search term gives. *)
Definition selector_ok (processes : list proc) (page_size : Z) (st : selector) : Prop :=
  0 <= page st
  /\ 0 <= selected st < page_size
  /\ (filtered_processes st = [] /\ page st = 0 /\ selected st = 0
      \/ page st * page_size + selected st < Z.of_nat (length (filtered_processes st)))
  /\ (search_term st = None /\ filtered_processes st = processes
      \/ exists term, search_term st = Some term /\ term <> EmptyString
                      /\ strip term = term
                      /\ filtered_processes st = search_processes processes term).

(** A key of the prompt that is a printable character, echoed. *)
Definition is_printable (c : ascii) : Prop := 32 <= ord c <= 126.

(** Typing a text into the prompt, every key echoed. *)
Definition typing (text : string) : list prompt_input :=
  (fun c => PromptKey (ord c) true) <$> chars text.

(** A key of the prompt after which the prompt goes on reading. *)
Definition prompt_goes_on (i : prompt_input) : Prop :=
  match i with
  | PromptError => False
  | PromptKey ch echoed => echoed = true /\ ch <> 10 /\ ch <> 13 /\ ch <> 27
  end.


(** ** Process details screen: the loop of [show_process_details] *)

(** The sections of the screen with the fields each one shows. *)
Definition details_sections : list (string * list string) :=
  [("General Info", ["Name"; "State"; "Tgid"; "Pid"; "PPid"; "Uid"; "Gid"]);
   ("Memory Usage", ["VmSize"; "VmRSS"; "VmSwap"; "memory"]);
   ("CPU Usage", ["cpu"; "uptime"]);
   ("Command Line", ["cmdline"]);
   ("File Descriptors", ["fd_count"; "fd_details"]);
   ("I/O Statistics", ["io"]);
   ("Threads", ["Threads"])].

Definition details_menu : list string :=
  ["Refresh information"; "Monitor stdout (using strace)";
   "Advanced info (memory maps, open files, etc)"; "Return to main menu"].

(** [mode]: "sections" or "menu". *)
Inductive details_mode :=
  | InSections
  | InMenu.

(** What the screen calls from its menu. *)
Inductive details_call :=
  | CallGetProcInfo            (* get_proc_info(pid) *)
  | CallMonitor                (* monitor_io_streams(pid) *)
  | CallAdvanced.              (* show_advanced_info_tui(pid) *)

(** The variables of the screen that the loop changes, and [called], the
    calls made from the menu so far, which is not a variable of the program. *)
Record details := {
  details_collapsed : list bool;
  selected_section : nat;
  selected_menu : nat;
  mode : details_mode;
  proc_info : gmap string value;
  called : list details_call
}.

(** What the screen gets in one turn of its loop: the drawing raises
    [curses.error], or something else, before a key is read; or a key is
    read.  With the key come the answers of what the key may start: [now],
    the host as [get_proc_info] finds it; [endwin], whether
    [curses.endwin()] returns; [sub], how the monitor or the advanced screen
    ends.  The calls of the handler of [curses.error], and [stdscr.refresh()]
    and [curses.curs_set(0)] after the monitor, whose [curses.error] that
    handler catches, change no variable. *)
Inductive details_input :=
  | DetailsDrawError
  | DetailsDrawRaises (r : raised)
  | DetailsKey (key : Z) (now : host) (endwin : bool) (sub : outcome unit).

Definition details_start (info : gmap string value) : details :=
  {| details_collapsed := replicate (length details_sections) false;
     selected_section := 0; selected_menu := 0; mode := InSections;
     proc_info := info; called := [] |}.

(** One turn of the loop. *)
Definition details_turn (pid : string) (st : details) (i : details_input)
  : outcome (turn details) :=
  match i with
  | DetailsDrawError => Returns (Continue st)
  | DetailsDrawRaises r => Raises r
  | DetailsKey key now endwin sub =>
      match mode st with
      | InSections =>
          if key_in key [KEY_UP; ord "k"] then
            if (0 <? selected_section st)%nat
            then Returns (Continue {| details_collapsed := details_collapsed st;
                                      selected_section := selected_section st - 1;
                                      selected_menu := selected_menu st;
                                      mode := mode st; proc_info := proc_info st;
                                      called := called st |})
            else Returns (Continue st)
          else if key_in key [KEY_DOWN; ord "j"] then
            if (selected_section st <? length details_sections - 1)%nat
            then Returns (Continue {| details_collapsed := details_collapsed st;
                                      selected_section := selected_section st + 1;
                                      selected_menu := selected_menu st;
                                      mode := mode st; proc_info := proc_info st;
                                      called := called st |})
            else Returns (Continue st)
          else if key_in key [KEY_RIGHT; ord "l"] then
            Returns (Continue {| details_collapsed := details_collapsed st;
                                 selected_section := selected_section st;
                                 selected_menu := selected_menu st;
                                 mode := InMenu; proc_info := proc_info st;
                                 called := called st |})
          else if key_in key [KEY_ENTER; 10; 13; ord " "] then
            match index (details_collapsed st) (selected_section st) with
            | Ok c =>
                Returns (Continue {| details_collapsed :=
                                       <[selected_section st := negb c]> (details_collapsed st);
                                     selected_section := selected_section st;
                                     selected_menu := selected_menu st;
                                     mode := mode st; proc_info := proc_info st;
                                     called := called st |})
            | Raise e => Raises (Exc e)
            end
          else if key_in key [ord "q"; 27] then Returns (Leave None)
          else Returns (Continue st)
      | InMenu =>
          if key_in key [KEY_UP; ord "k"] then
            if (0 <? selected_menu st)%nat
            then Returns (Continue {| details_collapsed := details_collapsed st;
                                      selected_section := selected_section st;
                                      selected_menu := selected_menu st - 1;
                                      mode := mode st; proc_info := proc_info st;
                                      called := called st |})
            else Returns (Continue st)
          else if key_in key [KEY_DOWN; ord "j"] then
            if (selected_menu st <? length details_menu - 1)%nat
            then Returns (Continue {| details_collapsed := details_collapsed st;
                                      selected_section := selected_section st;
                                      selected_menu := selected_menu st + 1;
                                      mode := mode st; proc_info := proc_info st;
                                      called := called st |})
            else Returns (Continue st)
          else if key_in key [KEY_LEFT; ord "h"] then
            Returns (Continue {| details_collapsed := details_collapsed st;
                                 selected_section := selected_section st;
                                 selected_menu := selected_menu st;
                                 mode := InSections; proc_info := proc_info st;
                                 called := called st |})
          else if key_in key [KEY_ENTER; 10; 13; ord " "] then
            if (selected_menu st =? 0)%nat then
              match get_proc_info now pid with
              | Ok info =>
                  Returns (Continue {| details_collapsed := details_collapsed st;
                                       selected_section := selected_section st;
                                       selected_menu := selected_menu st;
                                       mode := mode st; proc_info := info;
                                       called := called st ++ [CallGetProcInfo] |})
              | Raise e => Raises (Exc e)
              end
            else if (selected_menu st =? 1)%nat then
              if endwin then
                match sub with
                | Returns _ =>
                    Returns (Continue {| details_collapsed := details_collapsed st;
                                         selected_section := selected_section st;
                                         selected_menu := selected_menu st;
                                         mode := mode st; proc_info := proc_info st;
                                         called := called st ++ [CallMonitor] |})
                | Raises r => Raises r
                end
              else Returns (Continue st)
            else if (selected_menu st =? 2)%nat then
              match sub with
              | Returns _ =>
                  Returns (Continue {| details_collapsed := details_collapsed st;
                                       selected_section := selected_section st;
                                       selected_menu := selected_menu st;
                                       mode := mode st; proc_info := proc_info st;
                                       called := called st ++ [CallAdvanced] |})
              | Raises r => Raises r
              end
            else if (selected_menu st =? 3)%nat then Returns (Leave None)
            else Returns (Continue st)
          else if key_in key [ord "q"; 27] then Returns (Leave None)
          else Returns (Continue st)
      end
  end.

(** The loop from a state over the inputs given. *)
Fixpoint details_loop (pid : string) (st : details) (inputs : list details_input)
  : outcome (turn details) :=
  match inputs with
  | [] => Returns (Continue st)
  | i :: inputs' =>
      match details_turn pid st i with
      | Returns (Continue st') => details_loop pid st' inputs'
      | r => r
      end
  end.

(** [show_process_details(pid, cmd)] on a host.  When the snapshot has the
    field [error] the message is shown and the function returns, without a
    turn of the loop; [stdscr.clear()], which is outside the [try] there, is
    taken to return. *)
Definition show_process_details (h : host) (pid : string) (inputs : list details_input)
  : outcome (turn details) :=
  match get_proc_info h pid with
  | Raise e => Raises (Exc e)
  | Ok info =>
      match info !! "error" with
      | Some _ => Returns (Leave None)
      | None => details_loop pid (details_start info) inputs
      end
  end.

(** *** Predicates used in the statements about the details screen *)

(** The fields the screen can show, section by section. *)
Definition details_fields : list string := concat (snd <$> details_sections).

(** One collapse flag per section, and the two selections on an entry. *)
Definition details_wf (st : details) : Prop :=
  length (details_collapsed st) = length details_sections
  /\ (selected_section st < length details_sections)%nat
  /\ (selected_menu st < length details_menu)%nat.

(** An input that switches to the menu. *)
Definition opens_menu (i : details_input) : Prop :=
  match i with
  | DetailsKey key _ _ _ => key_in key [KEY_RIGHT; ord "l"] = true
  | _ => False
  end.

(** An input with which something outside the key loop raises [r]: the
    drawing, or the monitor or the advanced screen. *)
Definition raises_outside (r : raised) (i : details_input) : Prop :=
  match i with
  | DetailsDrawRaises r' => r' = r
  | DetailsKey _ _ _ (Raises r') => r' = r
  | _ => False
  end.


(** The state the screen is in after the inputs, for the examples. *)
Definition details_after (h : host) (pid : string) (inputs : list details_input) : details :=
  match show_process_details h pid inputs with
  | Returns (Continue st) => st
  | _ => details_start ∅
  end.

(* ================================================================== *)
(** * Part II. Properties *)
(* ================================================================== *)

(** ** Strings *)

Lemma startswith_spec s p :
  startswith s p = true <-> exists suf, s = p +:+ suf.
Proof.
  revert s. induction p as [|a p IH]; intros s; simpl.
  - split; [intros _; exists s; reflexivity | reflexivity].
  - destruct s as [|b s]; simpl.
    + split; [discriminate | intros [suf H]; discriminate].
    + rewrite andb_true_iff, Ascii.eqb_eq, IH. split.
      * intros [-> [suf ->]]. exists suf. reflexivity.
      * intros [suf H]. injection H as -> ->. split; [reflexivity | eauto].
Qed.

(** [str_in] is the substring test. *)
Lemma str_in_spec sub s :
  str_in sub s = true <-> exists pre suf, s = pre +:+ sub +:+ suf.
Proof.
  induction s as [|c s IH]; simpl.
  - rewrite orb_false_r, startswith_spec. split.
    + intros [suf H]. exists "", suf. exact H.
    + intros [pre [suf H]]. destruct pre; [exists suf; exact H | discriminate].
  - rewrite orb_true_iff, startswith_spec, IH. split.
    + intros [[suf H] | [pre [suf H]]].
      * exists "", suf. exact H.
      * exists (String c pre), suf. simpl. now rewrite H.
    + intros [pre [suf H]]. destruct pre as [|c' pre]; simpl in H.
      * left. exists suf. exact H.
      * right. injection H as _ H. exists pre, suf. exact H.
Qed.

Lemma str_in_empty s : str_in "" s = true.
Proof. destruct s; reflexivity. Qed.

(** ** [search_processes] *)

Lemma search_processes_filter P t :
  search_processes P t = List.filter (matches t) P.
Proof. reflexivity. Qed.

Lemma filter_filter_same {A} (f : A -> bool) (l : list A) :
  List.filter f (List.filter f l) = List.filter f l.
Proof.
  induction l as [|x l IH]; simpl; [reflexivity|].
  destruct (f x) eqn:Hx; simpl; [rewrite Hx; f_equal|]; exact IH.
Qed.

Lemma filter_sublist {A} (f : A -> bool) (l : list A) :
  sublist (List.filter f l) l.
Proof.
  induction l as [|x l IH]; simpl; [constructor|].
  destruct (f x); [apply sublist_skip | apply sublist_cons]; exact IH.
Qed.

Lemma filter_all_true {A} (f : A -> bool) (l : list A) :
  (forall x, f x = true) -> List.filter f l = l.
Proof.
  intros Hf. induction l as [|x l IH]; simpl; [reflexivity|].
  rewrite Hf. f_equal. exact IH.
Qed.

(** The call on list objects: the result is a fresh object holding the
    filtered list, and every object that existed before still holds what it
    held. *)
Lemma search_processes_obj_fresh (h : heap) (a : nat) (P : list proc) (t : string) :
  h !! a = Some P ->
  exists h' r,
    search_processes_obj h a t = Some (h', r)
    /\ r ≠ a
    /\ h !! r = None
    /\ h' !! r = Some (search_processes P t)
    /\ (forall b old, h !! b = Some old -> h' !! b = Some old).
Proof.
  intros Ha. exists (h ++ [search_processes P t]), (length h).
  split; [unfold search_processes_obj; now rewrite Ha|]. split.
  - apply lookup_lt_Some in Ha. lia.
  - split; [apply lookup_ge_None; lia|]. split.
    + rewrite lookup_app_r by lia. now rewrite Nat.sub_diag.
    + intros b old Hb. now apply lookup_app_l_Some.
Qed.

(** C7. For every list [P] of (pid, command) pairs and every term [t]:
    [search_processes] is idempotent; the elements of the result are exactly
    the elements of [P] whose lower-cased pid or lower-cased command contains
    the lower-cased term as a substring: every element of the result is such
    an element, and every such element of [P] is in the result.  The result
    is [P] filtered: it keeps the order of [P], a list of one pair gives that
    pair or nothing, and the search of two lists one after the other is the
    two searches one after the other, so a pair is kept as many times as it
    is in [P].  On list objects the result is a new object while [P] and
    every other object are left as they were. *)
Theorem search_processes_idempotent_subset (P : list proc) (t : string) :
  search_processes (search_processes P t) t = search_processes P t
  /\ (forall p, In p (search_processes P t) <->
        In p P
        /\ ((exists pre suf, lower p.1 = pre +:+ lower t +:+ suf)
            \/ (exists pre suf, lower p.2 = pre +:+ lower t +:+ suf)))
  /\ sublist (search_processes P t) P
  /\ (forall P1 P2, P = P1 ++ P2 ->
        search_processes P t = search_processes P1 t ++ search_processes P2 t)
  /\ (forall p, P = [p] ->
        ((exists pre suf, lower p.1 = pre +:+ lower t +:+ suf)
         \/ (exists pre suf, lower p.2 = pre +:+ lower t +:+ suf) ->
         search_processes P t = [p])
        /\ (~ ((exists pre suf, lower p.1 = pre +:+ lower t +:+ suf)
               \/ (exists pre suf, lower p.2 = pre +:+ lower t +:+ suf)) ->
            search_processes P t = []))
  /\ (forall (h : heap) (a : nat), h !! a = Some P ->
        exists h' r,
          search_processes_obj h a t = Some (h', r)
          /\ r ≠ a
          /\ h' !! r = Some (search_processes P t)
          /\ h' !! a = Some P
          /\ (forall b old, h !! b = Some old -> h' !! b = Some old)).
Proof.
  rewrite !search_processes_filter. split; [apply filter_filter_same|].
  split.
  { intros p. rewrite filter_In. unfold matches.
    rewrite orb_true_iff, !str_in_spec. reflexivity. }
  split; [apply filter_sublist|].
  split.
  { intros P1 P2 ->. rewrite !search_processes_filter. apply List.filter_app. }
  split.
  { intros p ->. rewrite <- !str_in_spec, <- orb_true_iff. fold (matches t p).
    simpl. destruct (matches t p); split; intros H; congruence. }
  intros h a Ha.
  destruct (search_processes_obj_fresh h a P t Ha) as (h' & r & H1 & H2 & _ & H4 & H5).
  exists h', r. repeat split; auto.
Qed.

(** C10. For every list [P], searching with the empty term returns a list
    equal to [P]; on list objects it is a new object equal to [P], and [P]
    itself is left as it was. *)
Theorem search_processes_empty_term (P : list proc) :
  search_processes P "" = P
  /\ (forall (h : heap) (a : nat), h !! a = Some P ->
        exists h' r,
          search_processes_obj h a "" = Some (h', r)
          /\ r ≠ a
          /\ h' !! r = Some P
          /\ h' !! a = Some P).
Proof.
  assert (E : search_processes P "" = P).
  { rewrite search_processes_filter. apply filter_all_true.
    intros p. unfold matches. simpl. now rewrite str_in_empty. }
  split; [exact E|].
  intros h a Ha.
  destruct (search_processes_obj_fresh h a P "" Ha) as (h' & r & H1 & H2 & _ & H4 & H5).
  exists h', r. rewrite E in H4. repeat split; auto.
Qed.

Example search_processes_example :
  search_processes [("101", "/usr/bin/Python3 app.py"); ("2210", "bash"); ("7", "sshd: PYTHON")]
                   "pYtHoN"
  = [("101", "/usr/bin/Python3 app.py"); ("7", "sshd: PYTHON")].
Proof. reflexivity. Qed.

Example search_processes_by_pid :
  search_processes [("101", "init"); ("2210", "bash"); ("7", "sshd")] "10"
  = [("101", "init"); ("2210", "bash")].
Proof. reflexivity. Qed.

(** ** Main menu *)

(** From the first item the selection only ever reaches the two items of
    the menu. *)
Lemma show_main_menu_turn_range (selected_idx : nat) (i : menu_input) (selected_idx' : nat) :
  (selected_idx < length menu_items)%nat ->
  show_main_menu_turn selected_idx i = Continue selected_idx' ->
  (selected_idx' < length menu_items)%nat.
Proof.
  intros Hlt. unfold show_main_menu_turn. simpl length in *.
  destruct i as [|key]; [intros [= <-]; exact Hlt|].
  repeat match goal with
         | |- context [if ?b then _ else _] => destruct b eqn:?
         end; intros [= <-]; try exact Hlt;
    repeat match goal with
           | H : _ && _ = true |- _ => apply andb_true_iff in H; destruct H
           | H : (_ <? _)%nat = true |- _ => apply Nat.ltb_lt in H
           end; lia.
Qed.

(** The loop returns only on [q] or ESC: whatever Enter is pressed on, it
    goes on. *)
Lemma show_main_menu_from_no_quit (inputs : list menu_input) (selected_idx : nat) :
  (selected_idx < length menu_items)%nat ->
  Forall (fun i => i <> Key (ord "q") /\ i <> Key 27) inputs ->
  show_main_menu_from selected_idx inputs = None.
Proof.
  revert selected_idx. induction inputs as [|i inputs IH]; intros idx Hidx Hq; [reflexivity|].
  inversion Hq as [|? ? [Hq1 Hq2] Hq']; subst. simpl.
  destruct (show_main_menu_turn idx i) as [idx'|r] eqn:Ht.
  - apply IH; [eapply show_main_menu_turn_range; eassumption | exact Hq'].
  - exfalso. unfold show_main_menu_turn in Ht. simpl length in Hidx.
    destruct i as [|key]; [discriminate|].
    destruct (key_in key [KEY_UP; ord "k"] && _); [discriminate|].
    destruct (key_in key [KEY_DOWN; ord "j"] && _); [discriminate|].
    destruct (key_in key [KEY_ENTER; 10; 13]).
    + destruct (idx =? 0)%nat; [discriminate|].
      destruct (idx =? 2)%nat eqn:E2; [|discriminate].
      apply Nat.eqb_eq in E2. lia.
    + destruct (key_in key [ord "q"; 27]) eqn:E; [|discriminate].
      unfold key_in in E. simpl in E.
      rewrite orb_false_r in E. apply orb_true_iff in E.
      destruct E as [E|E]; apply Z.eqb_eq in E; subst key; [apply Hq1 | apply Hq2]; reflexivity.
Qed.

(** C1. The second item of the menu is "Exit".  With the selection on it,
    Enter (key code 10, 13 or [KEY_ENTER]) leaves the selection where it is
    and the loop goes on: moving down to "Exit" and pressing Enter does not
    return, however often Enter is pressed. *)
Theorem show_main_menu_enter_on_exit_goes_on :
  menu_items !! 1%nat = Some "Exit"
  /\ show_main_menu_turn 1 (Key 10) = Continue 1%nat
  /\ show_main_menu_turn 1 (Key 13) = Continue 1%nat
  /\ show_main_menu_turn 1 (Key KEY_ENTER) = Continue 1%nat
  /\ show_main_menu [Key KEY_DOWN; Key 10] = None
  /\ show_main_menu [Key KEY_DOWN; Key 10; Key 13; Key KEY_ENTER; Key 10] = None
  /\ show_main_menu [Key KEY_DOWN; Key 10; Key (ord "q")] = Some "exit".
Proof. repeat split. Qed.

(** ** Advanced info screen *)

Lemma index_Ok {A} (l : list A) (i : nat) :
  (i < length l)%nat -> exists x, index l i = Ok x /\ l !! i = Some x.
Proof.
  intros Hi. unfold index. destruct (l !! i) as [x|] eqn:E; [eauto|].
  apply lookup_ge_None in E. lia.
Qed.

(** When no section is empty, every key keeps the state well formed and the
    scroll offset in range. *)
Lemma advanced_key_keeps_range (max_lines : gmap string Z) (st st' : advanced) (key : Z) :
  all_nonempty max_lines ->
  advanced_wf st ->
  scroll_in_range max_lines st ->
  advanced_key max_lines st key = Ok (Continue st') ->
  advanced_wf st' /\ scroll_in_range max_lines st'.
Proof.
  intros Hne [Hlen Hsel] Hr.
  assert (Hsec : forall i, (i < length sections)%nat ->
            exists title id n, sections !! i = Some (title, id)
                               /\ max_lines !! id = Some n /\ 1 <= n).
  { intros i Hi. destruct (index_Ok sections i Hi) as [[title id] [_ E]].
    destruct (Hne title id) as [n [Hn Hn1]].
    - apply list_elem_of_In. eapply list_elem_of_lookup_2. exact E.
    - exists title, id, n. auto. }
  assert (Hzero : forall c i, length c = length sections -> (i < length sections)%nat ->
            advanced_wf {| collapsed := c; selected_idx := i; scroll_pos := 0 |}
            /\ scroll_in_range max_lines {| collapsed := c; selected_idx := i; scroll_pos := 0 |}).
  { intros c i Hc Hi. split; [split; assumption|].
    destruct (Hsec i Hi) as (title & id & n & E1 & E2 & E3).
    exists title, id, n. simpl. repeat split; auto; lia. }
  destruct (index_Ok (collapsed st) (selected_idx st)) as [c [Ec _]]; [lia|].
  unfold advanced_key. rewrite Ec.
  destruct (key_in key [ord "q"; 27]); [discriminate|].
  destruct (key_in key [KEY_UP; ord "k"]).
  { destruct (0 <? selected_idx st)%nat; intros [= <-].
    - apply Hzero; [exact Hlen | lia].
    - split; [split|]; assumption. }
  destruct (key_in key [KEY_DOWN; ord "j"]).
  { destruct (selected_idx st <? length sections - 1)%nat eqn:E; intros [= <-].
    - apply Nat.ltb_lt in E. apply Hzero; [exact Hlen | lia].
    - split; [split|]; assumption. }
  destruct (key_in key [KEY_ENTER; 10; 13; ord " "]).
  { intros [= <-]. apply Hzero; [now rewrite length_insert | exact Hsel]. }
  destruct (key =? KEY_NPAGE).
  { destruct c; simpl; [intros [= <-]; split; [split|]; assumption|].
    destruct Hr as (title & id & n & E1 & E2 & E3).
    destruct (Hsec _ Hsel) as (title' & id' & n' & E1' & E2' & E3').
    rewrite E1 in E1'. injection E1' as <- <-. rewrite E2 in E2'. injection E2' as <-.
    unfold index. rewrite E1, E2. intros [= <-]. split; [split; assumption|].
    exists title, id, n. simpl. repeat split; auto; lia. }
  destruct (key =? KEY_PPAGE).
  { destruct c; simpl; intros [= <-]; (split; [split; assumption|]); [assumption|].
    destruct Hr as (title & id & n & E1 & E2 & E3).
    exists title, id, n. simpl. repeat split; auto; lia. }
  intros [= <-]. split; [split|]; assumption.
Qed.

(** Every change of selection and every collapse toggle puts the scroll
    offset back to zero. *)
Lemma advanced_key_resets_scroll (max_lines : gmap string Z) (st st' : advanced) (key : Z) :
  advanced_key max_lines st key = Ok (Continue st') ->
  selected_idx st' <> selected_idx st \/ collapsed st' <> collapsed st ->
  scroll_pos st' = 0.
Proof.
  unfold advanced_key.
  destruct (key_in key [ord "q"; 27]); [discriminate|].
  destruct (key_in key [KEY_UP; ord "k"]).
  { destruct (0 <? selected_idx st)%nat; intros [= <-]; [reflexivity | tauto]. }
  destruct (key_in key [KEY_DOWN; ord "j"]).
  { destruct (selected_idx st <? length sections - 1)%nat; intros [= <-]; [reflexivity | tauto]. }
  destruct (key_in key [KEY_ENTER; 10; 13; ord " "]).
  { destruct (index (collapsed st) (selected_idx st)); [|discriminate]. now intros [= <-]. }
  destruct (key =? KEY_NPAGE).
  { destruct (index (collapsed st) (selected_idx st)) as [c|]; [|discriminate].
    destruct c; simpl; [intros [= <-]; tauto|].
    destruct (index sections (selected_idx st)) as [[? id]|]; [|discriminate].
    destruct (max_lines !! id); [|discriminate]. intros [= <-]. simpl. tauto. }
  destruct (key =? KEY_PPAGE).
  { destruct (index (collapsed st) (selected_idx st)) as [c|]; [|discriminate].
    destruct c; simpl; intros [= <-]; simpl; tauto. }
  intros [= <-]. tauto.
Qed.

(** C4. For a process whose memory map is there and empty, the content of
    the first section is the empty list; the screen opens with that section
    selected and expanded, and one Page Down sets the scroll offset to
    [min(0 + 5, 0 - 1) = -1], below the valid range [0 .. max(0, 0 - 1)]. *)
Theorem advanced_page_down_on_empty_section :
  get_section_content kernel_thread "/proc/2" "maps" = Ok []
  /\ show_advanced_info_tui kernel_thread "2" [KEY_NPAGE]
     = Ok (Continue {| collapsed := [false; false; false; false; false];
                       selected_idx := 0;
                       scroll_pos := -1 |}).
Proof. split; vm_compute; reflexivity. Qed.

(** ** The monad *)

Ltac run :=
  unfold mbind, M_bind, mret, M_ret, call, os_path_exists, open_read, try_except,
    lift, update, modify, any_exception in *; simpl in *.

Lemma bind_Ok {S A B} (m : M S A) (f : A -> M S B) (s s' : S) (a : A) :
  m s = (Ok a, s') -> (m ≫= f) s = f a s'.
Proof. intros E. unfold mbind, M_bind. now rewrite E. Qed.

Lemma bind_Raise {S A B} (m : M S A) (f : A -> M S B) (s s' : S) (e : exn) :
  m s = (Raise e, s') -> (m ≫= f) s = (Raise e, s').
Proof. intros E. unfold mbind, M_bind. now rewrite E. Qed.

Lemma try_except_Ok {S A} (body : M S A) handles handler (s s' : S) (a : A) :
  body s = (Ok a, s') -> try_except body handles handler s = (Ok a, s').
Proof. intros E. unfold try_except. now rewrite E. Qed.

Lemma try_except_handled {S A} (body : M S A) handles handler (s s' : S) (e : exn) :
  body s = (Raise e, s') -> handles (class_of e) = true ->
  try_except body handles handler s = handler e s'.
Proof. intros E H. unfold try_except. now rewrite E, H. Qed.

Lemma try_except_passed {S A} (body : M S A) handles handler (s s' : S) (e : exn) :
  body s = (Raise e, s') -> handles (class_of e) = false ->
  try_except body handles handler s = (Raise e, s').
Proof. intros E H. unfold try_except. now rewrite E, H. Qed.

(** ** [get_proc_info]: a pid that is gone *)

(** C6. For every pid whose [/proc/<pid>] path does not exist,
    [get_proc_info] returns a mapping with the single field [error]; on
    Linux the field holds the "no longer exists" message and the existence
    check is the only call made, whatever the other sources would have
    answered; on another platform the platform check has already returned
    and no call is made at all. *)
Theorem get_proc_info_not_found (h : host) (pid : string) :
  proc_path_exists h = false ->
  exists msg,
    get_proc_info h pid = Ok {[ "error" := VStr msg ]}
    /\ (platform_system h = "Linux" ->
          msg = "Process " +:+ pid +:+ " no longer exists"
          /\ get_proc_info_calls h pid = [Exists ("/proc/" +:+ pid)])
    /\ (platform_system h <> "Linux" ->
          msg = "This function is only available on Linux"
          /\ get_proc_info_calls h pid = []).
Proof.
  intros Hgone. unfold get_proc_info, get_proc_info_calls, get_proc_info_m.
  destruct (String.eqb (platform_system h) "Linux") eqn:E; simpl.
  - apply String.eqb_eq in E. run. rewrite Hgone. simpl.
    eexists. split; [reflexivity|]. split; [auto | congruence].
  - apply String.eqb_neq in E. run.
    eexists. split; [reflexivity|]. split; [congruence | auto].
Qed.

Lemma get_proc_info_not_found_witness :
  exists msg,
    get_proc_info vanished_process "777" = Ok {[ "error" := VStr msg ]}
    /\ (platform_system vanished_process = "Linux" ->
          msg = "Process " +:+ "777" +:+ " no longer exists"
          /\ get_proc_info_calls vanished_process "777" = [Exists ("/proc/" +:+ "777")])
    /\ (platform_system vanished_process <> "Linux" ->
          msg = "This function is only available on Linux"
          /\ get_proc_info_calls vanished_process "777" = []).
Proof. apply (get_proc_info_not_found vanished_process "777"). reflexivity. Defined.

(** ** [get_section_content] *)

Lemma for_each_append {A} (f : A -> string) (l : list A) (content : list string)
    (calls : list syscall) :
  for_each l (fun x => append_line (f x)) (content, calls)
  = (Ok tt, (content ++ (f <$> l), calls)).
Proof.
  revert content. induction l as [|x l IH]; intros content; simpl.
  - run. now rewrite app_nil_r.
  - unfold mbind, M_bind. unfold append_line at 1. unfold update, modify. simpl.
    fold (@mbind (M resolver) _). rewrite IH. simpl. now rewrite <- app_assoc.
Qed.

Lemma append_file_lines_run (path name : string) (src : source (list string * option exn))
    (calls : list syscall) :
  src <> Missing ->
  try_except (append_file_lines path src) any_exception
    (fun e => append_line ("Error reading " +:+ name +:+ ": " +:+ str_of e)) ([], calls)
  = (Ok tt, (table_lines name src, calls ++ [Open path])).
Proof.
  intros Hsrc. destruct src as [|[lines stop]]; [congruence|].
  unfold try_except, append_file_lines.
  rewrite (bind_Ok _ _ _ ([], calls ++ [Open path]) tt) by reflexivity.
  rewrite (bind_Ok _ _ _ ([] ++ (rstrip <$> lines), calls ++ [Open path]) tt)
    by apply for_each_append.
  destruct stop as [e|]; reflexivity.
Qed.

Lemma for_each_descriptor_lines (fd_path : string) (entries : list (string * result string))
    (content : list string) (calls : list syscall) :
  for_each entries (fun '(fd, link) =>
    try_except
      (target ← call (Readlink (fd_path +:+ "/" +:+ fd)) link;
       append_line ("fd " +:+ fd +:+ ": " +:+ target))
      any_exception
      (fun e => append_line ("fd " +:+ fd +:+ ": Error: " +:+ str_of e))) (content, calls)
  = (Ok tt, (content ++ (descriptor_line <$> entries),
             calls ++ (readlink_call fd_path <$> entries))).
Proof.
  revert content calls. induction entries as [|[fd link] entries IH]; intros content calls.
  - simpl. unfold mret, M_ret. now rewrite !app_nil_r.
  - cbn [for_each]. unfold mbind at 1, M_bind at 1.
    destruct link as [target|e]; simpl; rewrite IH; simpl; now rewrite <- !app_assoc.
Qed.

(** What [get_section_content] returns for each of the five categories. *)
Lemma get_section_content_lines (h : host) (proc_path section_id : string) :
  In section_id ["maps"; "fd"; "cwd"; "exe"; "limits"] ->
  get_section_content h proc_path section_id = Ok (section_lines h section_id).
Proof.
  intros Hin. unfold get_section_content, get_section_content_m, section_lines.
  simpl in Hin.
  destruct Hin as [<-|[<-|[<-|[<-|[<-|[]]]]]]; cbn [String.eqb Ascii.eqb Bool.eqb andb].
  - unfold os_path_exists.
    rewrite (bind_Ok _ _ _ ([], [] ++ [Exists (proc_path +:+ "/maps")])
               (match maps_file h with Missing => false | Present _ => true end))
      by reflexivity.
    destruct (maps_file h) as [|src] eqn:E; [reflexivity|].
    rewrite (append_file_lines_run _ "maps") by discriminate. reflexivity.
  - unfold os_path_exists.
    rewrite (bind_Ok _ _ _ ([], [] ++ [Exists (proc_path +:+ "/fd")])
               (match fd_dir h with Missing => false | Present _ => true end))
      by reflexivity.
    destruct (fd_dir h) as [|[entries|e]] eqn:E; [reflexivity| |reflexivity].
    erewrite try_except_Ok.
    2:{ rewrite (bind_Ok _ _ _ ([], ([] ++ [Exists (proc_path +:+ "/fd")])
                                      ++ [Listdir (proc_path +:+ "/fd")]) entries)
          by reflexivity.
        apply for_each_descriptor_lines. }
    reflexivity.
  - destruct (cwd_link h); reflexivity.
  - destruct (exe_link h); reflexivity.
  - unfold os_path_exists.
    rewrite (bind_Ok _ _ _ ([], [] ++ [Exists (proc_path +:+ "/limits")])
               (match limits_file h with Missing => false | Present _ => true end))
      by reflexivity.
    destruct (limits_file h) as [|src] eqn:E; [reflexivity|].
    rewrite (append_file_lines_run _ "limits") by discriminate. reflexivity.
Qed.

Lemma table_lines_nil (name : string) (src : source (list string * option exn)) :
  table_lines name src = [] <-> src = Present ([], None).
Proof.
  destruct src as [|[lines [e|]]]; simpl.
  - split; discriminate.
  - split; [intros H; apply app_eq_nil in H; destruct H; discriminate | discriminate].
  - destruct lines; simpl; split; congruence.
Qed.

Lemma section_lines_nil (h : host) (section_id : string) :
  In section_id ["maps"; "fd"; "cwd"; "exe"; "limits"] ->
  section_lines h section_id = [] <-> empty_source h section_id.
Proof.
  intros Hin. unfold section_lines, empty_source. simpl in Hin.
  destruct Hin as [<-|[<-|[<-|[<-|[<-|[]]]]]]; cbn [String.eqb Ascii.eqb Bool.eqb andb].
  - rewrite table_lines_nil. split; [auto|].
    intros [[_ H]|[[H _]|[H _]]]; [exact H | discriminate | discriminate].
  - split.
    + destruct (fd_dir h) as [|[[|entry entries]|e]]; simpl; try discriminate. auto.
    + intros [[H _]|[[H _]|[_ H]]]; [discriminate | discriminate | now rewrite H].
  - split; [destruct (cwd_link h); discriminate|].
    intros [[H _]|[[H _]|[H _]]]; discriminate.
  - split; [destruct (exe_link h); discriminate|].
    intros [[H _]|[[H _]|[H _]]]; discriminate.
  - rewrite table_lines_nil. split; [auto|].
    intros [[H _]|[[_ H]|[H _]]]; [discriminate | exact H | discriminate].
Qed.

(** The claim that the resolver never returns an empty sequence fails for a
    kernel thread: its memory map is there and empty, and the content
    returned for "maps" is the empty list. *)
Lemma get_section_content_empty_for_empty_maps :
  maps_file kernel_thread = Present ([], None)
  /\ get_section_content kernel_thread "/proc/2" "maps" = Ok []
  /\ ~ (exists line content,
          get_section_content kernel_thread "/proc/2" "maps" = Ok (line :: content)).
Proof.
  split; [reflexivity|]. split; [vm_compute; reflexivity|].
  intros (line & content & H). vm_compute in H. discriminate.
Qed.

(** C5 (amended). For every host, path and category among maps, fd, cwd,
    exe and limits, [get_section_content] returns and does not raise.  The
    content is: for maps and limits, the one-line "not available"
    placeholder when the file is missing, else the lines of the file with
    an error line after them when reading raised; for fd, the placeholder
    when the directory is missing, one error line when listing it raised,
    else one line per descriptor; for cwd and exe, exactly one line, the
    target or an error line.  The content is empty exactly when the source
    is there, is read without an error and holds no line or entry. *)
Theorem get_section_content_explicit (h : host) (proc_path section_id : string) :
  In section_id ["maps"; "fd"; "cwd"; "exe"; "limits"] ->
  exists content,
    get_section_content h proc_path section_id = Ok content
    /\ content = section_lines h section_id
    /\ (content = [] <-> empty_source h section_id)
    /\ (section_id = "cwd" \/ section_id = "exe" -> length content = 1%nat)
    /\ (section_id = "maps" -> maps_file h = Missing -> content = ["maps not available"])
    /\ (section_id = "limits" -> limits_file h = Missing -> content = ["limits not available"])
    /\ (section_id = "fd" -> fd_dir h = Missing -> content = ["fd not available"])
    /\ (section_id = "fd" -> forall e, fd_dir h = Present (Raise e) ->
          content = ["Error reading fd: " +:+ str_of e]).
Proof.
  intros Hin. exists (section_lines h section_id).
  split; [apply get_section_content_lines; exact Hin|].
  split; [reflexivity|]. split; [apply section_lines_nil; exact Hin|].
  unfold section_lines. repeat split.
  - intros [-> | ->]; simpl; [destruct (cwd_link h) | destruct (exe_link h)]; reflexivity.
  - intros -> ->. reflexivity.
  - intros -> ->. reflexivity.
  - intros -> ->. reflexivity.
  - intros -> e ->. reflexivity.
Qed.

Lemma get_section_content_explicit_witness :
  exists content,
    get_section_content vanished_process "/proc/777" "maps" = Ok content
    /\ content = section_lines vanished_process "maps"
    /\ (content = [] <-> empty_source vanished_process "maps")
    /\ ("maps" = "cwd" \/ "maps" = "exe" -> length content = 1%nat)
    /\ ("maps" = "maps" -> maps_file vanished_process = Missing ->
          content = ["maps not available"])
    /\ ("maps" = "limits" -> limits_file vanished_process = Missing ->
          content = ["limits not available"])
    /\ ("maps" = "fd" -> fd_dir vanished_process = Missing -> content = ["fd not available"])
    /\ ("maps" = "fd" -> forall e, fd_dir vanished_process = Present (Raise e) ->
          content = ["Error reading fd: " +:+ str_of e]).
Proof.
  apply (get_section_content_explicit vanished_process "/proc/777" "maps").
  simpl. auto.
Defined.

Example get_section_content_fd_example :
  get_section_content shell_process "/proc/4242" "fd"
  = Ok ["fd 0: /dev/pts/0"; "fd 1: /dev/pts/0"; "fd 2: /dev/pts/0"; "fd 3: socket:[31337]";
        "fd 4: pipe:[4711]"; "fd 5: /var/log/a.log";
        "fd 6: Error: [Errno 2] No such file or directory";
        "fd 7: /var/log/b.log"; "fd 8: /var/log/c.log"; "fd 9: /var/log/d.log";
        "fd 10: /var/log/e.log"; "fd 11: /var/log/f.log"].
Proof. vm_compute. reflexivity. Qed.

(** ** [monitor_io_streams] *)

(** The [finally] block asks the tracer to terminate, waits two seconds when
    the request went through, and kills when either of the two raised. *)
Lemma release_tracer_released (s : session) : released s (release_tracer s).
Proof.
  unfold released, release_tracer.
  destruct (terminate s) as [u|r] eqn:Et.
  - destruct (wait s) as [v|r] eqn:Ew.
    + left. eauto.
    + right. left. eauto.
  - right. right. eauto.
Qed.

(** Each of the three ways out of the loop happens. *)
Lemma streaming_ends :
  streaming [quiet_turn; target_gone_turn] = Some TargetExited
  /\ streaming [quiet_turn; interrupted_turn] = Some (LoopRaised KeyboardInterrupt)
  /\ (forall e,
        streaming [{| target_alive := true; tracer_line := Raises (Exc e);
                      stdin_line := Returns None; stdin_path_exists := true;
                      stdin_write := Returns tt |}]
        = Some (LoopRaised (Exc e))).
Proof. repeat split. Qed.

(** What became of the tracer, by the answers of the three calls. *)
Lemma tracer_fate_of_cases (s : session) :
  (In (Wait 2) (release_tracer s) <-> exists u, terminate s = Returns u)
  /\ (tracer_fate_of s = Exited
      <-> exists u v, terminate s = Returns u /\ wait s = Returns v)
  /\ (tracer_fate_of s = Killed
      <-> In Kill (release_tracer s) /\ exists u, kill s = Returns u)
  /\ (tracer_fate_of s = NotStopped
      <-> In Kill (release_tracer s) /\ exists x, kill s = Raises x).
Proof.
  unfold tracer_fate_of, release_tracer, kill_tracer.
  destruct (terminate s) as [u|x]; [destruct (wait s) as [v|y]|];
    destruct (kill s) as [w|z]; cbn [In];
    (split; [|split; [|split]]);
    (split;
     [ intros H; try discriminate H; eauto 8;
       repeat (destruct H as [H|H]; try discriminate H); try contradiction
     | intros H;
       repeat match goal with
              | H : _ /\ _ |- _ => destruct H
              | H : exists _, _ |- _ => destruct H
              | H : _ \/ _ |- _ => destruct H
              | H : False |- _ => destruct H
              end;
       try discriminate; try reflexivity; auto ]).
Qed.

(** C3 (amended). For every session of the monitor that ends: the tracer was
    spawned exactly when the session got as far as the streaming loop; then,
    however the loop stopped (the target exited, KeyboardInterrupt, a
    subprocess error, or any other exception), the calls made on the tracer
    handle are [terminate()] first, then [wait(timeout=2)] when that
    returned, then [kill()] when either of the two raised.  The two seconds
    are given exactly when [terminate()] returned.  The session ends with
    the tracer exited exactly when [terminate()] and the wait returned, and
    with the tracer killed exactly when [kill()] was called and returned;
    when [kill()] was called and raised, the exception is swallowed and the
    session ends without the tracer having been stopped.  A session that did
    not spawn the tracer makes no call on a handle. *)
Theorem monitor_io_streams_releases_tracer (s : session) (r : session_result) :
  monitor_io_streams s = Some r ->
  (spawned r = true <-> entered_streaming s)
  /\ (spawned r = true ->
        released s (tracer_calls r)
        /\ head (tracer_calls r) = Some Terminate
        /\ ((exists v, last (tracer_calls r) = Some (Wait 2) /\ wait s = Returns v)
            \/ last (tracer_calls r) = Some Kill))
  /\ (spawned r = false -> tracer_calls r = [] /\ tracer_at_end r = None)
  /\ (forall stop, entered_streaming s ->
        streaming (polls s) = Some stop ->
        ending r = match stop with
                   | TargetExited => Detached
                   | LoopRaised KeyboardInterrupt => Stopped
                   | LoopRaised (Exc e) =>
                       if is_SubprocessError (class_of e) then Failed e else Propagated (Exc e)
                   end)
  /\ (spawned r = true ->
        (In (Wait 2) (tracer_calls r) <-> exists u, terminate s = Returns u)
        /\ (tracer_at_end r = Some Exited
            <-> exists u v, terminate s = Returns u /\ wait s = Returns v)
        /\ (tracer_at_end r = Some Killed
            <-> In Kill (tracer_calls r) /\ exists u, kill s = Returns u)
        /\ (tracer_at_end r = Some NotStopped
            <-> In Kill (tracer_calls r) /\ exists x, kill s = Raises x)).
Proof.
  unfold monitor_io_streams, entered_streaming.
  assert (Hout : forall e0 : session_end,
            Some (not_started e0) = Some r ->
            ~ (session_system s = "Linux"
               /\ (exists u, which_strace s = Returns u)
               /\ target_exists s = true
               /\ (exists u, popen s = Returns u)) ->
            (spawned r = true <->
               session_system s = "Linux"
               /\ (exists u, which_strace s = Returns u)
               /\ target_exists s = true
               /\ (exists u, popen s = Returns u))
            /\ (spawned r = true ->
                  released s (tracer_calls r)
                  /\ head (tracer_calls r) = Some Terminate
                  /\ ((exists v, last (tracer_calls r) = Some (Wait 2) /\ wait s = Returns v)
                      \/ last (tracer_calls r) = Some Kill))
            /\ (spawned r = false -> tracer_calls r = [] /\ tracer_at_end r = None)
            /\ (forall stop,
                  session_system s = "Linux"
                  /\ (exists u, which_strace s = Returns u)
                  /\ target_exists s = true
                  /\ (exists u, popen s = Returns u) ->
                  streaming (polls s) = Some stop ->
                  ending r = match stop with
                             | TargetExited => Detached
                             | LoopRaised KeyboardInterrupt => Stopped
                             | LoopRaised (Exc e) =>
                                 if is_SubprocessError (class_of e)
                                 then Failed e else Propagated (Exc e)
                             end)
            /\ (spawned r = true ->
                  (In (Wait 2) (tracer_calls r) <-> exists u, terminate s = Returns u)
                  /\ (tracer_at_end r = Some Exited
                      <-> exists u v, terminate s = Returns u /\ wait s = Returns v)
                  /\ (tracer_at_end r = Some Killed
                      <-> In Kill (tracer_calls r) /\ exists u, kill s = Returns u)
                  /\ (tracer_at_end r = Some NotStopped
                      <-> In Kill (tracer_calls r) /\ exists x, kill s = Raises x))).
  { intros e0 [= <-] Hno. simpl. split; [split; [discriminate | tauto]|].
    split; [discriminate|]. split; [auto|]. split; [intros stop H; tauto | discriminate]. }
  destruct (String.eqb (session_system s) "Linux") eqn:Esys; simpl.
  2:{ apply String.eqb_neq in Esys. intros H. apply (Hout _ H). tauto. }
  apply String.eqb_eq in Esys.
  destruct (which_strace s) as [[]|[|e]] eqn:Ew.
  2:{ intros H. apply (Hout _ H). intros (_ & [u Hu] & _). discriminate. }
  2:{ destruct (class_of e); intros H; apply (Hout _ H);
        intros (_ & [u Hu] & _); discriminate. }
  destruct (target_exists s) eqn:Et; simpl.
  2:{ intros H. apply (Hout _ H). intros (_ & _ & Hx & _). discriminate. }
  clear Hout.
  destruct (popen s) as [[]|raised] eqn:Ep.
  2:{ intros [= <-]. simpl. split; [split; [discriminate|]|].
      - intros (_ & _ & _ & [u Hu]). discriminate.
      - split; [discriminate|]. split; [auto|]. split; [|discriminate].
        intros stop (_ & _ & _ & [u Hu]). discriminate. }
  destruct (streaming (polls s)) as [stop|] eqn:Es; [|discriminate].
  intros [= <-]. simpl. split; [split; eauto 10|].
  split.
  { intros _. split; [apply release_tracer_released|].
    unfold release_tracer.
    destruct (terminate s); [destruct (wait s) as [v|]|]; simpl; eauto. }
  split; [discriminate|].
  split.
  { intros stop' _ [= <-]. destruct stop as [|[|e]]; reflexivity. }
  intros _. destruct (tracer_fate_of_cases s) as (H1 & H2 & H3 & H4).
  split; [exact H1|]. split; [|split].
  - rewrite <- H2. split; [intros [= ->]; reflexivity | intros ->; reflexivity].
  - rewrite <- H3. split; [intros [= ->]; reflexivity | intros ->; reflexivity].
  - rewrite <- H4. split; [intros [= ->]; reflexivity | intros ->; reflexivity].
Qed.

(** A session that got as far as the streaming loop ends as soon as the loop
    stops. *)
Lemma monitor_io_streams_ends (s : session) (stop : loop_end) :
  entered_streaming s ->
  streaming (polls s) = Some stop ->
  exists r, monitor_io_streams s = Some r /\ spawned r = true.
Proof.
  intros (Hsys & [[] Hw] & Ht & [[] Hp]) Hs.
  unfold monitor_io_streams. rewrite Hsys, Hw, Ht, Hp, Hs. simpl. eauto.
Qed.

Lemma monitor_io_streams_releases_tracer_witness :
  (spawned interrupted_result = true
   <-> entered_streaming session_interrupted)
  /\ (spawned interrupted_result = true ->
        released session_interrupted (tracer_calls interrupted_result)
        /\ head (tracer_calls interrupted_result) = Some Terminate
        /\ ((exists v, last (tracer_calls interrupted_result) = Some (Wait 2)
                       /\ wait session_interrupted = Returns v)
            \/ last (tracer_calls interrupted_result) = Some Kill))
  /\ (spawned interrupted_result = false -> tracer_calls interrupted_result = [] /\ tracer_at_end interrupted_result = None)
  /\ (forall stop, entered_streaming session_interrupted ->
        streaming (polls session_interrupted) = Some stop ->
        ending interrupted_result = match stop with
                     | TargetExited => Detached
                     | LoopRaised KeyboardInterrupt => Stopped
                     | LoopRaised (Exc e) =>
                         if is_SubprocessError (class_of e) then Failed e else Propagated (Exc e)
                     end)
  /\ (spawned interrupted_result = true ->
        (In (Wait 2) (tracer_calls interrupted_result) <-> exists u, terminate session_interrupted = Returns u)
        /\ (tracer_at_end interrupted_result = Some Exited
            <-> exists u v, terminate session_interrupted = Returns u
                            /\ wait session_interrupted = Returns v)
        /\ (tracer_at_end interrupted_result = Some Killed
            <-> In Kill (tracer_calls interrupted_result) /\ exists u, kill session_interrupted = Returns u)
        /\ (tracer_at_end interrupted_result = Some NotStopped
            <-> In Kill (tracer_calls interrupted_result) /\ exists x, kill session_interrupted = Raises x)).
Proof.
  apply (monitor_io_streams_releases_tracer session_interrupted interrupted_result).
  reflexivity.
Defined.

(** The claim that no session ends leaving the tracer running fails for a
    tracer that cannot be signalled: the session of [session_kill_fails] got
    into the streaming loop and the operator interrupted it; [terminate()]
    raises, so the tracer is given no grace period; [kill()] raises too and
    the exception is swallowed; the function returns with the tracer not
    stopped. *)
Lemma monitor_io_streams_tracer_not_stopped :
  entered_streaming session_kill_fails
  /\ streaming (polls session_kill_fails) = Some (LoopRaised KeyboardInterrupt)
  /\ monitor_io_streams session_kill_fails
     = Some {| ending := Stopped; spawned := true;
               tracer_calls := [Terminate; Kill]; tracer_at_end := Some NotStopped;
               paused_at_end := false |}
  /\ ~ In (Wait 2) [Terminate; Kill].
Proof.
  split; [repeat split; eauto|]. split; [reflexivity|]. split; [reflexivity|].
  intros [H|[H|[]]]; discriminate.
Qed.

Example monitor_io_streams_target_exits :
  monitor_io_streams session_target_exits
  = Some {| ending := Detached; spawned := true;
            tracer_calls := [Terminate; Wait 2]; tracer_at_end := Some Exited;
            paused_at_end := true |}.
Proof. reflexivity. Qed.

(** ** Binary64 division by 1024 *)

Lemma round_half_even_multiple (k d : Z) : 0 < d -> round_half_even (k * d) d = k.
Proof.
  intros Hd. unfold round_half_even.
  rewrite Z.mod_mul, Z.div_mul by lia. rewrite Z.mul_0_r.
  destruct (Z.compare_spec 0 d); [exfalso; lia | reflexivity | exfalso; lia].
Qed.

Lemma ratio_log2_1024 (n : Z) : 0 < n -> ratio_log2 n 1024 = Z.log2 n - 10.
Proof.
  intros Hn. unfold ratio_log2.
  change (Z.log2 1024) with 10.
  pose proof (Z.log2_nonneg n) as HL.
  destruct (Z.log2_spec n Hn) as [Hlo _].
  set (L := Z.log2 n) in *.
  destruct (Z.ltb_spec (n * 2 ^ Z.max 0 (- (L - 10))) (1024 * 2 ^ Z.max 0 (L - 10)))
    as [Hlt|]; [exfalso|reflexivity].
  destruct (Z.le_gt_cases 10 L) as [H10|H10].
  - rewrite (Z.max_l 0 (- (L - 10))), (Z.max_r 0 (L - 10)) in Hlt by lia.
    change 1024 with (2 ^ 10) in Hlt. rewrite <- Z.pow_add_r in Hlt by lia.
    replace (10 + (L - 10)) with L in Hlt by lia. simpl in Hlt. lia.
  - rewrite (Z.max_r 0 (- (L - 10))), (Z.max_l 0 (L - 10)) in Hlt by lia.
    assert (2 ^ L * 2 ^ (- (L - 10)) = 1024).
    { rewrite <- Z.pow_add_r by lia. now replace (L + - (L - 10)) with 10 by lia. }
    assert (0 < 2 ^ (- (L - 10))) by (apply Z.pow_pos_nonneg; lia).
    simpl in Hlt. nia.
Qed.

Lemma round_half_even_le (n d b : Z) :
  0 <= n -> 0 < d -> n < b * d -> 0 <= round_half_even n d <= b.
Proof.
  intros Hn Hd Hlt. unfold round_half_even.
  assert (Hq : 0 <= n / d) by (apply Z.div_pos; lia).
  assert (Hqb : n / d < b) by (apply Z.div_lt_upper_bound; lia).
  destruct (2 * (n mod d) ?= d); [destruct (Z.even (n / d))| |]; lia.
Qed.

(** A quotient [a * 2^k / 1024] with [0 < a < 2^53] is a binary64 value:
    rounding gives the mantissa [a * 2^(52 - L)] with the exponent
    [L + k - 62], for [L] the position of the leading bit of [a]. *)
Lemma b64_round_pos_1024 (a k : Z) :
  0 < a < 2 ^ 53 ->
  0 <= k ->
  b64_round_pos (a * 2 ^ k) 1024 = (a * 2 ^ (52 - Z.log2 a), Z.log2 a + k - 62)
  /\ 0 <= Z.log2 a <= 52.
Proof.
  intros [Ha Hlt] Hk.
  assert (Hpk : 0 < 2 ^ k) by (apply Z.pow_pos_nonneg; lia).
  unfold b64_round_pos.
  rewrite ratio_log2_1024 by nia.
  rewrite Z.log2_mul_pow2 by lia.
  pose proof (Z.log2_nonneg a) as HL.
  assert (HL52 : Z.log2 a < 53) by (apply Z.log2_lt_pow2; assumption).
  destruct (Z.log2_spec a Ha) as [_ Hhi].
  set (L := Z.log2 a) in *.
  replace (k + L - 10 - 52) with (L + k - 62) by lia.
  rewrite (Z.max_l (L + k - 62) (-1074)) by lia.
  assert (Hpos : 0 < 2 ^ (52 - L)) by (apply Z.pow_pos_nonneg; lia).
  assert (Hm : a * 2 ^ (52 - L) < 2 ^ 53).
  { assert (E : 2 ^ Z.succ L * 2 ^ (52 - L) = 2 ^ 53).
    { rewrite <- Z.pow_add_r by lia. f_equal. lia. }
    nia. }
  assert (Hround : round_half_even (a * 2 ^ k * 2 ^ Z.max 0 (- (L + k - 62)))
                     (1024 * 2 ^ Z.max 0 (L + k - 62))
                   = a * 2 ^ (52 - L)).
  { destruct (Z.le_gt_cases 62 (L + k)) as [Hge|Hlt62].
    - rewrite (Z.max_l 0 (- (L + k - 62))), (Z.max_r 0 (L + k - 62)) by lia.
      change 1024 with (2 ^ 10). rewrite <- (Z.pow_add_r 2 10) by lia.
      replace (a * 2 ^ k * 2 ^ 0) with (a * 2 ^ (52 - L) * 2 ^ (10 + (L + k - 62))).
      + apply round_half_even_multiple. apply Z.pow_pos_nonneg; lia.
      + rewrite <- Z.mul_assoc, <- Z.pow_add_r by lia.
        replace (52 - L + (10 + (L + k - 62))) with k by lia. simpl (2 ^ 0). lia.
    - rewrite (Z.max_r 0 (- (L + k - 62))), (Z.max_l 0 (L + k - 62)) by lia.
      change (2 ^ 0) with 1. rewrite Z.mul_1_r.
      replace (a * 2 ^ k * 2 ^ (- (L + k - 62))) with (a * 2 ^ (52 - L) * 1024).
      + apply round_half_even_multiple. lia.
      + rewrite <- !Z.mul_assoc. f_equal. change 1024 with (2 ^ 10).
        rewrite <- !Z.pow_add_r by lia. f_equal. lia. }
  rewrite Hround.
  destruct (Z.eqb_spec (a * 2 ^ (52 - L)) (2 ^ 53)); [lia|].
  split; [reflexivity | lia].
Qed.

(** When the float [m * 2^e] stands for the rational [x/1024]. *)
Lemma Q_of_dyadic_iff (m e x : Z) :
  (inject_Z m * Qpower 2 e == x # 1024)%Q
  <-> (if 0 <=? e then m * 2 ^ e * 1024 = x else m * 1024 = x * 2 ^ (- e)).
Proof.
  destruct (Z.leb_spec 0 e) as [He|He].
  - assert (E : (Qpower 2 e == inject_Z (2 ^ e))%Q).
    { change (2%Q) with (inject_Z 2). now rewrite <- Zpower_Qpower. }
    rewrite E. unfold Qeq, Qmult, inject_Z. simpl. lia.
  - replace e with (- (- e)) at 1 by lia. rewrite Qpower_opp.
    assert (E : (Qpower 2 (- e) == inject_Z (2 ^ (- e)))%Q).
    { change (2%Q) with (inject_Z 2). rewrite <- Zpower_Qpower by lia. reflexivity. }
    rewrite E.
    assert (Hp : 0 < 2 ^ (- e)) by (apply Z.pow_pos_nonneg; lia).
    destruct (2 ^ (- e)) as [|p|p] eqn:Ep; try lia.
    unfold Qeq, Qmult, Qinv, inject_Z. simpl. lia.
Qed.

(** [x / 1024] on an [int] whose quotient is a binary64 value returns a
    float that stands for the rational [x/1024]. *)
Lemma int_truediv_1024_exact (x : Z) :
  binary64_over_1024 x ->
  exists m e,
    int_truediv x 1024 = Ok (Finite m e)
    /\ (inject_Z m * Qpower 2 e == x # 1024)%Q.
Proof.
  intros (y & k & -> & Hk & Hy). unfold int_truediv, b64_round. simpl (1024 =? 0).
  assert (Hpk : 0 < 2 ^ k) by (apply Z.pow_pos_nonneg; lia).
  destruct (Z.eqb_spec (y * 2 ^ k) 0) as [E0|Hx0].
  - exists 0, 0. rewrite E0. split; reflexivity.
  - change (Z.abs 1024) with 1024. change (1024 <? 0) with false.
    rewrite Z.abs_mul, (Z.abs_eq (2 ^ k)) by lia.
    destruct (b64_round_pos_1024 (Z.abs y) k) as [E HL]; [nia | lia|].
    rewrite E. set (L := Z.log2 (Z.abs y)) in *.
    destruct (Z.ltb_spec 971 (L + k - 62)); [lia|].
    assert (Hpos : 0 < 2 ^ (52 - L)) by (apply Z.pow_pos_nonneg; lia).
    destruct (Z.eqb_spec (Z.abs y * 2 ^ (52 - L)) 0); [nia|].
    eexists _, _. split; [reflexivity|].
    rewrite xorb_false_r.
    assert (Hsign : (if y * 2 ^ k <? 0 then - (Z.abs y * 2 ^ (52 - L))
                     else Z.abs y * 2 ^ (52 - L)) = y * 2 ^ (52 - L)).
    { destruct (Z.ltb_spec (y * 2 ^ k) 0); nia. }
    rewrite Hsign.
    apply Q_of_dyadic_iff.
    destruct (Z.leb_spec 0 (L + k - 62)) as [He|He];
      rewrite <- !Z.mul_assoc; f_equal; change 1024 with (2 ^ 10);
      rewrite <- !Z.pow_add_r by lia; f_equal; lia.
Qed.

(** What [x / 1024] returns on an [int] is a binary64 value in range. *)
Lemma int_truediv_1024_range (x m e : Z) :
  int_truediv x 1024 = Ok (Finite m e) ->
  Z.abs m < 2 ^ 53 /\ -62 <= e <= 971.
Proof.
  unfold int_truediv, b64_round. simpl (1024 =? 0).
  destruct (Z.eqb_spec x 0) as [->|Hx0]; [intros [= <- <-]; simpl; lia|].
  change (Z.abs 1024) with 1024. unfold b64_round_pos.
  rewrite ratio_log2_1024 by lia.
  pose proof (Z.log2_nonneg (Z.abs x)) as HL.
  destruct (Z.log2_spec (Z.abs x)) as [_ Hhi]; [lia|].
  set (n := Z.abs x) in *. set (L := Z.log2 n) in *.
  replace (L - 10 - 52) with (L - 62) by lia.
  rewrite (Z.max_l (L - 62) (-1074)) by lia.
  set (N := n * 2 ^ Z.max 0 (- (L - 62))). set (D := 1024 * 2 ^ Z.max 0 (L - 62)).
  assert (HD : 0 < D).
  { unfold D. assert (0 < 2 ^ Z.max 0 (L - 62)) by (apply Z.pow_pos_nonneg; lia). lia. }
  assert (HN : 0 <= N).
  { unfold N. assert (0 < 2 ^ Z.max 0 (- (L - 62))) by (apply Z.pow_pos_nonneg; lia). nia. }
  assert (HND : N < 2 ^ 53 * D).
  { unfold N, D. destruct (Z.le_gt_cases 62 L).
    - rewrite (Z.max_l 0 (- (L - 62))), (Z.max_r 0 (L - 62)) by lia.
      change 1024 with (2 ^ 10). rewrite <- !Z.pow_add_r by lia.
      replace (53 + (10 + (L - 62))) with (Z.succ L) by lia. simpl (2 ^ 0). lia.
    - rewrite (Z.max_r 0 (- (L - 62))), (Z.max_l 0 (L - 62)) by lia.
      change (2 ^ 53 * (1024 * 2 ^ 0)) with (2 ^ 63).
      assert (E : 2 ^ Z.succ L * 2 ^ (- (L - 62)) = 2 ^ 63).
      { rewrite <- Z.pow_add_r by lia. f_equal. lia. }
      assert (0 < 2 ^ (- (L - 62))) by (apply Z.pow_pos_nonneg; lia). nia. }
  pose proof (round_half_even_le N D (2 ^ 53) HN HD HND) as Hr.
  set (m0 := round_half_even N D) in *.
  destruct (Z.eqb_spec m0 (2 ^ 53)).
  - destruct (Z.ltb_spec 971 (L - 62 + 1)); [discriminate|].
    simpl (2 ^ 52 =? 0).
    cbv iota. destruct (xorb (x <? 0) (1024 <? 0)); intros [= <- <-]; simpl; lia.
  - destruct (Z.ltb_spec 971 (L - 62)); [discriminate|].
    destruct (Z.eqb_spec m0 0); [intros [= <- <-]; simpl; lia|].
    destruct (xorb (x <? 0) (1024 <? 0)); intros [= <- <-]; lia.
Qed.

(** And only then: a float returned by [x / 1024] that stands for [x/1024]
    shows that the quotient is a binary64 value. *)
Lemma int_truediv_1024_exact_only (x m e : Z) :
  int_truediv x 1024 = Ok (Finite m e) ->
  (inject_Z m * Qpower 2 e == x # 1024)%Q ->
  binary64_over_1024 x.
Proof.
  intros Hdiv Hq. destruct (int_truediv_1024_range x m e Hdiv) as [Hm He].
  apply Q_of_dyadic_iff in Hq.
  destruct (Z.leb_spec 0 e) as [H0|H0].
  - exists m, (e + 10). rewrite Z.pow_add_r by lia. change (2 ^ 10) with 1024.
    repeat split; lia.
  - destruct (Z.le_gt_cases (-10) e) as [H10|H10].
    + exists m, (e + 10). repeat split; try lia.
      assert (E : 2 ^ (e + 10) * 2 ^ (- e) = 1024).
      { rewrite <- Z.pow_add_r by lia. now replace (e + 10 + - e) with 10 by lia. }
      assert (0 < 2 ^ (- e)) by (apply Z.pow_pos_nonneg; lia).
      nia.
    + exists x, 0. rewrite Z.mul_1_r. repeat split; try lia.
      assert (E : 2 ^ (- e) = 1024 * 2 ^ (- e - 10)).
      { change 1024 with (2 ^ 10). rewrite <- Z.pow_add_r by lia. f_equal. lia. }
      assert (0 < 2 ^ (- e - 10)) by (apply Z.pow_pos_nonneg; lia).
      rewrite E in Hq. nia.
Qed.

(** Every [int] below [2^53] in magnitude has such a quotient. *)
Lemma binary64_over_1024_small (x : Z) : Z.abs x < 2 ^ 53 -> binary64_over_1024 x.
Proof. intros Hx. exists x, 0. rewrite Z.mul_1_r. repeat split; lia. Qed.

(** ** Which fields a step of the collector writes *)

Section TouchesOnly.
Context (keys : list string).

Lemma touches_only_ret {A} (a : A) : touches_only keys (mret a).
Proof. intros s r s' key [= <- <-] _. reflexivity. Qed.

Lemma touches_only_lift {A} (x : result A) : touches_only keys (lift x).
Proof. intros s r s' key [= <- <-] _. reflexivity. Qed.

Lemma touches_only_call {A} (c : syscall) (x : result A) : touches_only keys (call c x).
Proof. intros s r s' key [= <- <-] _. reflexivity. Qed.

Lemma touches_only_exists {A} (path : string) (src : source A) :
  touches_only keys (os_path_exists path src).
Proof. apply touches_only_call. Qed.

Lemma touches_only_open (path : string) (src : source (result string)) :
  touches_only keys (open_read path src).
Proof. apply touches_only_call. Qed.

Lemma touches_only_set_info (k : string) (v : value) :
  In k keys -> touches_only keys (set_info k v).
Proof.
  intros Hk s r s' key [= <- <-] Hkey. simpl.
  apply lookup_insert_ne. congruence.
Qed.

Lemma touches_only_bind {A B} (m : M collector A) (f : A -> M collector B) :
  touches_only keys m -> (forall a, touches_only keys (f a)) ->
  touches_only keys (m ≫= f).
Proof.
  intros Hm Hf s r s' key E Hkey. unfold mbind, M_bind in E.
  destruct (m s) as [[a|e] s1] eqn:Em.
  - rewrite (Hf a _ _ _ key E Hkey). exact (Hm _ _ _ key Em Hkey).
  - injection E as <- <-. exact (Hm _ _ _ key Em Hkey).
Qed.

Lemma touches_only_try {A} (body : M collector A) handles handler :
  touches_only keys body -> (forall e, touches_only keys (handler e)) ->
  touches_only keys (try_except body handles handler).
Proof.
  intros Hb Hh s r s' key E Hkey. unfold try_except in E.
  destruct (body s) as [[a|e] s1] eqn:Eb.
  - injection E as <- <-. exact (Hb _ _ _ key Eb Hkey).
  - destruct (handles (class_of e)).
    + rewrite (Hh e _ _ _ key E Hkey). exact (Hb _ _ _ key Eb Hkey).
    + injection E as <- <-. exact (Hb _ _ _ key Eb Hkey).
Qed.

Lemma touches_only_for_each {A} (l : list A) (body : A -> M collector unit) :
  (forall x, touches_only keys (body x)) -> touches_only keys (for_each l body).
Proof.
  intros Hb. induction l as [|x l IH]; simpl.
  - apply touches_only_ret.
  - apply touches_only_bind; [apply Hb | intros _; exact IH].
Qed.

Lemma touches_only_if {A} (b : bool) (m1 m2 : M collector A) :
  touches_only keys m1 -> touches_only keys m2 ->
  touches_only keys (if b then m1 else m2).
Proof. destruct b; auto. Qed.
End TouchesOnly.

Lemma touches_only_append_fd_detail (keys : list string) (fd target : string) :
  In "fd_details" keys -> touches_only keys (append_fd_detail fd target).
Proof.
  intros Hk s r s' key [= <- <-] Hkey. simpl.
  destruct (s.1 !! "fd_details") as [[]|]; try reflexivity.
  apply lookup_insert_ne. congruence.
Qed.

Lemma collect_cpu_touches (h : host) (proc_path : string) :
  touches_only ["cpu"; "uptime"] (collect_cpu h proc_path).
Proof.
  unfold collect_cpu.
  repeat first
    [ apply touches_only_bind; [|intros ?]
    | apply touches_only_if
    | apply touches_only_set_info; simpl; tauto
    | apply touches_only_exists | apply touches_only_open | apply touches_only_call
    | apply touches_only_lift | apply touches_only_ret ].
Qed.

Lemma collect_fds_touches (h : host) (proc_path : string) :
  touches_only ["fd_count"; "fd_details"] (collect_fds h proc_path).
Proof.
  unfold collect_fds.
  repeat first
    [ apply touches_only_bind; [|intros ?]
    | apply touches_only_if
    | apply touches_only_try; [|intros ?]
    | apply touches_only_for_each; intros [? ?]
    | apply touches_only_set_info; simpl; tauto
    | apply touches_only_append_fd_detail; simpl; tauto
    | apply touches_only_exists | apply touches_only_open | apply touches_only_call
    | apply touches_only_lift | apply touches_only_ret ].
Qed.

Lemma collect_io_touches (h : host) (proc_path : string) :
  touches_only ["io"] (collect_io h proc_path).
Proof.
  unfold collect_io.
  repeat first
    [ apply touches_only_bind; [|intros ?]
    | apply touches_only_if
    | apply touches_only_try; [|intros ?]
    | apply touches_only_set_info; simpl; tauto
    | apply touches_only_exists | apply touches_only_open | apply touches_only_call
    | apply touches_only_lift | apply touches_only_ret ].
Qed.

Lemma touches_only_weaken {A} (keys keys' : list string) (m : M collector A) :
  (forall k, In k keys -> In k keys') -> touches_only keys m -> touches_only keys' m.
Proof. intros Hsub Hm s r s' key E Hkey. apply (Hm s r s' key E). auto. Qed.

(** ** [get_proc_info]: the outer [try] *)

(** On Linux, for a pid that is there: the result is the mapping left by the
    six steps, with the field [error] added when one of them raised. *)
Lemma get_proc_info_unfold (h : host) (pid : string) (r : result unit) (s : collector) :
  platform_system h = "Linux" ->
  proc_path_exists h = true ->
  collect_all h ("/proc/" +:+ pid) (∅, [Exists ("/proc/" +:+ pid)]) = (r, s) ->
  get_proc_info h pid
  = Ok (match r with
        | Ok _ => s.1
        | Raise e => <["error" := VStr ("Error reading process information: " +:+ str_of e)]> s.1
        end)
  /\ get_proc_info_calls h pid = s.2.
Proof.
  intros Hsys Hex E.
  assert (Em : get_proc_info_m h pid (∅, [])
               = (let info := match r with
                              | Ok _ => s.1
                              | Raise e =>
                                  <["error" := VStr ("Error reading process information: "
                                                     +:+ str_of e)]> s.1
                              end in
                  (Ok info, (info, s.2)))).
  { unfold get_proc_info_m.
    rewrite Hsys. cbn [String.eqb Ascii.eqb Bool.eqb negb andb].
    rewrite (bind_Ok _ _ _ (∅, [Exists ("/proc/" +:+ pid)]) true)
      by (unfold call; now rewrite Hex).
    cbn [negb]. unfold mbind, M_bind, try_except. rewrite E.
    destruct s as [info calls]. destruct r as [[]|e]; reflexivity. }
  unfold get_proc_info, get_proc_info_calls. rewrite Em. split; reflexivity.
Qed.

Lemma collect_all_steps (h : host) (proc_path : string) (s : collector) :
  collect_all h proc_path s = run_steps (collection_steps h proc_path) s.
Proof.
  unfold collect_all, run_steps, collection_steps. cbn [for_each].
  unfold mbind, M_bind, mret, M_ret.
  destruct (collect_status h proc_path s) as [[[]|?] s1]; [|reflexivity].
  destruct (collect_cmdline h proc_path s1) as [[[]|?] s2]; [|reflexivity].
  destruct (collect_memory h proc_path s2) as [[[]|?] s3]; [|reflexivity].
  destruct (collect_cpu h proc_path s3) as [[[]|?] s4]; [|reflexivity].
  destruct (collect_fds h proc_path s4) as [[[]|?] s5]; [|reflexivity].
  destruct (collect_io h proc_path s5) as [[[]|?] s6]; reflexivity.
Qed.

Lemma collect_all_split (h : host) (proc_path : string) (s : collector) :
  collect_all h proc_path s
  = (collect_before_fds h proc_path;; collect_fds h proc_path;; collect_io h proc_path) s.
Proof.
  unfold collect_all, collect_before_fds.
  unfold mbind, M_bind.
  destruct (collect_status h proc_path s) as [[[]|?] s1]; [|reflexivity].
  destruct (collect_cmdline h proc_path s1) as [[[]|?] s2]; [|reflexivity].
  destruct (collect_memory h proc_path s2) as [[[]|?] s3]; [|reflexivity].
  destruct (collect_cpu h proc_path s3) as [[[]|?] s4]; [|reflexivity].
  destruct (collect_fds h proc_path s4) as [[[]|?] s5]; [|reflexivity].
  destruct (collect_io h proc_path s5) as [[[]|?] s6]; reflexivity.
Qed.

Lemma run_steps_app (done rest : list (M collector unit)) (s0 s : collector) :
  run_steps done s0 = (Ok tt, s) ->
  run_steps (done ++ rest) s0 = run_steps rest s.
Proof.
  unfold run_steps. revert s0. induction done as [|m done IH]; intros s0; simpl.
  - now intros [= <-].
  - unfold mbind, M_bind. destruct (m s0) as [[[]|e] s1]; [apply IH | discriminate].
Qed.

Lemma run_steps_raise (step : M collector unit) (rest : list (M collector unit))
    (s s' : collector) (e : exn) :
  step s = (Raise e, s') -> run_steps (step :: rest) s = (Raise e, s').
Proof. intros E. unfold run_steps. simpl. now apply bind_Raise. Qed.

(** ** The steps of the collector one by one *)

Lemma collect_io_returns (h : host) (proc_path : string) (s : collector) :
  exists s', collect_io h proc_path s = (Ok tt, s').
Proof.
  unfold collect_io, os_path_exists.
  erewrite bind_Ok by reflexivity.
  destruct (io_file h) as [|[text|e]]; [eexists; reflexivity| |]; eexists; reflexivity.
Qed.

(** A failure to read one of the files of the first four steps leaves the
    step with that exception. *)
Lemma read_step_raises (path : string) (src : source (result string)) (e : exn)
    (k : string -> M collector unit) (s : collector) :
  src = Present (Raise e) ->
  (b ← os_path_exists path src; if b : bool then text ← open_read path src; k text else mret tt) s
  = (Raise e, (s.1, (s.2 ++ [Exists path]) ++ [Open path])).
Proof. intros ->. reflexivity. Qed.

(** When the file is missing the step does nothing; when it is read the step
    goes on with its text. *)
Lemma read_step_missing (path : string) (k : string -> M collector unit) (s : collector) :
  (b ← os_path_exists path (@Missing (result string));
   if b : bool then text ← open_read path Missing; k text else mret tt) s
  = (Ok tt, (s.1, s.2 ++ [Exists path])).
Proof. reflexivity. Qed.

Lemma read_step_text (path text : string) (k : string -> M collector unit) (s : collector) :
  (b ← os_path_exists path (Present (Ok text));
   if b : bool then text ← open_read path (Present (Ok text)); k text else mret tt) s
  = k text (s.1, (s.2 ++ [Exists path]) ++ [Open path]).
Proof. reflexivity. Qed.

Lemma collect_status_returns (h : host) (proc_path : string) (s : collector) :
  opens (status_file h) -> exists s', collect_status h proc_path s = (Ok tt, s').
Proof.
  intros Ho. unfold collect_status.
  destruct (status_file h) as [|[text|e]] eqn:E.
  - rewrite read_step_missing. eauto.
  - rewrite read_step_text. eexists. reflexivity.
  - destruct (Ho e). reflexivity.
Qed.

Lemma collect_cmdline_returns (h : host) (proc_path : string) (s : collector) :
  opens (cmdline_file h) -> exists s', collect_cmdline h proc_path s = (Ok tt, s').
Proof.
  intros Ho. unfold collect_cmdline.
  destruct (cmdline_file h) as [|[text|e]] eqn:E.
  - rewrite read_step_missing. eauto.
  - rewrite read_step_text. eexists. reflexivity.
  - destruct (Ho e). reflexivity.
Qed.

(** The loop over the first descriptors: a link that is read adds its pair
    to [fd_details], a link that raises adds nothing, and the loop goes on
    either way. *)
Lemma fd_loop_run (fd_path : string) (entries : list (string * result string))
    (info : gmap string value) (calls : list syscall) (l0 : list (string * string)) :
  info !! "fd_details" = Some (VPairs l0) ->
  for_each entries (fun '(fd, link) =>
    try_except
      (target ← call (Readlink (fd_path +:+ "/" +:+ fd)) link;
       append_fd_detail fd target)
      any_exception (fun _ => mret tt)) (info, calls)
  = (Ok tt, (<["fd_details" := VPairs (l0 ++ resolved entries)]> info,
             calls ++ (readlink_call fd_path <$> entries))).
Proof.
  revert info calls l0. induction entries as [|[fd link] entries IH]; intros info calls l0 Hl.
  - simpl. unfold mret, M_ret. rewrite !app_nil_r. now rewrite insert_id.
  - cbn [for_each]. unfold mbind at 1, M_bind at 1.
    destruct link as [target|e].
    + assert (E : try_except
                    (target0 ← call (Readlink (fd_path +:+ "/" +:+ fd)) (Ok target);
                     append_fd_detail fd target0)
                    any_exception (fun _ => mret tt) (info, calls)
                  = (Ok tt, (<["fd_details" := VPairs (l0 ++ [(fd, target)])]> info,
                             calls ++ [Readlink (fd_path +:+ "/" +:+ fd)]))).
      { unfold try_except, mbind, M_bind, call, append_fd_detail, update, modify. simpl.
        now rewrite Hl. }
      rewrite E. rewrite (IH _ _ (l0 ++ [(fd, target)])) by apply lookup_insert_eq.
      rewrite insert_insert_eq. simpl. now rewrite <- !app_assoc.
    + assert (E : try_except
                    (target0 ← call (Readlink (fd_path +:+ "/" +:+ fd)) (Raise e);
                     append_fd_detail fd target0)
                    any_exception (fun _ => mret tt) (info, calls)
                  = (Ok tt, (info, calls ++ [Readlink (fd_path +:+ "/" +:+ fd)]))).
      { reflexivity. }
      rewrite E. rewrite (IH _ _ l0) by exact Hl. simpl. now rewrite <- !app_assoc.
Qed.

Lemma resolved_length (entries : list (string * result string)) :
  (length (resolved entries) <= length entries)%nat.
Proof.
  induction entries as [|[fd [target|e]] entries IH]; simpl; lia.
Qed.

(** The descriptor step when the directory is listed. *)
Lemma collect_fds_listed (h : host) (proc_path : string) (s : collector)
    (entries : list (string * result string)) :
  fd_dir h = Present (Ok entries) ->
  exists calls,
    collect_fds h proc_path s
    = (Ok tt, (<["fd_details" := VPairs (resolved (take 10 entries))]>
                 (<["fd_count" := VInt (Z.of_nat (length entries))]> s.1), calls)).
Proof.
  intros E. unfold collect_fds, os_path_exists. rewrite E.
  erewrite bind_Ok by reflexivity. cbv iota.
  eexists. erewrite try_except_Ok; [reflexivity|].
  erewrite bind_Ok by reflexivity.
  erewrite bind_Ok by reflexivity.
  erewrite bind_Ok by reflexivity. cbn [fst snd].
  rewrite (fd_loop_run _ _ _ _ []) by apply lookup_insert_eq.
  rewrite insert_insert_eq. reflexivity.
Qed.

(** The descriptor step when listing the directory is refused. *)
Lemma collect_fds_denied (h : host) (proc_path : string) (s : collector) (e : exn) :
  fd_dir h = Present (Raise e) ->
  class_of e = PermissionError ->
  exists calls,
    collect_fds h proc_path s
    = (Ok tt, (<["fd_count" := VStr "(Permission denied)"]> s.1, calls)).
Proof.
  intros E Hc. unfold collect_fds, os_path_exists. rewrite E.
  erewrite bind_Ok by reflexivity. cbv iota.
  eexists. eapply eq_trans;
    [apply try_except_handled with (e := e); [reflexivity | now rewrite Hc] | reflexivity].
Qed.

(** The descriptor step raises only when listing the directory raises
    something other than [PermissionError]. *)
Lemma collect_fds_raises (h : host) (proc_path : string) (s s' : collector) (e : exn) :
  collect_fds h proc_path s = (Raise e, s') ->
  fd_dir h = Present (Raise e) /\ class_of e <> PermissionError.
Proof.
  destruct (fd_dir h) as [|[entries|e0]] eqn:E.
  - unfold collect_fds, os_path_exists. rewrite E. discriminate.
  - destruct (collect_fds_listed h proc_path s entries E) as [calls ->]. discriminate.
  - destruct (class_of e0) eqn:Hc;
      try (unfold collect_fds, os_path_exists; rewrite E;
           erewrite bind_Ok by reflexivity; cbv iota;
           erewrite (try_except_passed _ _ _ _ _ e0) by (reflexivity || now rewrite Hc);
           intros [= <- <-]; split; [reflexivity | congruence]).
    destruct (collect_fds_denied h proc_path s e0 E Hc) as [calls ->]. discriminate.
Qed.

(** ** [get_proc_info]: the memory record *)

Lemma pages_to_kb_exact (text : string) (i : nat) (v page_size : Z) :
  statm_field text i = Ok v ->
  binary64_over_1024 (v * page_size) ->
  exists x q,
    pages_to_kb (split_ws (strip text)) i page_size = Ok x
    /\ Q_of_float x = Some q
    /\ (q == (v * page_size # 1024))%Q.
Proof.
  unfold statm_field, pages_to_kb. intros Hf Hlt.
  destruct (index (split_ws (strip text)) i) as [field|e]; [|discriminate].
  rewrite Hf.
  destruct (int_truediv_1024_exact (v * page_size) Hlt) as (m & e & -> & Hq).
  exists (Finite m e). eexists. split; [reflexivity|]. split; [reflexivity | exact Hq].
Qed.

(** The field is exact only for such records: a float returned for field
    [i] that stands for [v * page_size / 1024] shows that this quotient is a
    binary64 value. *)
Lemma pages_to_kb_exact_only (text : string) (i : nat) (v page_size : Z) (x : pyfloat) (q : Q) :
  statm_field text i = Ok v ->
  pages_to_kb (split_ws (strip text)) i page_size = Ok x ->
  Q_of_float x = Some q ->
  (q == (v * page_size # 1024))%Q ->
  binary64_over_1024 (v * page_size).
Proof.
  unfold statm_field, pages_to_kb. intros Hf Hp Hx Hq.
  destruct (index (split_ws (strip text)) i) as [field|e]; [|discriminate].
  rewrite Hf in Hp.
  destruct x as [m e| |]; try discriminate. injection Hx as <-.
  exact (int_truediv_1024_exact_only _ m e Hp Hq).
Qed.

(** The steps after the memory record write other fields only. *)
Lemma after_memory_touches (h : host) (proc_path : string) :
  touches_only ["cpu"; "uptime"; "fd_count"; "fd_details"; "io"]
    (collect_cpu h proc_path;; collect_fds h proc_path;; collect_io h proc_path).
Proof.
  apply touches_only_bind; [|intros _; apply touches_only_bind; [|intros _]].
  - eapply touches_only_weaken; [|apply collect_cpu_touches]. simpl. tauto.
  - eapply touches_only_weaken; [|apply collect_fds_touches]. simpl. tauto.
  - eapply touches_only_weaken; [|apply collect_io_touches]. simpl. tauto.
Qed.

(** A field of more than 4300 digits, leading zeros counted, is refused by
    [int()]: the memory step of [padded_statm] raises, and the snapshot
    holds the field [error] and no [memory] mapping. *)
Example get_proc_info_memory_digit_limit :
  (exists e, statm_field (unlines [repeat_char "0" 4301 +:+ "1 1200 300 200 0 700 0"]) 0
             = Raise e
             /\ class_of e = ValueError
             /\ str_of e = "Exceeds the limit (4300 digits) for integer string conversion: value has 4302 digits; use sys.set_int_max_str_digits() to increase the limit")
  /\ statm_field (unlines [repeat_char "0" 4299 +:+ "1 1200 300 200 0 700 0"]) 0 = Ok 1
  /\ exists info,
       get_proc_info padded_statm "4242" = Ok info
       /\ info !! "memory" = None
       /\ info !! "error"
          = Some (VStr "Error reading process information: Exceeds the limit (4300 digits) for integer string conversion: value has 4302 digits; use sys.set_int_max_str_digits() to increase the limit").
Proof.
  split; [eexists; split; [vm_compute; reflexivity | split; reflexivity]|].
  split; [vm_compute; reflexivity|].
  eexists. split; [vm_compute; reflexivity|]. split; vm_compute; reflexivity.
Qed.

(** The memory record of [huge_statm] has the seven numeric fields, and the
    first field reported differs from pages times page size over 1024:
    [(2^53 + 1) * 4096 / 1024 = 2^55 + 4] is not a binary64 value and the
    division returns [2^55]. *)
Lemma get_proc_info_memory_field_rounded :
  statm_field (unlines ["9007199254740993 1200 300 200 0 700 0"]) 0 = Ok 9007199254740993
  /\ SC_PAGE_SIZE huge_statm = 4096
  /\ exists info m x q,
       get_proc_info huge_statm "4242" = Ok info
       /\ info !! "memory" = Some (VDict m)
       /\ m !! "total_program_size" = Some (VFloat x)
       /\ Q_of_float x = Some q
       /\ (q == 36028797018963968 # 1)%Q
       /\ ~ (q == (9007199254740993 * 4096 # 1024))%Q.
Proof.
  split; [vm_compute; reflexivity|]. split; [reflexivity|].
  eexists _, _, (Finite 4503599627370496 3), _.
  split; [vm_compute; reflexivity|].
  split; [vm_compute; reflexivity|].
  split; [vm_compute; reflexivity|].
  split; [reflexivity|].
  split; vm_compute; congruence.
Qed.

(** Before the memory step no field holds a nested mapping: the status
    block and the command line store strings. *)
Lemma parse_colon_block_no_dict (key text : string) (d : gmap string value) :
  no_dict_at key d -> no_dict_at key (parse_colon_block text d).
Proof.
  unfold parse_colon_block. revert d.
  induction (splitlines text) as [|line lines IH]; intros d Hd; [exact Hd|].
  simpl. apply IH.
  destruct (str_in ":" line); [|exact Hd].
  destruct (split_colon line) as [k v]. intros m.
  destruct (decide (strip k = key)) as [->|Hne].
  - rewrite lookup_insert_eq. discriminate.
  - rewrite lookup_insert_ne by exact Hne. apply Hd.
Qed.

Lemma collect_status_no_dict (h : host) (proc_path key : string) (s s' : collector)
    (r : result unit) :
  no_dict_at key s.1 -> collect_status h proc_path s = (r, s') -> no_dict_at key s'.1.
Proof.
  intros Hs. unfold collect_status.
  destruct (status_file h) as [|[text|e]].
  - rewrite read_step_missing. now intros [= <- <-].
  - rewrite read_step_text. intros [= <- <-]. now apply parse_colon_block_no_dict.
  - rewrite (read_step_raises _ _ e) by reflexivity. now intros [= <- <-].
Qed.

Lemma collect_cmdline_no_dict (h : host) (proc_path key : string) (s s' : collector)
    (r : result unit) :
  no_dict_at key s.1 -> collect_cmdline h proc_path s = (r, s') -> no_dict_at key s'.1.
Proof.
  intros Hs. unfold collect_cmdline.
  destruct (cmdline_file h) as [|[text|e]].
  - rewrite read_step_missing. now intros [= <- <-].
  - rewrite read_step_text. intros [= <- <-]. intros m. simpl.
    destruct (decide ("cmdline" = key)) as [<-|Hne].
    + rewrite lookup_insert_eq. discriminate.
    + rewrite lookup_insert_ne by exact Hne. apply Hs.
  - rewrite (read_step_raises _ _ e) by reflexivity. now intros [= <- <-].
Qed.

(** Off Linux, or for a pid that is gone, the result has the field [error]
    and nothing else. *)
Lemma get_proc_info_early (h : host) (pid : string) :
  platform_system h <> "Linux" \/ proc_path_exists h = false ->
  exists msg, get_proc_info h pid = Ok {[ "error" := VStr msg ]}.
Proof.
  intros Hearly. unfold get_proc_info, get_proc_info_m.
  destruct (String.eqb (platform_system h) "Linux") eqn:E; simpl.
  - apply String.eqb_eq in E. destruct Hearly as [Hn|Hgone]; [congruence|].
    run. rewrite Hgone. simpl. eauto.
  - run. eauto.
Qed.

(** The memory step on a record whose five fields convert. *)
Lemma collect_memory_run (h : host) (proc_path text : string) (s : collector)
    (x0 x1 x2 x3 x5 : pyfloat) :
  statm_file h = Present (Ok text) ->
  pages_to_kb (split_ws (strip text)) 0 (SC_PAGE_SIZE h) = Ok x0 ->
  pages_to_kb (split_ws (strip text)) 1 (SC_PAGE_SIZE h) = Ok x1 ->
  pages_to_kb (split_ws (strip text)) 2 (SC_PAGE_SIZE h) = Ok x2 ->
  pages_to_kb (split_ws (strip text)) 3 (SC_PAGE_SIZE h) = Ok x3 ->
  pages_to_kb (split_ws (strip text)) 5 (SC_PAGE_SIZE h) = Ok x5 ->
  exists calls,
    collect_memory h proc_path s
    = (Ok tt,
       (if (7 <=? length (split_ws (strip text)))%nat
        then <["memory" := VDict (list_to_map
                                    [("total_program_size", VFloat x0);
                                     ("resident_set_size", VFloat x1);
                                     ("shared_pages", VFloat x2);
                                     ("text", VFloat x3);
                                     ("data_stack", VFloat x5)])]> s.1
        else s.1, calls)).
Proof.
  intros Hstatm P0 P1 P2 P3 P5.
  unfold collect_memory. rewrite Hstatm, read_step_text.
  destruct (7 <=? length (split_ws (strip text)))%nat.
  - unfold lift, mbind, M_bind. rewrite P0, P1, P2, P3, P5. eexists. reflexivity.
  - eexists. reflexivity.
Qed.

(** C8 (amended). For a memory record whose first four fields and sixth
    field are integers as [int()] converts them (so of at most 4300 digits)
    that, multiplied by the page size and divided by 1024,
    are binary64 values (as they are when the product stays below [2^53] in
    magnitude): whenever the snapshot holds a [memory] mapping, its entries
    [total_program_size], [resident_set_size], [shared_pages], [text] and
    [data_stack] are floats that stand exactly for the first, second, third,
    fourth and sixth field of the record multiplied by the page size and
    divided by 1024; and the snapshot does hold that mapping, whatever the
    later steps do, when on Linux the pid is there, the status block and the
    command line are read without raising and the record has at least 7
    fields. *)
Theorem get_proc_info_memory_kb (h : host) (pid text : string) (v0 v1 v2 v3 v5 : Z) :
  statm_file h = Present (Ok text) ->
  statm_field text 0 = Ok v0 ->
  statm_field text 1 = Ok v1 ->
  statm_field text 2 = Ok v2 ->
  statm_field text 3 = Ok v3 ->
  statm_field text 5 = Ok v5 ->
  binary64_over_1024 (v0 * SC_PAGE_SIZE h) ->
  binary64_over_1024 (v1 * SC_PAGE_SIZE h) ->
  binary64_over_1024 (v2 * SC_PAGE_SIZE h) ->
  binary64_over_1024 (v3 * SC_PAGE_SIZE h) ->
  binary64_over_1024 (v5 * SC_PAGE_SIZE h) ->
  (forall info m,
     get_proc_info h pid = Ok info ->
     info !! "memory" = Some (VDict m) ->
     reports_kb m "total_program_size" v0 (SC_PAGE_SIZE h)
     /\ reports_kb m "resident_set_size" v1 (SC_PAGE_SIZE h)
     /\ reports_kb m "shared_pages" v2 (SC_PAGE_SIZE h)
     /\ reports_kb m "text" v3 (SC_PAGE_SIZE h)
     /\ reports_kb m "data_stack" v5 (SC_PAGE_SIZE h))
  /\ (platform_system h = "Linux" ->
      proc_path_exists h = true ->
      opens (status_file h) ->
      opens (cmdline_file h) ->
      (7 <= length (split_ws (strip text)))%nat ->
      exists info m,
        get_proc_info h pid = Ok info /\ info !! "memory" = Some (VDict m)).
Proof.
  intros Hstatm F0 F1 F2 F3 F5 B0 B1 B2 B3 B5.
  set (p := "/proc/" +:+ pid).
  destruct (pages_to_kb_exact text 0 v0 _ F0 B0) as (x0 & q0 & P0 & Q0 & R0).
  destruct (pages_to_kb_exact text 1 v1 _ F1 B1) as (x1 & q1 & P1 & Q1 & R1).
  destruct (pages_to_kb_exact text 2 v2 _ F2 B2) as (x2 & q2 & P2 & Q2 & R2).
  destruct (pages_to_kb_exact text 3 v3 _ F3 B3) as (x3 & q3 & P3 & Q3 & R3).
  destruct (pages_to_kb_exact text 5 v5 _ F5 B5) as (x5 & q5 & P5 & Q5 & R5).
  set (M0 := list_to_map
               [("total_program_size", VFloat x0); ("resident_set_size", VFloat x1);
                ("shared_pages", VFloat x2); ("text", VFloat x3);
                ("data_stack", VFloat x5)] : gmap string value).
  assert (HM0 : reports_kb M0 "total_program_size" v0 (SC_PAGE_SIZE h)
                /\ reports_kb M0 "resident_set_size" v1 (SC_PAGE_SIZE h)
                /\ reports_kb M0 "shared_pages" v2 (SC_PAGE_SIZE h)
                /\ reports_kb M0 "text" v3 (SC_PAGE_SIZE h)
                /\ reports_kb M0 "data_stack" v5 (SC_PAGE_SIZE h)).
  { unfold reports_kb.
    repeat split; eexists _, _; (split; [reflexivity|]); split; eassumption. }
  assert (Hkey : ~ In "memory" ["cpu"; "uptime"; "fd_count"; "fd_details"; "io"]).
  { simpl. intros [H|[H|[H|[H|[H|[]]]]]]; discriminate. }
  split.
  - intros info m Hget Hmem.
    destruct (decide (platform_system h = "Linux")) as [Hsys|Hsys].
    2:{ destruct (get_proc_info_early h pid (or_introl Hsys)) as [msg E].
        rewrite E in Hget. injection Hget as <-.
        rewrite lookup_singleton_ne in Hmem by discriminate. discriminate. }
    destruct (proc_path_exists h) eqn:Hex.
    2:{ destruct (get_proc_info_early h pid (or_intror Hex)) as [msg E].
        rewrite E in Hget. injection Hget as <-.
        rewrite lookup_singleton_ne in Hmem by discriminate. discriminate. }
    destruct (collect_all h p (∅, [Exists p])) as [r s] eqn:Eall.
    destruct (get_proc_info_unfold h pid r s Hsys Hex Eall) as [E _].
    rewrite E in Hget. injection Hget as <-.
    assert (Hs : s.1 !! "memory" = Some (VDict m)).
    { destruct r as [[]|e]; [exact Hmem|].
      now rewrite lookup_insert_ne in Hmem by discriminate. }
    clear Hmem E. revert Eall. unfold collect_all.
    assert (H0 : no_dict_at "memory" (∅ : gmap string value, [Exists p]).1).
    { intros m'. simpl. rewrite lookup_empty. discriminate. }
    destruct (collect_status h p (∅, [Exists p])) as [r1 s1] eqn:E1.
    pose proof (collect_status_no_dict h p "memory" _ _ _ H0 E1) as H1.
    destruct r1 as [[]|e1].
    2:{ rewrite (bind_Raise _ _ _ _ _ E1). intros [= <- <-]. destruct (H1 m Hs). }
    rewrite (bind_Ok _ _ _ _ _ E1).
    destruct (collect_cmdline h p s1) as [r2 s2] eqn:E2.
    pose proof (collect_cmdline_no_dict h p "memory" _ _ _ H1 E2) as H2.
    destruct r2 as [[]|e2].
    2:{ rewrite (bind_Raise _ _ _ _ _ E2). intros [= <- <-]. destruct (H2 m Hs). }
    rewrite (bind_Ok _ _ _ _ _ E2).
    destruct (collect_memory_run h p text s2 _ _ _ _ _ Hstatm P0 P1 P2 P3 P5)
      as [calls3 E3].
    rewrite (bind_Ok _ _ _ _ _ E3). intros E4.
    rewrite (after_memory_touches h p _ _ _ "memory" E4 Hkey) in Hs.
    cbn [fst] in Hs.
    destruct (7 <=? length (split_ws (strip text)))%nat.
    + rewrite lookup_insert_eq in Hs. injection Hs as <-. exact HM0.
    + destruct (H2 m Hs).
  - intros Hsys Hex Hstatus Hcmdline Hlen.
    destruct (collect_status_returns h p (∅, [Exists p]) Hstatus) as [s1 E1].
    destruct (collect_cmdline_returns h p s1 Hcmdline) as [s2 E2].
    destruct (collect_memory_run h p text s2 _ _ _ _ _ Hstatm P0 P1 P2 P3 P5)
      as [calls3 E3].
    apply Nat.leb_le in Hlen. rewrite Hlen in E3. fold M0 in E3.
    destruct ((collect_cpu h p;; collect_fds h p;; collect_io h p)
                (<["memory" := VDict M0]> s2.1, calls3)) as [r s4] eqn:E4.
    assert (Hmem : s4.1 !! "memory" = Some (VDict M0)).
    { rewrite (after_memory_touches h p _ _ _ "memory" E4 Hkey). apply lookup_insert_eq. }
    assert (Eall : collect_all h p (∅, [Exists p]) = (r, s4)).
    { unfold collect_all.
      rewrite (bind_Ok _ _ _ _ _ E1), (bind_Ok _ _ _ _ _ E2), (bind_Ok _ _ _ _ _ E3).
      exact E4. }
    destruct (get_proc_info_unfold h pid r s4 Hsys Hex Eall) as [-> _].
    eexists _, M0. split; [reflexivity|].
    destruct r as [[]|e]; [exact Hmem|].
    rewrite lookup_insert_ne by discriminate. exact Hmem.
Qed.

Lemma get_proc_info_memory_kb_witness :
  (forall info m,
     get_proc_info shell_process "4242" = Ok info ->
     info !! "memory" = Some (VDict m) ->
     reports_kb m "total_program_size" 2500 (SC_PAGE_SIZE shell_process)
     /\ reports_kb m "resident_set_size" 1200 (SC_PAGE_SIZE shell_process)
     /\ reports_kb m "shared_pages" 300 (SC_PAGE_SIZE shell_process)
     /\ reports_kb m "text" 200 (SC_PAGE_SIZE shell_process)
     /\ reports_kb m "data_stack" 700 (SC_PAGE_SIZE shell_process))
  /\ (platform_system shell_process = "Linux" ->
      proc_path_exists shell_process = true ->
      opens (status_file shell_process) ->
      opens (cmdline_file shell_process) ->
      (7 <= length (split_ws (strip (unlines ["2500 1200 300 200 0 700 0"]))))%nat ->
      exists info m,
        get_proc_info shell_process "4242" = Ok info
        /\ info !! "memory" = Some (VDict m)).
Proof.
  apply (get_proc_info_memory_kb shell_process "4242"
           (unlines ["2500 1200 300 200 0 700 0"]) 2500 1200 300 200 700);
    try (apply binary64_over_1024_small); vm_compute; reflexivity.
Defined.

Example get_proc_info_memory_example :
  exists info,
    get_proc_info shell_process "4242" = Ok info
    /\ info !! "memory"
       = Some (VDict (list_to_map
                        [("total_program_size", VFloat (Finite 5497558138880000 (-39)));
                         ("resident_set_size", VFloat (Finite 5277655813324800 (-40)));
                         ("shared_pages", VFloat (Finite 5277655813324800 (-42)));
                         ("text", VFloat (Finite 7036874417766400 (-43)));
                         ("data_stack", VFloat (Finite 6157265115545600 (-41)))])).
Proof. eexists. split; vm_compute; reflexivity. Qed.

(** ** [get_proc_info]: the descriptors *)

(** The descriptor directory of [undecodable_cmdline] is listed with its
    twelve entries, and the snapshot has no [fd_count] and no [fd_details]:
    the command line raised before the descriptor step. *)
Lemma get_proc_info_descriptors_not_reached :
  (exists entries,
     fd_dir undecodable_cmdline = Present (Ok entries) /\ length entries = 12%nat)
  /\ exists info,
       get_proc_info undecodable_cmdline "4242" = Ok info
       /\ info !! "fd_count" = None
       /\ info !! "fd_details" = None
       /\ ~ In (Listdir "/proc/4242/fd") (get_proc_info_calls undecodable_cmdline "4242").
Proof.
  split; [eexists; split; reflexivity|].
  eexists. split; [vm_compute; reflexivity|].
  split; [vm_compute; reflexivity|]. split; [vm_compute; reflexivity|].
  vm_compute. intros [H|[H|[H|[H|[H|[]]]]]]; discriminate.
Qed.

(** C9 (amended). On Linux, for a pid that is there and for which the steps
    before the descriptors (status, command line, memory, CPU) have run
    without raising: when the descriptor directory is listed, [fd_count] is
    the exact number of entries and [fd_details] holds, in order, the
    (descriptor, target) pairs of those among the first 10 entries whose
    link could be read, so at most 10 pairs; when listing it raises
    [PermissionError], [fd_count] is the string "(Permission denied)" and
    not a number, and [fd_details] is not set by the step. *)
Theorem get_proc_info_descriptors (h : host) (pid : string) (s : collector) :
  platform_system h = "Linux" ->
  proc_path_exists h = true ->
  collect_before_fds h ("/proc/" +:+ pid) (∅, [Exists ("/proc/" +:+ pid)]) = (Ok tt, s) ->
  exists info,
    get_proc_info h pid = Ok info
    /\ (forall entries, fd_dir h = Present (Ok entries) ->
          info !! "fd_count" = Some (VInt (Z.of_nat (length entries)))
          /\ info !! "fd_details" = Some (VPairs (resolved (take 10 entries)))
          /\ (length (resolved (take 10 entries)) <= 10)%nat)
    /\ (forall e, fd_dir h = Present (Raise e) -> class_of e = PermissionError ->
          info !! "fd_count" = Some (VStr "(Permission denied)")
          /\ info !! "fd_details" = s.1 !! "fd_details").
Proof.
  intros Hsys Hex Hbefore. set (p := "/proc/" +:+ pid) in *.
  destruct (collect_fds h p s) as [[[]|e] s1] eqn:Efds.
  - destruct (collect_io_returns h p s1) as [s2 Eio].
    assert (Eall : collect_all h p (∅, [Exists p]) = (Ok tt, s2)).
    { rewrite collect_all_split.
      rewrite (bind_Ok _ _ _ _ _ Hbefore), (bind_Ok _ _ _ _ _ Efds). exact Eio. }
    destruct (get_proc_info_unfold h pid _ _ Hsys Hex Eall) as [-> _].
    assert (Hio : forall key, key <> "io" -> s2.1 !! key = s1.1 !! key).
    { intros key Hkey. apply (collect_io_touches h p _ _ _ key Eio).
      simpl. intros [H|[]]. congruence. }
    eexists. split; [reflexivity|]. split.
    + intros entries Hdir.
      destruct (collect_fds_listed h p s entries Hdir) as [calls E].
      rewrite E in Efds. injection Efds as <-.
      rewrite !Hio by discriminate. simpl.
      split; [rewrite lookup_insert_ne by discriminate; apply lookup_insert_eq|].
      split; [apply lookup_insert_eq|].
      etransitivity; [apply resolved_length|]. rewrite length_take. lia.
    + intros e Hdir Hc.
      destruct (collect_fds_denied h p s e Hdir Hc) as [calls E].
      rewrite E in Efds. injection Efds as <-.
      rewrite !Hio by discriminate. simpl.
      split; [apply lookup_insert_eq | now rewrite lookup_insert_ne by discriminate].
  - destruct (collect_fds_raises h p s s1 e Efds) as [Hdir Hc].
    assert (Eall : collect_all h p (∅, [Exists p]) = (Raise e, s1)).
    { rewrite collect_all_split.
      rewrite (bind_Ok _ _ _ _ _ Hbefore). now apply bind_Raise. }
    destruct (get_proc_info_unfold h pid _ _ Hsys Hex Eall) as [-> _].
    eexists. split; [reflexivity|]. split.
    + intros entries Hdir'. congruence.
    + intros e' Hdir' Hc'. congruence.
Qed.

Lemma get_proc_info_descriptors_witness :
  exists info,
    get_proc_info shell_process "4242" = Ok info
    /\ (forall entries, fd_dir shell_process = Present (Ok entries) ->
          info !! "fd_count" = Some (VInt (Z.of_nat (length entries)))
          /\ info !! "fd_details" = Some (VPairs (resolved (take 10 entries)))
          /\ (length (resolved (take 10 entries)) <= 10)%nat)
    /\ (forall e, fd_dir shell_process = Present (Raise e) -> class_of e = PermissionError ->
          info !! "fd_count" = Some (VStr "(Permission denied)")
          /\ info !! "fd_details"
             = (collect_before_fds shell_process ("/proc/" +:+ "4242")
                  (∅, [Exists ("/proc/" +:+ "4242")])).2.1 !! "fd_details").
Proof.
  apply (get_proc_info_descriptors shell_process "4242"
           (collect_before_fds shell_process ("/proc/" +:+ "4242")
              (∅, [Exists ("/proc/" +:+ "4242")])).2).
  - reflexivity.
  - reflexivity.
  - vm_compute. reflexivity.
Defined.

Example get_proc_info_descriptors_example :
  exists info,
    get_proc_info shell_process "4242" = Ok info
    /\ info !! "fd_count" = Some (VInt 12)
    /\ info !! "fd_details"
       = Some (VPairs [("0", "/dev/pts/0"); ("1", "/dev/pts/0"); ("2", "/dev/pts/0");
                       ("3", "socket:[31337]"); ("4", "pipe:[4711]");
                       ("5", "/var/log/a.log"); ("7", "/var/log/b.log");
                       ("8", "/var/log/c.log"); ("9", "/var/log/d.log")])
    /\ info !! "cmdline" = Some (VStr "prog --flag val").
Proof.
  eexists. split; [vm_compute; reflexivity|]. repeat split; vm_compute; reflexivity.
Qed.

Example get_proc_info_permission_denied_example :
  exists info,
    get_proc_info kernel_thread "2" = Ok info
    /\ info !! "fd_count" = Some (VStr "(Permission denied)")
    /\ info !! "fd_details" = None
    /\ info !! "io" = Some (VStr "(Unable to read I/O statistics)")
    /\ info !! "error" = None.
Proof.
  eexists. split; [vm_compute; reflexivity|]. repeat split; vm_compute; reflexivity.
Qed.

(** ** [get_proc_info]: failures *)

Lemma collect_io_unreadable (h : host) (proc_path : string) (s : collector) (e : exn) :
  io_file h = Present (Raise e) ->
  exists calls,
    collect_io h proc_path s
    = (Ok tt, (<["io" := VStr "(Unable to read I/O statistics)"]> s.1, calls)).
Proof.
  intros E. unfold collect_io, os_path_exists. rewrite E.
  erewrite bind_Ok by reflexivity. eexists. reflexivity.
Qed.

(** The command line of [undecodable_cmdline] does not decode; its memory
    record, descriptor directory and I/O counters are all there and
    readable, and none of them is collected: the snapshot holds the status
    fields and the [error] field, and the last call made is the read of the
    command line. *)
Lemma get_proc_info_failure_ends_collection :
  proc_path_exists undecodable_cmdline = true
  /\ statm_file undecodable_cmdline = Present (Ok (unlines ["2500 1200 300 200 0 700 0"]))
  /\ io_file undecodable_cmdline = Present (Ok (unlines ["rchar: 1024"; "wchar: 2048"]))
  /\ exists info,
       get_proc_info undecodable_cmdline "4242" = Ok info
       /\ info !! "Name" = Some (VStr "bash")
       /\ is_Some (info !! "error")
       /\ info !! "memory" = None
       /\ info !! "fd_count" = None
       /\ info !! "io" = None
       /\ get_proc_info_calls undecodable_cmdline "4242"
          = [Exists "/proc/4242";
             Exists "/proc/4242/status"; Open "/proc/4242/status";
             Exists "/proc/4242/cmdline"; Open "/proc/4242/cmdline"].
Proof.
  split; [reflexivity|]. split; [reflexivity|]. split; [reflexivity|].
  eexists. split; [vm_compute; reflexivity|].
  split; [vm_compute; reflexivity|].
  split; [eexists; vm_compute; reflexivity|].
  repeat split; vm_compute; reflexivity.
Qed.

(** C2 (amended). On Linux, for a pid that is there, [get_proc_info] returns
    a snapshot and does not raise.  The six steps run in order; the first
    step that raises ends the collection: the snapshot is the mapping as it
    was when the step raised, with the field [error] holding the message,
    and no call of a later step is made.  A read of the status block, the
    command line, the memory record or the CPU record that raises makes its
    step raise, with the mapping unchanged.  The descriptor step raises only
    when listing the directory raises something other than
    [PermissionError]; the I/O step never raises, and a read of the I/O
    counters that raises stores a fixed string under [io].  When no step
    raises the snapshot is the mapping the steps built. *)
Theorem get_proc_info_failures (h : host) (pid : string) :
  platform_system h = "Linux" ->
  proc_path_exists h = true ->
  (exists info, get_proc_info h pid = Ok info)
  /\ (forall done step rest s e s',
        collection_steps h ("/proc/" +:+ pid) = done ++ step :: rest ->
        run_steps done (∅, [Exists ("/proc/" +:+ pid)]) = (Ok tt, s) ->
        step s = (Raise e, s') ->
        get_proc_info h pid
        = Ok (<["error" := VStr ("Error reading process information: " +:+ str_of e)]> s'.1)
        /\ get_proc_info_calls h pid = s'.2)
  /\ (forall s,
        run_steps (collection_steps h ("/proc/" +:+ pid)) (∅, [Exists ("/proc/" +:+ pid)])
        = (Ok tt, s) ->
        get_proc_info h pid = Ok s.1)
  /\ (forall s e,
        (status_file h = Present (Raise e) ->
           exists calls, collect_status h ("/proc/" +:+ pid) s = (Raise e, (s.1, calls)))
        /\ (cmdline_file h = Present (Raise e) ->
              exists calls, collect_cmdline h ("/proc/" +:+ pid) s = (Raise e, (s.1, calls)))
        /\ (statm_file h = Present (Raise e) ->
              exists calls, collect_memory h ("/proc/" +:+ pid) s = (Raise e, (s.1, calls)))
        /\ (stat_file h = Present (Raise e) ->
              exists calls, collect_cpu h ("/proc/" +:+ pid) s = (Raise e, (s.1, calls))))
  /\ (forall s e s',
        collect_fds h ("/proc/" +:+ pid) s = (Raise e, s') ->
        fd_dir h = Present (Raise e) /\ class_of e <> PermissionError)
  /\ (forall s, exists s', collect_io h ("/proc/" +:+ pid) s = (Ok tt, s'))
  /\ (forall s e,
        io_file h = Present (Raise e) ->
        exists calls,
          collect_io h ("/proc/" +:+ pid) s
          = (Ok tt, (<["io" := VStr "(Unable to read I/O statistics)"]> s.1, calls))).
Proof.
  intros Hsys Hex. set (p := "/proc/" +:+ pid).
  split.
  { destruct (collect_all h p (∅, [Exists p])) as [r s] eqn:E.
    destruct (get_proc_info_unfold h pid r s Hsys Hex E) as [-> _]. eauto. }
  split.
  { intros done step rest s e s' Hsteps Hdone Hstep.
    apply (get_proc_info_unfold h pid (Raise e) s' Hsys Hex).
    fold p. rewrite collect_all_steps, Hsteps.
    rewrite (run_steps_app done (step :: rest) _ s Hdone).
    now apply run_steps_raise. }
  split.
  { intros s Hrun.
    apply (get_proc_info_unfold h pid (Ok tt) s Hsys Hex).
    fold p. now rewrite collect_all_steps. }
  split.
  { intros s e. repeat split; intros E.
    - unfold collect_status. rewrite (read_step_raises _ _ e) by exact E. eauto.
    - unfold collect_cmdline. rewrite (read_step_raises _ _ e) by exact E. eauto.
    - unfold collect_memory. rewrite (read_step_raises _ _ e) by exact E. eauto.
    - unfold collect_cpu. rewrite (read_step_raises _ _ e) by exact E. eauto. }
  split; [intros s e s'; apply collect_fds_raises|].
  split; [intros s; apply collect_io_returns|].
  intros s e. apply collect_io_unreadable.
Qed.

Lemma get_proc_info_failures_witness :
  (exists info, get_proc_info undecodable_cmdline "4242" = Ok info)
  /\ (forall done step rest s e s',
        collection_steps undecodable_cmdline ("/proc/" +:+ "4242") = done ++ step :: rest ->
        run_steps done (∅, [Exists ("/proc/" +:+ "4242")]) = (Ok tt, s) ->
        step s = (Raise e, s') ->
        get_proc_info undecodable_cmdline "4242"
        = Ok (<["error" := VStr ("Error reading process information: " +:+ str_of e)]> s'.1)
        /\ get_proc_info_calls undecodable_cmdline "4242" = s'.2)
  /\ (forall s,
        run_steps (collection_steps undecodable_cmdline ("/proc/" +:+ "4242"))
          (∅, [Exists ("/proc/" +:+ "4242")])
        = (Ok tt, s) ->
        get_proc_info undecodable_cmdline "4242" = Ok s.1)
  /\ (forall s e,
        (status_file undecodable_cmdline = Present (Raise e) ->
           exists calls,
             collect_status undecodable_cmdline ("/proc/" +:+ "4242") s
             = (Raise e, (s.1, calls)))
        /\ (cmdline_file undecodable_cmdline = Present (Raise e) ->
              exists calls,
                collect_cmdline undecodable_cmdline ("/proc/" +:+ "4242") s
                = (Raise e, (s.1, calls)))
        /\ (statm_file undecodable_cmdline = Present (Raise e) ->
              exists calls,
                collect_memory undecodable_cmdline ("/proc/" +:+ "4242") s
                = (Raise e, (s.1, calls)))
        /\ (stat_file undecodable_cmdline = Present (Raise e) ->
              exists calls,
                collect_cpu undecodable_cmdline ("/proc/" +:+ "4242") s
                = (Raise e, (s.1, calls))))
  /\ (forall s e s',
        collect_fds undecodable_cmdline ("/proc/" +:+ "4242") s = (Raise e, s') ->
        fd_dir undecodable_cmdline = Present (Raise e) /\ class_of e <> PermissionError)
  /\ (forall s, exists s', collect_io undecodable_cmdline ("/proc/" +:+ "4242") s = (Ok tt, s'))
  /\ (forall s e,
        io_file undecodable_cmdline = Present (Raise e) ->
        exists calls,
          collect_io undecodable_cmdline ("/proc/" +:+ "4242") s
          = (Ok tt, (<["io" := VStr "(Unable to read I/O statistics)"]> s.1, calls))).
Proof.
  apply (get_proc_info_failures undecodable_cmdline "4242"); reflexivity.
Defined.

(* ------------------------------------------------------------------ *)
(** ** The process listing *)

(** ** More on strings *)

Lemma append_cons (c : ascii) (a b : string) : String c a +:+ b = String c (a +:+ b).
Proof. reflexivity. Qed.

Lemma append_nil_l (b : string) : "" +:+ b = b.
Proof. reflexivity. Qed.

Lemma chars_app (a b : string) : chars (a +:+ b) = chars a ++ chars b.
Proof.
  induction a as [|c a IH]; [reflexivity|].
  rewrite append_cons. unfold chars in *. simpl. now rewrite IH.
Qed.

Lemma append_assoc (a b c : string) : (a +:+ b) +:+ c = a +:+ b +:+ c.
Proof.
  induction a as [|x a IH]; [reflexivity|]. rewrite !append_cons. now rewrite IH.
Qed.


Lemma rstrip_blank (s : string) :
  Forall (fun c => isspace c = true) (chars s) -> rstrip s = "".
Proof.
  induction s as [|c s IH]; simpl; [reflexivity|].
  intros H. inversion H as [|? ? Hc Hs]; subst. now rewrite (IH Hs), Hc.
Qed.

Lemma rstrip_app_blank (a b : string) : rstrip b = "" -> rstrip (a +:+ b) = rstrip a.
Proof.
  intros Hb. induction a as [|c a IH]; [exact Hb|].
  rewrite append_cons. simpl. now rewrite IH.
Qed.

Lemma rstrip_app_keep (a b : string) :
  rstrip b <> "" -> rstrip (a +:+ b) = a +:+ rstrip b.
Proof.
  intros Hb. induction a as [|c a IH]; [reflexivity|].
  rewrite !append_cons. simpl.
  rewrite IH. destruct (a +:+ rstrip b) eqn:E; [|reflexivity].
  destruct a; [contradiction | discriminate].
Qed.

Lemma lstrip_nonspace (c : ascii) (s : string) :
  isspace c = false -> lstrip (String c s) = String c s.
Proof. intros H. simpl. now rewrite H. Qed.

(** A string that [lstrip] leaves alone and is not empty starts with a
    character that is not white space. *)
Lemma lstrip_fixed (s : string) :
  s <> "" -> lstrip s = s -> exists c r, s = String c r /\ isspace c = false.
Proof.
  destruct s as [|c r]; [congruence|]. intros _ H. exists c, r. split; [reflexivity|].
  simpl in H. destruct (isspace c) eqn:E; [|reflexivity].
  exfalso. assert (Hlen : (String.length (lstrip r) <= String.length r)%nat).
  { clear. induction r as [|x r IH]; simpl; [lia|]. destruct (isspace x); simpl; lia. }
  rewrite H in Hlen. simpl in Hlen. lia.
Qed.

Lemma lstrip_app (a b : string) :
  a <> "" -> lstrip a = a -> lstrip (a +:+ b) = a +:+ b.
Proof.
  intros Ha H. destruct (lstrip_fixed a Ha H) as (c & r & -> & Hc).
  rewrite append_cons. simpl. now rewrite Hc.
Qed.

(** ** [split_char] *)

Lemma split_char_nonempty (sep : ascii) (s : string) : split_char sep s <> [].
Proof.
  destruct s as [|c s]; simpl; [discriminate|].
  destruct (Ascii.eqb c sep); [discriminate|].
  destruct (split_char sep s); discriminate.
Qed.

Lemma split_char_no_sep (sep : ascii) (s : string) :
  Forall (fun piece => ~ In sep (chars piece)) (split_char sep s).
Proof.
  induction s as [|c s IH]; simpl.
  - constructor; [intros []|constructor].
  - destruct (Ascii.eqb_spec c sep) as [->|Hne].
    + constructor; [intros []|exact IH].
    + destruct (split_char sep s) as [|piece pieces]; simpl.
      * constructor; [|constructor]. simpl. intros [H|[]]. congruence.
      * inversion IH as [|? ? Hp Hps]; subst. constructor; [|exact Hps].
        simpl. intros [H|H]; [congruence | exact (Hp H)].
Qed.

(** Splitting what [join] put together gives the pieces back. *)
Lemma split_char_piece (sep : ascii) (piece rest : string) :
  ~ In sep (chars piece) ->
  split_char sep (piece +:+ String sep rest) = piece :: split_char sep rest.
Proof.
  induction piece as [|c piece IH]; intros Hp.
  - simpl. now rewrite Ascii.eqb_refl.
  - rewrite append_cons. simpl in *.
    destruct (Ascii.eqb_spec c sep) as [->|Hne]; [tauto|].
    rewrite IH by tauto. reflexivity.
Qed.

Lemma split_char_last (sep : ascii) (piece : string) :
  ~ In sep (chars piece) -> split_char sep piece = [piece].
Proof.
  induction piece as [|c piece IH]; simpl; intros Hp; [reflexivity|].
  destruct (Ascii.eqb_spec c sep) as [->|Hne]; [tauto|].
  rewrite IH by tauto. reflexivity.
Qed.

Lemma split_char_join (sep : ascii) (pieces : list string) :
  pieces <> [] ->
  Forall (fun piece => ~ In sep (chars piece)) pieces ->
  split_char sep (join (String sep "") pieces) = pieces.
Proof.
  induction pieces as [|piece pieces IH]; [congruence|]. intros _ H.
  inversion H as [|? ? Hp Hps]; subst.
  destruct pieces as [|piece' pieces].
  - simpl. now apply split_char_last.
  - change (join (String sep "") (piece :: piece' :: pieces))
      with (piece +:+ String sep "" +:+ join (String sep "") (piece' :: pieces)).
    rewrite append_cons, append_nil_l.
    rewrite split_char_piece by exact Hp. f_equal. apply IH; [discriminate | exact Hps].
Qed.

(** ** [split(None, maxsplit)] *)

Lemma cons_head_eq (c : ascii) (w : string) (pieces : list string) :
  cons_head c (w :: pieces) = String c w :: pieces.
Proof. reflexivity. Qed.

(** While a word is read the result starts with the rest of that word. *)
Lemma split_max_aux_inword (s : string) (n : nat) :
  exists w pieces, split_max_aux s true n = w :: pieces.
Proof.
  induction s as [|c s IH]; simpl; [eauto|].
  destruct (isspace c); [eauto|].
  destruct IH as (w & pieces & ->). simpl. eauto.
Qed.

Lemma split_max_aux_shape (s : string) :
  forall n,
    split_shape n (split_max_aux s false n)
    /\ exists w pieces,
         split_max_aux s true n = w :: pieces
         /\ Forall (fun c => isspace c = false) (chars w)
         /\ split_shape n pieces.
Proof.
  induction s as [|c s IH]; intros n.
  - simpl. split; [exact I|]. exists "", []. repeat split; constructor.
  - destruct (IH n) as [Hout (w & pieces & E & Hw & Hp)].
    simpl. destruct (isspace c) eqn:Hc.
    + split; [exact Hout|]. exists "", (split_max_aux s false n).
      repeat split; [constructor | exact Hout].
    + split.
      * destruct n as [|n']; [simpl; split; [reflexivity|]; exists c, s; auto|].
        destruct (IH n') as [_ (w' & pieces' & E' & Hw' & Hp')].
        rewrite E'. simpl. split; [|exact Hp'].
        split; [discriminate|]. constructor; assumption.
      * rewrite E. exists (String c w), pieces. repeat split; [|exact Hp].
        constructor; assumption.
Qed.

Lemma split_shape_word (n i : nat) (pieces : list string) (w : string) :
  split_shape n pieces -> pieces !! i = Some w -> (i < n)%nat -> is_word w.
Proof.
  revert i pieces. induction n as [|n IH]; intros i pieces Hs Hi Hlt; [lia|].
  destruct pieces as [|p pieces]; [discriminate|]. destruct Hs as [Hp Hs].
  destruct i as [|i]; [injection Hi as <-; exact Hp|].
  apply (IH i pieces Hs Hi). lia.
Qed.

Lemma split_shape_last (n : nat) (pieces : list string) (rest : string) :
  split_shape n pieces -> pieces !! n = Some rest ->
  exists c r, rest = String c r /\ isspace c = false.
Proof.
  revert pieces. induction n as [|n IH]; intros pieces Hs Hn.
  - destruct pieces as [|p pieces]; [discriminate|].
    injection Hn as <-. exact (proj2 Hs).
  - destruct pieces as [|p pieces]; [discriminate|]. destruct Hs as [_ Hs].
    exact (IH pieces Hs Hn).
Qed.

(** Every piece is made of characters of the string. *)
Lemma cons_head_chars (c : ascii) (pieces : list string) (P : ascii -> Prop) :
  P c -> Forall (fun piece => Forall P (chars piece)) pieces ->
  Forall (fun piece => Forall P (chars piece)) (cons_head c pieces).
Proof.
  intros Hc Hp. destruct pieces as [|w pieces]; simpl.
  - constructor; [|constructor]. constructor; [exact Hc | constructor].
  - inversion Hp; subst. constructor; [|assumption]. constructor; assumption.
Qed.

Lemma split_max_aux_chars (P : ascii -> Prop) (s : string) :
  Forall P (chars s) ->
  forall inword n, Forall (fun piece => Forall P (chars piece)) (split_max_aux s inword n).
Proof.
  induction s as [|c s IH]; intros Hs inword n.
  - simpl. destruct inword; repeat constructor.
  - inversion Hs as [|? ? Hc Hs']; subst. simpl.
    destruct (isspace c).
    + destruct inword; [constructor; [constructor|]|]; apply IH; assumption.
    + destruct inword; [apply cons_head_chars; auto|].
      destruct n as [|n']; [repeat constructor; assumption|].
      apply cons_head_chars; auto.
Qed.

(** ** [get_all_processes] *)

Lemma ps_line_run (line : string) (s : lister) :
  ps_line line s = (Ok tt, (s.1 ++ option_list (ps_fields line), s.2)).
Proof.
  unfold ps_line, ps_fields. set (parts := split_ws_max line 10).
  destruct (Nat.leb_spec 11 (length parts)) as [Hlen|Hlen].
  - destruct (index_Ok parts 1) as (pid & E1 & L1); [lia|].
    destruct (index_Ok parts 10) as (cmd & E10 & L10); [lia|].
    rewrite L1, L10. unfold mbind, M_bind, lift. rewrite E1, E10. reflexivity.
  - assert (E : parts !! 10%nat = None) by (apply lookup_ge_None; lia).
    rewrite E. destruct (parts !! 1%nat); simpl; unfold mret, M_ret;
      now rewrite app_nil_r; destruct s.
Qed.

Lemma tasklist_line_run (line : string) (s : lister) :
  tasklist_line line s = (Ok tt, (s.1 ++ option_list (tasklist_fields line), s.2)).
Proof.
  unfold tasklist_line, tasklist_fields.
  set (parts := split_str CSV_SEP (strip_char QUOTE (strip line))).
  destruct (Nat.leb_spec 2 (length parts)) as [Hlen|Hlen].
  - destruct (index_Ok parts 1) as (pid & E1 & L1); [lia|].
    destruct (index_Ok parts 0) as (name & E0 & L0); [lia|].
    rewrite L1, L0. unfold mbind, M_bind, lift. rewrite E1, E0. reflexivity.
  - assert (E : parts !! 1%nat = None) by (apply lookup_ge_None; lia).
    rewrite E. simpl. unfold mret, M_ret. now rewrite app_nil_r; destruct s.
Qed.

Lemma for_each_lines (f : string -> M lister unit) (g : string -> option proc)
    (lines : list string) (s : lister) :
  (forall line s, f line s = (Ok tt, (s.1 ++ option_list (g line), s.2))) ->
  for_each lines f s = (Ok tt, (s.1 ++ omap g lines, s.2)).
Proof.
  intros Hf. revert s. induction lines as [|line lines IH]; intros s; simpl.
  - unfold mret, M_ret. rewrite app_nil_r. now destruct s.
  - unfold mbind, M_bind. rewrite Hf, IH. simpl.
    destruct (g line); simpl; now rewrite <- ?app_assoc, ?app_nil_r.
Qed.

(** What [get_all_processes] does on each platform. *)
Lemma get_all_processes_m_linux (output : string) :
  get_all_processes_m "Linux" (Ok output) ([], [])
  = (Ok tt, (omap ps_fields (drop 1 (split_char NEWLINE (strip output))), [])).
Proof.
  unfold get_all_processes_m. cbn [String.eqb Ascii.eqb Bool.eqb andb].
  apply try_except_Ok. erewrite bind_Ok by reflexivity.
  apply (for_each_lines ps_line ps_fields _ ([], [])). apply ps_line_run.
Qed.

Lemma get_all_processes_m_windows (output : string) :
  get_all_processes_m "Windows" (Ok output) ([], [])
  = (Ok tt, (omap tasklist_fields (split_char NEWLINE (strip output)), [])).
Proof.
  unfold get_all_processes_m. cbn [String.eqb Ascii.eqb Bool.eqb andb].
  apply try_except_Ok. erewrite bind_Ok by reflexivity.
  apply (for_each_lines tasklist_line tasklist_fields _ ([], [])).
  apply tasklist_line_run.
Qed.

Lemma get_all_processes_linux (output : string) :
  get_all_processes "Linux" (Ok output)
  = Ok (omap ps_fields (drop 1 (split_char NEWLINE (strip output)))).
Proof. unfold get_all_processes. now rewrite get_all_processes_m_linux. Qed.

Lemma get_all_processes_windows (output : string) :
  get_all_processes "Windows" (Ok output)
  = Ok (omap tasklist_fields (split_char NEWLINE (strip output))).
Proof. unfold get_all_processes. now rewrite get_all_processes_m_windows. Qed.

(** ** The lines of a stripped text *)

Lemma cons_head_length (c : ascii) (pieces : list string) :
  length (cons_head c pieces) = Nat.max 1 (length pieces).
Proof. destruct pieces; reflexivity. Qed.

Lemma split_char_length_pos (sep : ascii) (s : string) :
  (1 <= length (split_char sep s))%nat.
Proof.
  pose proof (split_char_nonempty sep s). destruct (split_char sep s); simpl; [congruence | lia].
Qed.

Lemma split_char_length_tail (sep c : ascii) (s : string) :
  (length (split_char sep s) <= length (split_char sep (String c s)))%nat.
Proof.
  simpl. destruct (Ascii.eqb c sep); simpl; [lia|]. rewrite cons_head_length. lia.
Qed.

Lemma split_char_length_lstrip (sep : ascii) (s : string) :
  (length (split_char sep (lstrip s)) <= length (split_char sep s))%nat.
Proof.
  induction s as [|c s IH]; [reflexivity|].
  pose proof (split_char_length_tail sep c s).
  cbn [lstrip]. destruct (isspace c); [lia | reflexivity].
Qed.

Lemma split_char_length_rstrip (sep : ascii) (s : string) :
  (length (split_char sep (rstrip s)) <= length (split_char sep s))%nat.
Proof.
  induction s as [|c s IH]; [reflexivity|].
  pose proof (split_char_length_pos sep s) as Hpos.
  cbn [rstrip]. destruct (rstrip s) as [|a r] eqn:E.
  - destruct (isspace c).
    + exact (split_char_length_pos sep (String c s)).
    + simpl. destruct (Ascii.eqb c sep); simpl; [lia|]. rewrite cons_head_length. lia.
  - change (split_char sep (String c (String a r)))
      with (if Ascii.eqb c sep then "" :: split_char sep (String a r)
            else cons_head c (split_char sep (String a r))).
    change (split_char sep (String c s))
      with (if Ascii.eqb c sep then "" :: split_char sep s else cons_head c (split_char sep s)).
    destruct (Ascii.eqb c sep); cbn [length]; [lia|].
    rewrite !cons_head_length. lia.
Qed.

Lemma split_char_length_strip (sep : ascii) (s : string) :
  (length (split_char sep (strip s)) <= length (split_char sep s))%nat.
Proof.
  unfold strip. pose proof (split_char_length_rstrip sep (lstrip s)).
  pose proof (split_char_length_lstrip sep s). lia.
Qed.

Lemma omap_length {A B} (f : A -> option B) (l : list A) :
  (length (omap f l) <= length l)%nat.
Proof.
  induction l as [|a l IH]; [reflexivity|].
  change (omap f (a :: l)) with (match f a with Some b => b :: omap f l | None => omap f l end).
  destruct (f a); simpl; lia.
Qed.

(** ** Lines that [ps_format] writes *)

Lemma split_max_aux_word (w : string) (c : ascii) (t : string) (n : nat) :
  Forall (fun c => isspace c = false) (chars w) -> isspace c = true ->
  split_max_aux (w +:+ String c t) true n = w :: split_max_aux t false n.
Proof.
  intros Hw Hc. induction w as [|a w IH].
  - rewrite append_nil_l. simpl. now rewrite Hc.
  - inversion Hw as [|? ? Ha Hw']; subst. rewrite append_cons. simpl.
    rewrite Ha, (IH Hw'). reflexivity.
Qed.

Lemma split_max_aux_gap (g t : string) (n : nat) :
  Forall (fun c => isspace c = true) (chars g) ->
  split_max_aux (g +:+ t) false n = split_max_aux t false n.
Proof.
  intros Hg. induction g as [|a g IH]; [reflexivity|].
  inversion Hg as [|? ? Ha Hg']; subst. rewrite append_cons. simpl.
  now rewrite Ha, (IH Hg').
Qed.

Lemma is_gap_blank (g : string) :
  is_gap g -> Forall (fun c => isspace c = true) (chars g).
Proof. intros [_ H]. eapply Forall_impl; [exact H|]. now intros c [Hc _]. Qed.

Lemma split_max_aux_cell (w g t : string) (n : nat) :
  is_word w -> is_gap g ->
  split_max_aux (w +:+ g +:+ t) false (S n) = w :: split_max_aux t false n.
Proof.
  intros [Hne Hw] Hg. pose proof (is_gap_blank g Hg) as Hb. destruct Hg as [Hgne _].
  destruct w as [|a w]; [congruence|]. destruct g as [|c g]; [congruence|].
  inversion Hw as [|? ? Ha Hw']; subst. inversion Hb as [|? ? Hc Hb']; subst.
  rewrite !append_cons. simpl. rewrite Ha.
  rewrite (split_max_aux_word w c (g +:+ t) n Hw' Hc).
  rewrite (split_max_aux_gap g t n Hb'). reflexivity.
Qed.

Lemma split_max_aux_format (cells : list (string * string)) (cmd : string) :
  Forall (fun cell => is_word cell.1 /\ is_gap cell.2) cells ->
  cmd <> "" -> lstrip cmd = cmd ->
  split_max_aux (ps_format cells cmd) false (length cells) = (fst <$> cells) ++ [cmd].
Proof.
  intros Hcells Hne Hl. induction Hcells as [|[w g] cells [Hw Hg] _ IH].
  - destruct (lstrip_fixed cmd Hne Hl) as (c & r & -> & Hc). simpl. now rewrite Hc.
  - simpl in *. rewrite (split_max_aux_cell w g _ _ Hw Hg), IH. reflexivity.
Qed.

Lemma ps_fields_format (row : list (string * string) * string) :
  is_ps_row row -> ps_fields (ps_format row.1 row.2) = Some (ps_row_pair row).
Proof.
  destruct row as [cells cmd]. intros (Hlen & Hcells & Hne & Hl & _ & _).
  cbn [fst snd] in *.
  pose proof (split_max_aux_format cells cmd Hcells Hne Hl) as E. rewrite Hlen in E.
  unfold ps_fields, split_ws_max, ps_row_pair. cbn zeta. cbn [fst snd]. rewrite E.
  assert (L : length (fst <$> cells) = 10%nat) by now rewrite length_fmap.
  set (parts := (fst <$> cells) ++ [cmd]).
  assert (E10 : parts !! 10%nat = Some cmd).
  { unfold parts. apply list_lookup_middle. now rewrite L. }
  assert (E1 : parts !! 1%nat = Some (nth 1 (fst <$> cells) "")).
  { unfold parts. rewrite lookup_app_l by lia.
    destruct (fst <$> cells) as [|a [|b l]]; simpl in L; try lia; reflexivity. }
  now rewrite E1, E10.
Qed.

Lemma word_no_newline (w : string) : is_word w -> ~ In NEWLINE (chars w).
Proof.
  intros [_ Hw] Hin. rewrite Forall_forall in Hw.
  specialize (Hw NEWLINE). rewrite <- list_elem_of_In in Hin. specialize (Hw Hin). discriminate.
Qed.

Lemma gap_no_newline (g : string) : is_gap g -> ~ In NEWLINE (chars g).
Proof.
  intros [_ Hg] Hin. rewrite Forall_forall in Hg.
  rewrite <- list_elem_of_In in Hin. destruct (Hg NEWLINE Hin) as [_ H]. congruence.
Qed.

Lemma ps_format_trimmed (cells : list (string * string)) (cmd : string) :
  Forall (fun cell => is_word cell.1 /\ is_gap cell.2) cells ->
  is_trimmed_line cmd -> is_trimmed_line (ps_format cells cmd).
Proof.
  intros Hcells Hcmd. induction Hcells as [|[w g] cells [Hw Hg] _ IH]; [exact Hcmd|].
  destruct IH as (Hne & Hl & Hr & Hn). cbn [fst snd] in *. simpl.
  assert (Hw' := Hw). destruct Hw' as [Hwne Hwc].
  destruct w as [|a w]; [congruence|]. inversion Hwc as [|? ? Ha _]; subst.
  repeat split.
  - rewrite append_cons. discriminate.
  - rewrite append_cons. simpl. now rewrite Ha.
  - rewrite rstrip_app_keep.
    + rewrite rstrip_app_keep; [now rewrite Hr | now rewrite Hr].
    + rewrite rstrip_app_keep by now rewrite Hr. rewrite Hr.
      destruct g; [destruct Hg; congruence | rewrite append_cons; discriminate].
  - rewrite !chars_app, !in_app_iff. intros [H|[H|H]].
    + exact (word_no_newline _ Hw H).
    + exact (gap_no_newline _ Hg H).
    + exact (Hn H).
Qed.

Lemma join_trimmed (lines : list string) (line : string) :
  Forall is_trimmed_line (line :: lines) ->
  let text := join (String NEWLINE "") (line :: lines) in
  text <> "" /\ lstrip text = text /\ rstrip text = text.
Proof.
  revert line. induction lines as [|line' lines IH]; intros line H;
    inversion H as [|? ? (Hne & Hl & Hr & _) H']; subst.
  - simpl. auto.
  - destruct (IH line' H') as (Hne' & Hl' & Hr'). cbn zeta in *.
    change (join (String NEWLINE "") (line :: line' :: lines))
      with (line +:+ String NEWLINE "" +:+ join (String NEWLINE "") (line' :: lines)).
    set (rest := join (String NEWLINE "") (line' :: lines)) in *.
    repeat split.
    + destruct line; [congruence | rewrite append_cons; discriminate].
    + now apply lstrip_app.
    + rewrite rstrip_app_keep.
      * rewrite rstrip_app_keep by now rewrite Hr'. now rewrite Hr'.
      * rewrite rstrip_app_keep by now rewrite Hr'. rewrite append_cons. discriminate.
Qed.

Lemma strip_trimmed_blank (text trailing : string) :
  text <> "" -> lstrip text = text -> rstrip text = text ->
  Forall (fun c => isspace c = true) (chars trailing) ->
  strip (text +:+ trailing) = text.
Proof.
  intros Hne Hl Hr Ht. unfold strip. rewrite lstrip_app by assumption.
  rewrite rstrip_app_blank by now apply rstrip_blank. exact Hr.
Qed.

Lemma omap_fmap_Some {A B C} (f : B -> option C) (g : A -> B) (h : A -> C) (l : list A) :
  Forall (fun a => f (g a) = Some (h a)) l -> omap f (g <$> l) = h <$> l.
Proof.
  induction 1 as [|a l Ha _ IH]; [reflexivity|].
  change (omap f (g <$> a :: l))
    with (match f (g a) with Some c => c :: omap f (g <$> l) | None => omap f (g <$> l) end).
  rewrite Ha, IH. reflexivity.
Qed.

(** ** [get_all_processes]: statements *)

Lemma ps_fields_lookups (line : string) (p : proc) :
  ps_fields line = Some p ->
  split_ws_max line 10 !! 1%nat = Some p.1 /\ split_ws_max line 10 !! 10%nat = Some p.2.
Proof.
  unfold ps_fields. cbn zeta.
  destruct (split_ws_max line 10 !! 1%nat) as [pid|]; [|discriminate].
  destruct (split_ws_max line 10 !! 10%nat) as [cmd|]; [|discriminate].
  intros [= <-]. auto.
Qed.

Lemma ps_fields_shape (line : string) (p : proc) :
  ~ In NEWLINE (chars line) -> ps_fields line = Some p ->
  is_word p.1
  /\ (exists c r, p.2 = String c r /\ isspace c = false)
  /\ ~ In NEWLINE (chars p.2).
Proof.
  intros Hline Hp. destruct (ps_fields_lookups line p Hp) as [E1 E10].
  destruct (split_max_aux_shape line 10) as [Hshape _]. fold (split_ws_max line 10) in Hshape.
  split; [|split].
  - apply (split_shape_word 10 1 _ _ Hshape E1). lia.
  - exact (split_shape_last 10 _ _ Hshape E10).
  - assert (Hc : Forall (fun c => c <> NEWLINE) (chars line)).
    { rewrite Forall_forall. intros c Hc ->. apply Hline. now rewrite <- list_elem_of_In. }
    pose proof (split_max_aux_chars _ line Hc false 10) as Hall.
    fold (split_ws_max line 10) in Hall. rewrite Forall_forall in Hall.
    specialize (Hall p.2 (list_elem_of_lookup_2 _ _ _ E10)).
    rewrite Forall_forall in Hall. intros Hin. rewrite <- list_elem_of_In in Hin.
    exact (Hall _ Hin eq_refl).
Qed.

(** X1.  When the listing command fails on Linux or on Windows,
    [get_all_processes] does not raise: it returns the empty list and
    prints one line, [Error getting process list: ] followed by the text
    of the exception. *)
Theorem get_all_processes_command_failure (system : string) (e : exn) :
  system = "Linux" \/ system = "Windows" ->
  get_all_processes system (Raise e) = Ok []
  /\ get_all_processes_printed system (Raise e)
     = ["Error getting process list: " +:+ str_of e].
Proof. intros [-> | ->]; split; reflexivity. Qed.

Lemma get_all_processes_command_failure_witness :
  get_all_processes "Linux" (Raise (Exn CalledProcessError "Command returned non-zero exit status 1.")) = Ok []
  /\ get_all_processes_printed "Linux"
       (Raise (Exn CalledProcessError "Command returned non-zero exit status 1."))
     = ["Error getting process list: Command returned non-zero exit status 1."].
Proof.
  exact (get_all_processes_command_failure "Linux"
           (Exn CalledProcessError "Command returned non-zero exit status 1.")
           (or_introl eq_refl)).
Defined.

(** X2.  On a platform that is neither Linux nor Windows no command is
    run: whatever the command would have answered, [get_all_processes]
    returns the empty list and prints [Unsupported operating system: ]
    followed by the name of the platform. *)
Theorem get_all_processes_unsupported_system (system : string) (check_output : result string) :
  system <> "Linux" -> system <> "Windows" ->
  get_all_processes system check_output = Ok []
  /\ get_all_processes_printed system check_output
     = ["Unsupported operating system: " +:+ system].
Proof.
  intros HL HW. unfold get_all_processes, get_all_processes_printed, get_all_processes_m.
  destruct (String.eqb_spec system "Linux") as [|_]; [contradiction|].
  destruct (String.eqb_spec system "Windows") as [|_]; [contradiction|].
  split; reflexivity.
Qed.

Lemma get_all_processes_unsupported_system_witness :
  get_all_processes "Darwin" (Ok "USER PID") = Ok []
  /\ get_all_processes_printed "Darwin" (Ok "USER PID")
     = ["Unsupported operating system: Darwin"].
Proof.
  apply (get_all_processes_unsupported_system "Darwin" (Ok "USER PID")); discriminate.
Defined.

(** X3.  On Linux, whatever text [ps aux] prints, [get_all_processes]
    returns a list and prints nothing; the list has fewer pairs than the
    text has lines (the first line is skipped, a line gives at most one
    pair); in every pair the pid is a non-empty word without white space,
    and the command is on one line and starts with a character that is not
    white space. *)
Theorem get_all_processes_linux_pairs (output : string) :
  exists processes,
    get_all_processes "Linux" (Ok output) = Ok processes
    /\ get_all_processes_printed "Linux" (Ok output) = []
    /\ (length processes < length (split_char NEWLINE output))%nat
    /\ Forall (fun p : proc =>
                 is_word p.1
                 /\ (exists c r, p.2 = String c r /\ isspace c = false)
                 /\ ~ In NEWLINE (chars p.2)) processes.
Proof.
  eexists. split; [apply get_all_processes_linux|].
  split; [unfold get_all_processes_printed; now rewrite get_all_processes_m_linux|].
  set (lines := split_char NEWLINE (strip output)). split.
  - pose proof (omap_length ps_fields (drop 1 lines)) as H1.
    pose proof (split_char_length_strip NEWLINE output) as H2.
    pose proof (split_char_length_pos NEWLINE (strip output)) as H3.
    fold lines in H2, H3. rewrite length_drop in H1. lia.
  - rewrite Forall_forall. intros p Hp.
    apply list_elem_of_omap in Hp. destruct Hp as (line & Hline & Hp).
    apply (ps_fields_shape line p); [|exact Hp].
    pose proof (split_char_no_sep NEWLINE (strip output)) as Hno. fold lines in Hno.
    rewrite Forall_forall in Hno. apply Hno.
    apply list_elem_of_lookup in Hline. destruct Hline as [i Hi].
    rewrite lookup_drop in Hi. exact (list_elem_of_lookup_2 _ _ _ Hi).
Qed.

(** X4.  Round trip of the Linux listing.  When the output of [ps aux] is
    a header line followed by rows of ten columns and a command, each
    column a word followed by white space, and the command neither
    starting nor ending with white space, then [get_all_processes] returns
    exactly one pair per row, in order: the second column and the command
    in full, spaces inside it included.  White space after the last row is
    ignored. *)
Theorem get_all_processes_linux_round_trip
    (header : string) (rows : list (list (string * string) * string)) (trailing : string) :
  is_trimmed_line header ->
  Forall is_ps_row rows ->
  Forall (fun c => isspace c = true) (chars trailing) ->
  get_all_processes "Linux" (Ok (ps_output header rows trailing))
  = Ok (ps_row_pair <$> rows).
Proof.
  intros Hh Hrows Ht. rewrite get_all_processes_linux. f_equal.
  set (lines := header :: ((fun row => ps_format row.1 row.2) <$> rows)).
  assert (Hlines : Forall is_trimmed_line lines).
  { constructor; [exact Hh|]. rewrite Forall_fmap. eapply Forall_impl; [exact Hrows|].
    intros [cells cmd] (_ & Hcells & Hcmd). now apply ps_format_trimmed. }
  subst lines. destruct (join_trimmed _ _ Hlines) as (Hne & Hl & Hr).
  unfold ps_output. rewrite (strip_trimmed_blank _ _ Hne Hl Hr Ht).
  rewrite split_char_join; [|discriminate|].
  - cbn [drop]. rewrite drop_0.
    apply omap_fmap_Some. eapply Forall_impl; [exact Hrows|].
    intros row Hrow. now apply ps_fields_format.
  - eapply Forall_impl; [exact Hlines|]. now intros line (_ & _ & _ & Hn).
Qed.

Lemma get_all_processes_linux_round_trip_witness :
  get_all_processes "Linux"
    (Ok (ps_output "USER PID %CPU %MEM VSZ RSS TTY STAT START TIME COMMAND"
           [sample_ps_row] (String NEWLINE "")))
  = Ok [("1", "/sbin/init splash")].
Proof.
  apply (get_all_processes_linux_round_trip
           "USER PID %CPU %MEM VSZ RSS TTY STAT START TIME COMMAND"
           [sample_ps_row] (String NEWLINE "")).
  - repeat split; try discriminate. vm_compute. intuition discriminate.
  - constructor; [|constructor]. split; [reflexivity|]. split.
    + repeat constructor; try discriminate.
    + repeat split; try discriminate. vm_compute. intuition discriminate.
  - repeat constructor.
Defined.

(** ** CSV lines *)

Lemma rstrip_char_free (ch : ascii) (s : string) :
  ~ In ch (chars s) -> rstrip_char ch s = s.
Proof.
  induction s as [|c s IH]; [reflexivity|]. simpl. intros H.
  rewrite IH by tauto. destruct s; [|reflexivity].
  destruct (Ascii.eqb_spec c ch); [tauto | reflexivity].
Qed.

Lemma rstrip_char_app_keep (ch : ascii) (a b : string) :
  rstrip_char ch b <> "" -> rstrip_char ch (a +:+ b) = a +:+ rstrip_char ch b.
Proof.
  intros Hb. induction a as [|c a IH]; [reflexivity|].
  rewrite !append_cons. simpl.
  rewrite IH. destruct (a +:+ rstrip_char ch b) eqn:E; [|reflexivity].
  destruct a; [contradiction | discriminate].
Qed.

Lemma rstrip_char_app_blank (ch : ascii) (a b : string) :
  rstrip_char ch b = "" -> rstrip_char ch (a +:+ b) = rstrip_char ch a.
Proof.
  intros Hb. induction a as [|c a IH]; [exact Hb|].
  rewrite append_cons. simpl. now rewrite IH.
Qed.

Lemma join_cons (sep piece piece' : string) (pieces : list string) :
  join sep (piece :: piece' :: pieces) = piece +:+ sep +:+ join sep (piece' :: pieces).
Proof. reflexivity. Qed.

Lemma join_chars (P : ascii -> Prop) (sep : string) (pieces : list string) :
  Forall P (chars sep) -> Forall (fun piece => Forall P (chars piece)) pieces ->
  Forall P (chars (join sep pieces)).
Proof.
  intros Hsep. induction 1 as [|piece pieces Hp Hps IH]; [constructor|].
  destruct pieces as [|piece' pieces]; [exact Hp|].
  rewrite join_cons, !chars_app, !Forall_app. auto.
Qed.

(** The joined fields neither start nor end with a quote. *)
Lemma join_csv_ends (field : string) (fields : list string) :
  Forall (fun field => ~ In QUOTE (chars field)) (field :: fields) ->
  last (field :: fields) <> Some "" ->
  join CSV_SEP (field :: fields) <> ""
  /\ rstrip_char QUOTE (join CSV_SEP (field :: fields)) = join CSV_SEP (field :: fields).
Proof.
  revert field. induction fields as [|field' fields IH]; intros field H Hlast;
    inversion H as [|? ? Hf H']; subst.
  - simpl in *. split; [congruence | now apply rstrip_char_free].
  - destruct (IH field' H') as [Hne Hr]; [exact Hlast|].
    rewrite join_cons. set (rest := join CSV_SEP (field' :: fields)) in *. split.
    + destruct field; [discriminate | rewrite append_cons; discriminate].
    + rewrite rstrip_char_app_keep.
      * rewrite rstrip_char_app_keep by now rewrite Hr. now rewrite Hr.
      * rewrite rstrip_char_app_keep by now rewrite Hr. discriminate.
Qed.

Lemma lstrip_char_start (ch c : ascii) (s : string) :
  c <> ch -> lstrip_char ch (String c s) = String c s.
Proof. intros H. simpl. destruct (Ascii.eqb_spec c ch); [contradiction | reflexivity]. Qed.

Lemma startswith_csv_sep (c : ascii) (s : string) :
  c <> QUOTE -> startswith (String c s) CSV_SEP = false.
Proof.
  intros Hc. unfold CSV_SEP. cbn [startswith].
  destruct (Ascii.eqb_spec QUOTE c) as [E|_]; [congruence | reflexivity].
Qed.

Lemma split_str_aux_field (field rest : string) :
  ~ In QUOTE (chars field) ->
  split_str_aux CSV_SEP (field +:+ CSV_SEP +:+ rest) 0 = field :: split_str_aux CSV_SEP rest 0.
Proof.
  induction field as [|c field IH]; intros Hf; [reflexivity|].
  simpl in Hf. rewrite append_cons.
  cbn [split_str_aux]. rewrite startswith_csv_sep by tauto.
  rewrite IH by tauto. reflexivity.
Qed.

Lemma split_str_aux_last (field : string) :
  ~ In QUOTE (chars field) -> split_str_aux CSV_SEP field 0 = [field].
Proof.
  induction field as [|c field IH]; intros Hf; [reflexivity|].
  simpl in Hf. cbn [split_str_aux]. rewrite startswith_csv_sep by tauto.
  rewrite IH by tauto. reflexivity.
Qed.

Lemma split_str_join (fields : list string) :
  fields <> [] -> Forall (fun field => ~ In QUOTE (chars field)) fields ->
  split_str CSV_SEP (join CSV_SEP fields) = fields.
Proof.
  unfold split_str. induction fields as [|field fields IH]; [congruence|]. intros _ H.
  inversion H as [|? ? Hf H']; subst. destruct fields as [|field' fields].
  - now apply split_str_aux_last.
  - rewrite join_cons, split_str_aux_field by exact Hf. f_equal.
    apply IH; [discriminate | exact H'].
Qed.

Lemma csv_line_trimmed (fields : list string) :
  Forall (fun field => ~ In NEWLINE (chars field)) fields ->
  is_trimmed_line (csv_line fields).
Proof.
  intros H. unfold csv_line. repeat split.
  - discriminate.
  - rewrite <- append_cons. rewrite rstrip_app_keep by discriminate. reflexivity.
  - rewrite <- append_cons, chars_app, in_app_iff. intros [Hin|Hin].
    + simpl in Hin. destruct Hin as [Hin|Hin]; [discriminate|].
      assert (Hall : Forall (fun c => c <> NEWLINE) (chars (join CSV_SEP fields))).
      { apply join_chars; [repeat constructor; discriminate|].
        eapply Forall_impl; [exact H|]. intros field Hf. rewrite Forall_forall.
        intros c Hc ->. apply Hf. now rewrite <- list_elem_of_In. }
      rewrite Forall_forall in Hall. rewrite <- list_elem_of_In in Hin.
      exact (Hall _ Hin eq_refl).
    + simpl in Hin. destruct Hin as [Hin|[]]. discriminate.
Qed.

Lemma tasklist_fields_csv_line (fields : list string) :
  is_csv_row fields -> tasklist_fields (csv_line fields) = Some (csv_row_pair fields).
Proof.
  intros (Hall & (name & pid & others & ->) & Hhead & Hlast).
  assert (Hq : Forall (fun field => ~ In QUOTE (chars field)) (name :: pid :: others)).
  { eapply Forall_impl; [exact Hall|]. now intros field [H _]. }
  assert (Hn : Forall (fun field => ~ In NEWLINE (chars field)) (name :: pid :: others)).
  { eapply Forall_impl; [exact Hall|]. now intros field [_ H]. }
  destruct (csv_line_trimmed _ Hn) as (_ & Hl & Hr & _).
  destruct (join_csv_ends _ _ Hq Hlast) as [Hne Hrq].
  unfold tasklist_fields. cbn zeta. unfold strip. rewrite Hl, Hr.
  assert (E : strip_char QUOTE (csv_line (name :: pid :: others))
              = join CSV_SEP (name :: pid :: others)).
  { unfold strip_char, csv_line. cbn [lstrip_char]. rewrite Ascii.eqb_refl.
    set (J := join CSV_SEP (name :: pid :: others)) in *.
    assert (Hstart : exists c r, J = String c r /\ c <> QUOTE).
    { unfold J. rewrite join_cons. destruct name as [|c name]; [now simpl in Hhead|].
      rewrite append_cons. exists c, (name +:+ CSV_SEP +:+ join CSV_SEP (pid :: others)).
      split; [reflexivity|]. inversion Hq as [|? ? Hc _]; subst. simpl in Hc.
      intros ->. tauto. }
    destruct Hstart as (c & r & EJ & Hc). rewrite EJ at 1. rewrite append_cons.
    rewrite lstrip_char_start by exact Hc. rewrite <- append_cons, <- EJ.
    rewrite rstrip_char_app_blank by reflexivity. exact Hrq. }
  rewrite E, split_str_join by (discriminate || exact Hq). reflexivity.
Qed.

Lemma strip_blank (s : string) :
  Forall (fun c => isspace c = true) (chars s) -> strip s = "".
Proof.
  intros H. unfold strip. induction s as [|c s IH]; [reflexivity|].
  inversion H as [|? ? Hc Hs]; subst. simpl. rewrite Hc. exact (IH Hs).
Qed.

(** X5.  Round trip of the Windows listing.  When the output of
    [tasklist /fo csv /nh] is one line per process, every field written in
    quotes with commas between them, at least two fields on a line, no
    quote or line break inside a field, the first and the last field not
    empty, then [get_all_processes] returns one pair per line, in order:
    the second field (the pid) and the first (the image name).  White
    space after the last line is ignored. *)
Theorem get_all_processes_windows_round_trip
    (rows : list (list string)) (trailing : string) :
  Forall is_csv_row rows ->
  Forall (fun c => isspace c = true) (chars trailing) ->
  get_all_processes "Windows" (Ok (tasklist_output rows trailing))
  = Ok (csv_row_pair <$> rows).
Proof.
  intros Hrows Ht. rewrite get_all_processes_windows. f_equal. unfold tasklist_output.
  destruct rows as [|row rows].
  - cbn [fmap list_fmap join]. rewrite append_nil_l, (strip_blank _ Ht). reflexivity.
  - assert (Hlines : Forall is_trimmed_line (csv_line <$> row :: rows)).
    { rewrite Forall_fmap. eapply Forall_impl; [exact Hrows|].
      intros fields (Hall & _). apply csv_line_trimmed.
      eapply Forall_impl; [exact Hall|]. now intros field [_ H]. }
    rewrite fmap_cons in *.
    destruct (join_trimmed _ _ Hlines) as (Hne & Hl & Hr).
    rewrite (strip_trimmed_blank _ _ Hne Hl Hr Ht).
    rewrite split_char_join; [|discriminate|].
    + rewrite <- fmap_cons. apply omap_fmap_Some. eapply Forall_impl; [exact Hrows|].
      intros fields Hf. now apply tasklist_fields_csv_line.
    + eapply Forall_impl; [exact Hlines|]. now intros line (_ & _ & _ & Hn).
Qed.

Lemma get_all_processes_windows_round_trip_witness :
  get_all_processes "Windows"
    (Ok (tasklist_output
           [["System Idle Process"; "0"; "Services"; "0"; "8 K"];
            ["notepad.exe"; "4312"; "Console"; "1"; "14,520 K"]]
           (String NEWLINE "")))
  = Ok [("0", "System Idle Process"); ("4312", "notepad.exe")].
Proof.
  apply (get_all_processes_windows_round_trip
           [["System Idle Process"; "0"; "Services"; "0"; "8 K"];
            ["notepad.exe"; "4312"; "Console"; "1"; "14,520 K"]]
           (String NEWLINE "")).
  - repeat constructor; try (vm_compute; intuition discriminate); try discriminate;
      eexists _, _, _; reflexivity.
  - repeat constructor.
Defined.

(* ------------------------------------------------------------------ *)
(** ** The process selector *)

Lemma rstrip_idempotent (s : string) : rstrip (rstrip s) = rstrip s.
Proof.
  induction s as [|c s IH]; [reflexivity|].
  cbn [rstrip]. destruct (rstrip s) as [|a r] eqn:E.
  - destruct (isspace c) eqn:Hc; [reflexivity|]. simpl. now rewrite Hc.
  - change (rstrip (String c (String a r)))
      with (match rstrip (String a r) with
            | "" => if isspace c then "" else String c ""
            | String x y => String c (String x y)
            end).
    now rewrite IH.
Qed.

Lemma lstrip_result (s : string) :
  lstrip s = "" \/ exists c r, lstrip s = String c r /\ isspace c = false.
Proof.
  induction s as [|c s IH]; [now left|].
  simpl. destruct (isspace c) eqn:Hc; [exact IH|]. right. eauto.
Qed.

Lemma rstrip_head (c : ascii) (s : string) :
  isspace c = false -> exists r, rstrip (String c s) = String c r.
Proof.
  intros Hc. cbn [rstrip]. destruct (rstrip s); rewrite ?Hc; eauto.
Qed.

Lemma strip_idempotent (s : string) : strip (strip s) = strip s.
Proof.
  unfold strip. destruct (lstrip_result s) as [E | (c & r & E & Hc)]; rewrite E.
  - reflexivity.
  - destruct (rstrip_head c r Hc) as [r' E']. rewrite E'.
    rewrite (lstrip_nonspace c r' Hc), <- E'. apply rstrip_idempotent.
Qed.

Lemma search_processes_In (processes : list proc) (term : string) (p : proc) :
  In p (search_processes processes term) -> In p processes.
Proof. rewrite search_processes_filter. intros H. apply filter_In in H. tauto. Qed.

Lemma selector_ok_In (processes : list proc) (page_size : Z) (st : selector) (p : proc) :
  selector_ok processes page_size st -> In p (filtered_processes st) -> In p processes.
Proof.
  intros (_ & _ & _ & [[_ E] | (term & _ & _ & _ & E)]) Hin; rewrite E in Hin.
  - exact Hin.
  - exact (search_processes_In _ _ _ Hin).
Qed.

Lemma selector_start_ok (processes : list proc) (page_size : Z) :
  1 <= page_size -> selector_ok processes page_size (selector_start processes).
Proof.
  intros Hps. unfold selector_ok, selector_start. cbn.
  repeat split; try lia; [|now left].
  destruct processes; [now left | right; cbn [length]; lia].
Qed.

Lemma floordiv_Ok (a b : Z) : b <> 0 -> floordiv a b = Ok (a / b).
Proof. intros Hb. unfold floordiv. destruct (Z.eqb_spec b 0); [contradiction | reflexivity]. Qed.

Lemma next_page_fits (len page_size pg : Z) :
  1 <= page_size -> pg < (len - 1) / page_size -> (pg + 1) * page_size + 0 < len.
Proof.
  intros Hps Hpg. pose proof (Z.mul_div_le (len - 1) page_size ltac:(lia)). nia.
Qed.

Ltac selector_goal :=
  unfold selector_ok; cbn [page selected filtered_processes search_term];
  split; [lia|]; split; [lia|]; split; [|assumption].

(** One turn keeps the selector in order and raises nothing. *)
Lemma selector_turn_ok (processes : list proc) (page_size : Z) (st : selector)
    (i : selector_input) :
  1 <= page_size -> selector_ok processes page_size st ->
  exists o,
    selector_turn processes page_size st i = Ok o
    /\ match o with
       | Browsing st' => selector_ok processes page_size st'
       | Prompting => True
       | Selected r =>
           forall p, r = Some p ->
             filtered_processes st !! Z.to_nat (page st * page_size + selected st) = Some p
       end.
Proof.
  intros Hps Hok. assert (Hok' := Hok). destruct Hok' as (Hpage & Hsel & Hrow & Hterm).
  unfold selector_turn.
  set (len := Z.of_nat (length (filtered_processes st))) in *.
  rewrite floordiv_Ok by lia.
  destruct i as [| |key w prompt restored]; [eauto | eauto |].
  destruct (key_in key [KEY_UP; ord "k"]).
  { destruct (Z.ltb_spec 0 (selected st)).
    - eexists. split; [reflexivity|]. selector_goal. right. lia.
    - destruct (Z.ltb_spec 0 (page st)); [|solve [eauto]].
      eexists. split; [reflexivity|]. selector_goal. right. nia. }
  destruct (key_in key [KEY_DOWN; ord "j"]).
  { cbn zeta.
    destruct (Z.ltb_spec (selected st) (Z.min (page_size - 1) (len - page st * page_size - 1))).
    - eexists. split; [reflexivity|]. selector_goal. right. fold len. lia.
    - destruct (Z.ltb_spec (page st) ((len - 1) / page_size)); [|solve [eauto]].
      eexists. split; [reflexivity|]. selector_goal. right. fold len.
      now apply next_page_fits. }
  destruct (key_in key [KEY_LEFT; ord "h"] && (0 <? page st)) eqn:Hleft.
  { apply andb_true_iff in Hleft. destruct Hleft as [_ Hp]. apply Z.ltb_lt in Hp.
    eexists. split; [reflexivity|]. selector_goal. right. fold len. nia. }
  destruct (key_in key [KEY_RIGHT; ord "l"] && (page st <? (len - 1) / page_size)) eqn:Hright.
  { apply andb_true_iff in Hright. destruct Hright as [_ Hp]. apply Z.ltb_lt in Hp.
    eexists. split; [reflexivity|]. selector_goal. right. fold len. now apply next_page_fits. }
  destruct (key_in key [ord "/"; ord "f"]).
  { destruct (search_prompt w "" prompt) as [search_buf|];
      [|eexists; split; [reflexivity | exact I]].
    destruct restored; [|solve [eauto]]. cbn zeta.
    destruct (String.eqb_spec (strip search_buf) "") as [E|E]; cbn [negb].
    - eexists. split; [reflexivity|].
      unfold selector_ok; cbn [page selected filtered_processes search_term].
      split; [lia|]. split; [lia|]. split; [|now left].
      destruct processes; [now left | right; cbn [length]; lia].
    - eexists. split; [reflexivity|].
      unfold selector_ok; cbn [page selected filtered_processes search_term].
      split; [lia|]. split; [lia|]. split.
      + destruct (search_processes processes (strip search_buf));
          [now left | right; cbn [length]; lia].
      + right. exists (strip search_buf). split; [reflexivity|]. split; [exact E|].
        split; [apply strip_idempotent | reflexivity]. }
  destruct (key_in key [ord "q"; 27]).
  { eexists. split; [reflexivity|]. intros p [=]. }
  destruct (key_in key [KEY_ENTER; 10; 13]); [|solve [eauto]].
  cbn zeta. fold len.
  destruct (negb (length (filtered_processes st) =? 0)%nat
            && (0 <=? page st * page_size + selected st)
            && (page st * page_size + selected st <? len)) eqn:Hin; [|solve [eauto]].
  apply andb_true_iff in Hin. destruct Hin as [Hin Hlt].
  apply andb_true_iff in Hin. destruct Hin as [_ Hle].
  apply Z.leb_le in Hle. apply Z.ltb_lt in Hlt.
  destruct (index_Ok (filtered_processes st) (Z.to_nat (page st * page_size + selected st)))
    as (p & Ip & Ep); [unfold len in Hlt; lia|].
  rewrite Ip. eexists. split; [reflexivity|]. intros q [= <-]. exact Ep.
Qed.

Lemma selector_loop_ok (processes : list proc) (page_size : Z) (inputs : list selector_input) :
  1 <= page_size ->
  forall st, selector_ok processes page_size st ->
  exists o,
    selector_loop processes page_size st inputs = Ok o
    /\ match o with
       | Browsing st' => selector_ok processes page_size st'
       | Prompting => True
       | Selected r => forall p, r = Some p -> In p processes
       end.
Proof.
  intros Hps. induction inputs as [|i inputs IH]; intros st Hok; [simpl; eauto|].
  destruct (selector_turn_ok processes page_size st i Hps Hok) as (o & E & Ho).
  simpl. rewrite E. destruct o as [st'| |r].
  - exact (IH st' Ho).
  - eauto.
  - eexists. split; [reflexivity|]. intros p Hp.
    apply (selector_ok_In processes page_size st p Hok).
    rewrite <- list_elem_of_In. exact (list_elem_of_lookup_2 _ _ _ (Ho p Hp)).
Qed.

Lemma selector_loop_app (processes : list proc) (page_size : Z)
    (inputs inputs' : list selector_input) (st st' : selector) :
  selector_loop processes page_size st inputs = Ok (Browsing st') ->
  selector_loop processes page_size st (inputs ++ inputs')
  = selector_loop processes page_size st' inputs'.
Proof.
  revert st. induction inputs as [|i inputs IH]; intros st H; simpl in *.
  - now injection H as ->.
  - destruct (selector_turn processes page_size st i) as [[st1| |r]|e];
      try discriminate. exact (IH st1 H).
Qed.

(** Where a state lies that the loop has reached. *)
Lemma selector_reached_ok (LINES : Z) (processes : list proc)
    (inputs : list selector_input) (st : selector) :
  6 <= LINES ->
  show_process_selector LINES processes inputs = Ok (Browsing st) ->
  selector_ok processes (Z.min 20 (LINES - 5)) st.
Proof.
  intros HL H. unfold show_process_selector in H. cbn zeta in H.
  assert (Hps : 1 <= Z.min 20 (LINES - 5)) by lia.
  destruct (selector_loop_ok processes _ inputs Hps
              (selector_start processes) (selector_start_ok _ _ Hps))
    as (o & E & Ho).
  rewrite E in H. injection H as ->. exact Ho.
Qed.

Lemma key_in_cases (key : Z) (keys : list Z) :
  key_in key keys = true -> In key keys.
Proof.
  unfold key_in. rewrite existsb_exists. intros (k & Hk & E).
  apply Z.eqb_eq in E. now subst.
Qed.

(** X6.  On a terminal of at least six lines [show_process_selector] never
    raises, whatever is typed and however often drawing fails.  While it
    is browsing, the page is not negative, the highlighted row lies on the
    page and is a row of the list shown (or the list is empty and the
    selector is at row 0 of page 0), and the list shown is the whole list,
    or what [search_processes] gives for the search term, which is then
    not empty and trimmed.  What it returns is [None] or an element of the
    list it was called with. *)
Theorem show_process_selector_safe (LINES : Z) (processes : list proc)
    (inputs : list selector_input) :
  6 <= LINES ->
  exists o,
    show_process_selector LINES processes inputs = Ok o
    /\ match o with
       | Browsing st => selector_ok processes (Z.min 20 (LINES - 5)) st
       | Prompting => True
       | Selected r => forall p, r = Some p -> In p processes
       end.
Proof.
  intros HL. unfold show_process_selector. cbn zeta.
  apply selector_loop_ok; [lia|]. apply selector_start_ok. lia.
Qed.

Lemma show_process_selector_safe_witness :
  exists o,
    show_process_selector 24 [("1", "init"); ("2", "kthreadd")]
      [Pressed KEY_DOWN 80 [] true; PaintError; Pressed KEY_ENTER 80 [] true] = Ok o
    /\ match o with
       | Browsing st => selector_ok [("1", "init"); ("2", "kthreadd")] (Z.min 20 (24 - 5)) st
       | Prompting => True
       | Selected r => forall p, r = Some p -> In p [("1", "init"); ("2", "kthreadd")]
       end.
Proof.
  apply (show_process_selector_safe 24 [("1", "init"); ("2", "kthreadd")]
           [Pressed KEY_DOWN 80 [] true; PaintError; Pressed KEY_ENTER 80 [] true]).
  lia.
Defined.

(** X7.  On a terminal of at least six lines, Enter always takes the
    highlighted row: in whatever state the selector is browsing, Enter (or
    code 10 or 13) makes it return the pair at [page * page_size +
    selected_idx] of the list shown, and this pair exists unless the list
    shown is empty, in which case the selector goes on unchanged. *)
Theorem show_process_selector_enter (LINES : Z) (processes : list proc)
    (inputs : list selector_input) (st : selector)
    (key w : Z) (prompt : list prompt_input) (restored : bool) :
  6 <= LINES ->
  show_process_selector LINES processes inputs = Ok (Browsing st) ->
  key_in key [KEY_ENTER; 10; 13] = true ->
  match filtered_processes st with
  | [] =>
      show_process_selector LINES processes (inputs ++ [Pressed key w prompt restored])
      = Ok (Browsing st)
  | _ :: _ =>
      exists p,
        filtered_processes st !! Z.to_nat (page st * Z.min 20 (LINES - 5) + selected st)
        = Some p
        /\ show_process_selector LINES processes (inputs ++ [Pressed key w prompt restored])
           = Ok (Selected (Some p))
  end.
Proof.
  intros HL Hrun Hkey.
  pose proof (selector_reached_ok LINES processes inputs st HL Hrun) as Hok.
  unfold show_process_selector in *. cbn zeta in *.
  set (page_size := Z.min 20 (LINES - 5)) in *.
  rewrite (selector_loop_app _ _ _ [Pressed key w prompt restored] _ _ Hrun).
  destruct Hok as (Hpage & Hsel & Hrow & _).
  cbn [selector_loop]. unfold selector_turn. rewrite floordiv_Ok by lia.
  assert (Hkeys :
    key_in key [KEY_UP; ord "k"] = false /\ key_in key [KEY_DOWN; ord "j"] = false
    /\ key_in key [KEY_LEFT; ord "h"] = false /\ key_in key [KEY_RIGHT; ord "l"] = false
    /\ key_in key [ord "/"; ord "f"] = false /\ key_in key [ord "q"; 27] = false).
  { apply key_in_cases in Hkey. simpl in Hkey.
    destruct Hkey as [<-|[<-|[<-|[]]]]; repeat split; reflexivity. }
  destruct Hkeys as (-> & -> & -> & -> & -> & ->). rewrite Hkey. cbn [andb]. cbn zeta.
  destruct (filtered_processes st) as [|p0 l] eqn:El.
  - reflexivity.
  - destruct Hrow as [[? _]|Hrow]; [discriminate|].
    destruct (index_Ok (p0 :: l) (Z.to_nat (page st * page_size + selected st)))
      as (p & Ip & Ep); [lia|].
    exists p. split; [exact Ep|].
    destruct (Z.leb_spec 0 (page st * page_size + selected st)); [|nia].
    destruct (Z.ltb_spec (page st * page_size + selected st) (Z.of_nat (length (p0 :: l))));
      [|lia].
    cbn [negb Nat.eqb length andb]. now rewrite Ip.
Qed.

Lemma show_process_selector_enter_witness :
  exists p,
    [("1", "init"); ("2", "kthreadd")] !! Z.to_nat (0 * Z.min 20 (24 - 5) + 1) = Some p
    /\ show_process_selector 24 [("1", "init"); ("2", "kthreadd")]
         ([Pressed KEY_DOWN 80 [] true] ++ [Pressed 10 80 [] true])
       = Ok (Selected (Some p)).
Proof.
  apply (show_process_selector_enter 24 [("1", "init"); ("2", "kthreadd")]
           [Pressed KEY_DOWN 80 [] true]
           {| page := 0; selected := 1;
              filtered_processes := [("1", "init"); ("2", "kthreadd")];
              search_term := None |} 10 80 [] true);
    [lia | reflexivity | reflexivity].
Defined.

(** X8.  On a terminal of exactly five lines the page size is 0, and
    [show_process_selector] raises [ZeroDivisionError] in the first turn in
    which [stdscr.clear()] returns, before anything is drawn and before a
    key is read; the [except curses.error] of the loop does not catch it. *)
Theorem show_process_selector_five_lines (processes : list proc)
    (cleared : list selector_input) (i : selector_input) (rest : list selector_input) :
  Forall (fun j => j = ClearError) cleared -> i <> ClearError ->
  exists e,
    show_process_selector 5 processes (cleared ++ i :: rest) = Raise e
    /\ class_of e = ZeroDivisionError.
Proof.
  intros Hc Hi. unfold show_process_selector. cbn zeta.
  change (Z.min 20 (5 - 5)) with 0.
  generalize (selector_start processes). intros st.
  induction Hc as [|j cleared -> _ IH].
  - destruct i as [| |key w prompt restored]; [contradiction | |];
      eexists; (split; [reflexivity|]); reflexivity.
  - exact IH.
Qed.

Lemma show_process_selector_five_lines_witness :
  exists e,
    show_process_selector 5 [("1", "init")] ([ClearError] ++ Pressed (ord "q") 80 [] true :: [])
    = Raise e
    /\ class_of e = ZeroDivisionError.
Proof.
  apply (show_process_selector_five_lines [("1", "init")] [ClearError]
           (Pressed (ord "q") 80 [] true) []); [repeat constructor | discriminate].
Defined.

(** *** The search prompt *)


Lemma ord_chr (n : Z) : 0 <= n < 256 -> ord (chr n) = n.
Proof.
  intros Hn. unfold chr, ord. rewrite N_ascii_embedding; [lia|].
  change 256%N with (Z.to_N 256). lia.
Qed.

Lemma string_length_app (a b : string) :
  String.length (a +:+ b) = (String.length a + String.length b)%nat.
Proof. induction a as [|c a IH]; [reflexivity|]. rewrite append_cons. simpl. now rewrite IH. Qed.

Lemma drop_last_length (s : string) :
  (String.length (drop_last s) <= String.length s)%nat.
Proof.
  induction s as [|c s IH]; [reflexivity|]. cbn [drop_last].
  destruct s as [|a s]; [simpl; lia|]. cbn [String.length] in *. lia.
Qed.

Lemma drop_last_chars (P : ascii -> Prop) (s : string) :
  Forall P (chars s) -> Forall P (chars (drop_last s)).
Proof.
  induction s as [|c s IH]; [auto|]. intros H. inversion H as [|? ? Hc Hs]; subst.
  cbn [drop_last]. destruct s as [|a s]; [constructor|].
  constructor; [exact Hc | exact (IH Hs)].
Qed.



(** Keys after which the prompt goes on, then Escape: the buffer is empty. *)
Lemma search_prompt_escape (w : Z) (typed : list prompt_input) (echoed : bool)
    (rest : list prompt_input) :
  Forall prompt_goes_on typed ->
  forall search_buf,
    search_prompt w search_buf (typed ++ PromptKey 27 echoed :: rest) = Some "".
Proof.
  induction 1 as [|[|ch e] typed Hi _ IH]; intros search_buf; [reflexivity | destruct Hi |].
  destruct Hi as (-> & H10 & H13 & H27).
  cbn [app search_prompt]. unfold key_in at 1. cbn [existsb].
  destruct (Z.eqb_spec ch 10); [contradiction|]. destruct (Z.eqb_spec ch 13); [contradiction|].
  destruct (Z.eqb_spec ch 27); [contradiction|]. cbn [orb].
  repeat match goal with
         | |- context [if ?b then _ else _] => destruct b
         end; apply IH.
Qed.

(** What the prompt ends with fits the line and is printable. *)
Lemma search_prompt_bounded (w : Z) (inputs : list prompt_input) :
  forall search_buf result,
    Z.of_nat (String.length search_buf) <= Z.max 0 (w - 10) ->
    Forall is_printable (chars search_buf) ->
    search_prompt w search_buf inputs = Some result ->
    Z.of_nat (String.length result) <= Z.max 0 (w - 10)
    /\ Forall is_printable (chars result).
Proof.
  induction inputs as [|[|ch e] inputs IH]; intros search_buf result Hlen Hp H;
    [discriminate | injection H as <-; auto |].
  pose proof (drop_last_length search_buf) as Hd.
  pose proof (drop_last_chars _ _ Hp) as Hdp.
  cbn [search_prompt] in H.
  destruct (key_in ch [10; 13]); [injection H as <-; auto|].
  destruct (ch =? 27); [injection H as <-; simpl; split; [lia | constructor]|].
  destruct ((ch =? KEY_BACKSPACE) || key_in ch [8; 127]).
  { destruct (negb (String.eqb search_buf "")); [|exact (IH _ _ Hlen Hp H)].
    assert (Hdl : Z.of_nat (String.length (drop_last search_buf)) <= Z.max 0 (w - 10)) by lia.
    destruct e; [exact (IH _ _ Hdl Hdp H) | injection H as <-; auto]. }
  destruct ((32 <=? ch) && (ch <=? 126)) eqn:Hch; [|exact (IH _ _ Hlen Hp H)].
  apply andb_true_iff in Hch. destruct Hch as [H32 H126].
  apply Z.leb_le in H32. apply Z.leb_le in H126.
  destruct (Z.ltb_spec (Z.of_nat (String.length search_buf)) (w - 10));
    [|exact (IH _ _ Hlen Hp H)].
  assert (Hlen' : Z.of_nat (String.length (search_buf +:+ String (chr ch) ""))
                  <= Z.max 0 (w - 10)).
  { rewrite string_length_app. simpl. lia. }
  assert (Hp' : Forall is_printable (chars (search_buf +:+ String (chr ch) ""))).
  { rewrite chars_app, Forall_app. split; [exact Hp|].
    constructor; [|constructor]. unfold is_printable. rewrite ord_chr; lia. }
  destruct e; [exact (IH _ _ Hlen' Hp' H) | injection H as <-; auto].
Qed.

Lemma search_key_only (key : Z) :
  key_in key [ord "/"; ord "f"] = true ->
  key_in key [KEY_UP; ord "k"] = false /\ key_in key [KEY_DOWN; ord "j"] = false
  /\ key_in key [KEY_LEFT; ord "h"] = false /\ key_in key [KEY_RIGHT; ord "l"] = false.
Proof.
  intros Hkey. apply key_in_cases in Hkey. simpl in Hkey.
  destruct Hkey as [<-|[<-|[]]]; repeat split; reflexivity.
Qed.

(** What the turn of a search key does, when the terminal modes are
    restored after the prompt. *)
Lemma selector_turn_search (processes : list proc) (page_size : Z) (st : selector)
    (key w : Z) (prompt : list prompt_input) (search_buf : string) :
  page_size <> 0 ->
  key_in key [ord "/"; ord "f"] = true ->
  search_prompt w "" prompt = Some search_buf ->
  selector_turn processes page_size st (Pressed key w prompt true)
  = Ok (Browsing
          (if negb (String.eqb (strip search_buf) "")
           then {| page := 0; selected := 0;
                   filtered_processes := search_processes processes (strip search_buf);
                   search_term := Some (strip search_buf) |}
           else selector_start processes)).
Proof.
  intros Hps Hkey Hprompt. unfold selector_turn. rewrite floordiv_Ok by exact Hps.
  destruct (search_key_only key Hkey) as (-> & -> & -> & ->). cbn [andb].
  rewrite Hkey, Hprompt. cbn zeta.
  destruct (negb (String.eqb (strip search_buf) "")); reflexivity.
Qed.



(** X10.  Escape in the search prompt does not keep the list that was
    shown: whatever was typed before it, and whatever filter was active,
    the selector then shows the whole list again, with no search term, at
    row 0 of page 0. *)
Theorem show_process_selector_search_escape (LINES : Z) (processes : list proc)
    (inputs : list selector_input) (st : selector)
    (key w : Z) (typed : list prompt_input) (echoed : bool) (rest : list prompt_input) :
  6 <= LINES ->
  show_process_selector LINES processes inputs = Ok (Browsing st) ->
  key_in key [ord "/"; ord "f"] = true ->
  Forall prompt_goes_on typed ->
  show_process_selector LINES processes
    (inputs ++ [Pressed key w (typed ++ PromptKey 27 echoed :: rest) true])
  = Ok (Browsing (selector_start processes)).
Proof.
  intros HL Hrun Hkey Htyped.
  unfold show_process_selector in *. cbn zeta in *.
  rewrite (selector_loop_app _ _ _ _ _ _ Hrun). cbn [selector_loop].
  rewrite (selector_turn_search processes _ st key w _ ""); [reflexivity | lia | exact Hkey |].
  now apply search_prompt_escape.
Qed.

Lemma show_process_selector_search_escape_witness :
  show_process_selector 24 [("1", "init"); ("2", "kthreadd")]
    ([Pressed (ord "f") 80 (typing "kth" ++ [PromptKey 13 true]) true]
     ++ [Pressed (ord "/") 80 (typing "in" ++ PromptKey 27 true :: []) true])
  = Ok (Browsing (selector_start [("1", "init"); ("2", "kthreadd")])).
Proof.
  apply (show_process_selector_search_escape 24 [("1", "init"); ("2", "kthreadd")]
           [Pressed (ord "f") 80 (typing "kth" ++ [PromptKey 13 true]) true]
           {| page := 0; selected := 0; filtered_processes := [("2", "kthreadd")];
              search_term := Some "kth" |}
           (ord "/") 80 (typing "in") true []);
    [lia | reflexivity | reflexivity |].
  repeat constructor; discriminate.
Defined.

(** X11.  The search term never overflows the line: whatever keys the
    prompt gets and however it ends, the buffer it leaves has at most
    [max(0, w - 10)] characters, all of them printable ASCII. *)
Theorem search_prompt_fits (w : Z) (inputs : list prompt_input) (search_buf : string) :
  search_prompt w "" inputs = Some search_buf ->
  Z.of_nat (String.length search_buf) <= Z.max 0 (w - 10)
  /\ Forall is_printable (chars search_buf).
Proof.
  apply search_prompt_bounded; [simpl; lia | constructor].
Qed.

Lemma search_prompt_fits_witness :
  Z.of_nat (String.length "abc") <= Z.max 0 (13 - 10)
  /\ Forall is_printable (chars "abc").
Proof.
  apply (search_prompt_fits 13 (typing "abcdef" ++ [PromptKey 9 true; PromptKey 10 true]) "abc").
  reflexivity.
Defined.

(* ------------------------------------------------------------------ *)
(** ** Narrowing a search *)

Lemma str_in_trans (a b c : string) :
  str_in a b = true -> str_in b c = true -> str_in a c = true.
Proof.
  rewrite !str_in_spec. intros (p1 & s1 & ->) (p2 & s2 & ->).
  exists (p2 +:+ p1), (s1 +:+ s2). now rewrite !append_assoc.
Qed.

Lemma matches_narrower (t t' : string) (p : proc) :
  str_in (lower t) (lower t') = true -> matches t' p = true -> matches t p = true.
Proof.
  unfold matches. intros Ht. rewrite !orb_true_iff.
  intros [H|H]; [left|right]; exact (str_in_trans _ _ _ Ht H).
Qed.

Lemma filter_filter_implied {A} (f g : A -> bool) (l : list A) :
  (forall x, g x = true -> f x = true) ->
  List.filter g (List.filter f l) = List.filter g l.
Proof.
  intros Hfg. induction l as [|x l IH]; [reflexivity|]. simpl.
  destruct (f x) eqn:Hf; simpl.
  - now rewrite IH.
  - destruct (g x) eqn:Hg; [|exact IH]. rewrite (Hfg x Hg) in Hf. discriminate.
Qed.

(** X12.  Narrowing a search.  When the lower-cased term [t] is a substring
    of the lower-cased term [t'] (as it is while the operator goes on typing
    in one letter case), [t'] can be searched in the result of the search
    for [t]: this gives the same list as searching [t'] in the whole list,
    and that list is a sublist of the result for [t], in the same order.
    Nothing is used of lower-casing here but that both searches apply it to
    the term and to the fields. *)
Theorem search_processes_narrowing (processes : list proc) (t t' : string) :
  str_in (lower t) (lower t') = true ->
  search_processes (search_processes processes t) t' = search_processes processes t'
  /\ sublist (search_processes processes t') (search_processes processes t).
Proof.
  intros Ht.
  assert (E : search_processes (search_processes processes t) t'
              = search_processes processes t').
  { rewrite !search_processes_filter. apply filter_filter_implied.
    intros p. now apply matches_narrower. }
  split; [exact E|]. rewrite <- E. rewrite (search_processes_filter (search_processes _ _)).
  apply filter_sublist.
Qed.

Lemma search_processes_narrowing_witness :
  search_processes
    (search_processes [("101", "/usr/bin/Python3 app.py"); ("2210", "bash"); ("7", "sshd")] "PY")
    "pyth"
  = search_processes [("101", "/usr/bin/Python3 app.py"); ("2210", "bash"); ("7", "sshd")] "pyth"
  /\ sublist
       (search_processes [("101", "/usr/bin/Python3 app.py"); ("2210", "bash"); ("7", "sshd")]
          "pyth")
       (search_processes [("101", "/usr/bin/Python3 app.py"); ("2210", "bash"); ("7", "sshd")]
          "PY").
Proof.
  apply (search_processes_narrowing
           [("101", "/usr/bin/Python3 app.py"); ("2210", "bash"); ("7", "sshd")] "PY" "pyth").
  reflexivity.
Defined.

(* ------------------------------------------------------------------ *)
(** ** The process details screen *)

Lemma get_proc_info_returns (h : host) (pid : string) :
  exists info, get_proc_info h pid = Ok info.
Proof.
  destruct (String.eqb_spec (platform_system h) "Linux") as [Hsys|Hsys].
  - destruct (proc_path_exists h) eqn:Hex.
    + destruct (collect_all h ("/proc/" +:+ pid) (∅, [Exists ("/proc/" +:+ pid)]))
        as [r s] eqn:E.
      destruct (get_proc_info_unfold h pid r s Hsys Hex E) as [-> _]. eauto.
    + destruct (get_proc_info_early h pid (or_intror Hex)) as [msg ->]. eauto.
  - destruct (get_proc_info_early h pid (or_introl Hsys)) as [msg ->]. eauto.
Qed.

Lemma details_start_wf (info : gmap string value) : details_wf (details_start info).
Proof. unfold details_wf, details_start. cbn. lia. Qed.

(** One turn: the selections stay on an entry, and the turn raises only
    what the drawing or a screen it called raised. *)
Lemma details_turn_wf (pid : string) (st : details) (i : details_input) :
  details_wf st ->
  match details_turn pid st i with
  | Returns (Continue st') => details_wf st'
  | Returns (Leave r) => r = None
  | Raises r => raises_outside r i
  end.
Proof.
  intros (Hlen & Hsec & Hmenu). unfold details_turn.
  destruct i as [|r|key now endwin sub]; [repeat split; assumption | reflexivity |].
  change (length details_sections) with 7%nat in *.
  change (length details_menu) with 4%nat in *.
  destruct (mode st).
  - destruct (key_in key [KEY_UP; ord "k"]).
    { destruct (Nat.ltb_spec 0 (selected_section st)); unfold details_wf; cbn;
        repeat split; lia. }
    destruct (key_in key [KEY_DOWN; ord "j"]).
    { destruct (Nat.ltb_spec (selected_section st) (7 - 1)); unfold details_wf; cbn;
        repeat split; lia. }
    destruct (key_in key [KEY_RIGHT; ord "l"]).
    { unfold details_wf; cbn; repeat split; lia. }
    destruct (key_in key [KEY_ENTER; 10; 13; ord " "]).
    { destruct (index_Ok (details_collapsed st) (selected_section st)) as (c & -> & _);
        [lia|].
      unfold details_wf; cbn. rewrite length_insert. repeat split; lia. }
    destruct (key_in key [ord "q"; 27]); [reflexivity|].
    unfold details_wf; repeat split; cbn; lia.
  - destruct (key_in key [KEY_UP; ord "k"]).
    { destruct (Nat.ltb_spec 0 (selected_menu st)); unfold details_wf; cbn;
        repeat split; lia. }
    destruct (key_in key [KEY_DOWN; ord "j"]).
    { destruct (Nat.ltb_spec (selected_menu st) (4 - 1)); unfold details_wf; cbn;
        repeat split; lia. }
    destruct (key_in key [KEY_LEFT; ord "h"]).
    { unfold details_wf; cbn; repeat split; lia. }
    destruct (key_in key [KEY_ENTER; 10; 13; ord " "]).
    { destruct (selected_menu st =? 0)%nat.
      { destruct (get_proc_info_returns now pid) as [info ->].
        unfold details_wf; cbn; repeat split; lia. }
      destruct (selected_menu st =? 1)%nat.
      { destruct endwin; [|unfold details_wf; repeat split; cbn; lia].
        destruct sub as [[]|r]; [|reflexivity].
        unfold details_wf; cbn; repeat split; lia. }
      destruct (selected_menu st =? 2)%nat.
      { destruct sub as [[]|r]; [|reflexivity].
        unfold details_wf; cbn; repeat split; lia. }
      destruct (selected_menu st =? 3)%nat; [reflexivity|].
      unfold details_wf; repeat split; cbn; lia. }
    destruct (key_in key [ord "q"; 27]); [reflexivity|].
    unfold details_wf; repeat split; cbn; lia.
Qed.

Lemma details_loop_wf (pid : string) (inputs : list details_input) :
  forall st, details_wf st ->
  match details_loop pid st inputs with
  | Returns (Continue st') => details_wf st'
  | Returns (Leave r) => r = None
  | Raises r => exists i, In i inputs /\ raises_outside r i
  end.
Proof.
  induction inputs as [|i inputs IH]; intros st Hwf; [exact Hwf|].
  pose proof (details_turn_wf pid st i Hwf) as Hturn. cbn [details_loop].
  destruct (details_turn pid st i) as [[st'|r]|r].
  - specialize (IH st' Hturn).
    destruct (details_loop pid st' inputs) as [[st''|r]|r]; [exact IH | exact IH |].
    destruct IH as (j & Hj & Hr). exists j. split; [now right | exact Hr].
  - exact Hturn.
  - exists i. split; [now left | exact Hturn].
Qed.

(** X13.  The key loop of [show_process_details] is safe by itself:
    whatever is typed, the selected section and the selected menu entry
    stay on an entry and there is one collapse flag per section, so no index
    is ever out of range; the function returns nothing but [None]; and an
    exception leaves it only when the drawing, the monitor or the advanced
    screen raised that exception (other than [curses.error]) in one of the
    turns. *)
Theorem show_process_details_safe (h : host) (pid : string) (inputs : list details_input) :
  match show_process_details h pid inputs with
  | Returns (Continue st) => details_wf st
  | Returns (Leave r) => r = None
  | Raises r => exists i, In i inputs /\ raises_outside r i
  end.
Proof.
  unfold show_process_details.
  destruct (get_proc_info_returns h pid) as [info ->].
  destruct (info !! "error"); [reflexivity|].
  apply details_loop_wf, details_start_wf.
Qed.

Lemma details_loop_app (pid : string) (inputs inputs' : list details_input)
    (st st' : details) :
  details_loop pid st inputs = Returns (Continue st') ->
  details_loop pid st (inputs ++ inputs') = details_loop pid st' inputs'.
Proof.
  revert st. induction inputs as [|i inputs IH]; intros st H; simpl in *.
  - now injection H as ->.
  - destruct (details_turn pid st i) as [[st1|r]|r]; try discriminate. exact (IH st1 H).
Qed.

(** A snapshot that has the field [error]. *)
Lemma get_proc_info_error (h : host) (pid : string) :
  platform_system h <> "Linux" \/ proc_path_exists h = false
  \/ (exists e s, collect_all h ("/proc/" +:+ pid) (∅, [Exists ("/proc/" +:+ pid)])
                  = (Raise e, s)) ->
  exists info msg, get_proc_info h pid = Ok info /\ info !! "error" = Some (VStr msg).
Proof.
  intros [Hsys | Hrest].
  { destruct (get_proc_info_early h pid (or_introl Hsys)) as [msg ->].
    eexists _, msg. split; [reflexivity | apply lookup_singleton_eq]. }
  destruct (String.eqb_spec (platform_system h) "Linux") as [Hsys|Hsys].
  2:{ destruct (get_proc_info_early h pid (or_introl Hsys)) as [msg ->].
      eexists _, msg. split; [reflexivity | apply lookup_singleton_eq]. }
  destruct (proc_path_exists h) eqn:Hex.
  2:{ destruct (get_proc_info_early h pid (or_intror Hex)) as [msg ->].
      eexists _, msg. split; [reflexivity | apply lookup_singleton_eq]. }
  destruct Hrest as [Hgone | (e & s & E)]; [discriminate|].
  destruct (get_proc_info_unfold h pid _ s Hsys Hex E) as [-> _].
  eexists _, _. split; [reflexivity | apply lookup_insert_eq].
Qed.

(** X14.  A snapshot with an error is never shown in part.  When the
    platform is not Linux, or the process is gone, or any step of
    [get_proc_info] raises, [show_process_details] shows the error message
    and returns at once: no turn of its loop runs, whatever is typed, and
    the fields that the steps before the failure had collected are not
    displayed. *)
Theorem show_process_details_error_snapshot (h : host) (pid : string)
    (inputs : list details_input) :
  platform_system h <> "Linux" \/ proc_path_exists h = false
  \/ (exists e s, collect_all h ("/proc/" +:+ pid) (∅, [Exists ("/proc/" +:+ pid)])
                  = (Raise e, s)) ->
  show_process_details h pid inputs = Returns (Leave None).
Proof.
  intros H. destruct (get_proc_info_error h pid H) as (info & msg & E & Herr).
  unfold show_process_details. now rewrite E, Herr.
Qed.

Lemma show_process_details_error_snapshot_witness :
  show_process_details undecodable_cmdline "4242"
    [DetailsKey KEY_DOWN undecodable_cmdline true (Returns tt)]
  = Returns (Leave None).
Proof.
  apply (show_process_details_error_snapshot undecodable_cmdline "4242"
           [DetailsKey KEY_DOWN undecodable_cmdline true (Returns tt)]).
  right. right.
  exists (snd (fst (match collect_all undecodable_cmdline ("/proc/" +:+ "4242")
                            (∅, [Exists ("/proc/" +:+ "4242")]) with
                    | (Raise e, s) => (tt, e, s)
                    | (Ok _, s) => (tt, Exn ValueError "", s)
                    end))),
         (snd (match collect_all undecodable_cmdline ("/proc/" +:+ "4242")
                            (∅, [Exists ("/proc/" +:+ "4242")]) with
                    | (Raise e, s) => (tt, e, s)
                    | (Ok _, s) => (tt, Exn ValueError "", s)
                    end)).
  vm_compute. reflexivity.
Defined.

Lemma details_turn_in_sections (pid : string) (st : details) (i : details_input) :
  mode st = InSections -> ~ opens_menu i ->
  match details_turn pid st i with
  | Returns (Continue st') =>
      mode st' = InSections /\ called st' = called st /\ proc_info st' = proc_info st
  | _ => True
  end.
Proof.
  intros Hmode Hi. unfold details_turn. destruct i as [|r|key now endwin sub]; [auto | exact I |].
  rewrite Hmode. unfold opens_menu in Hi.
  destruct (key_in key [KEY_UP; ord "k"]).
  { destruct (0 <? selected_section st)%nat; cbn; auto. }
  destruct (key_in key [KEY_DOWN; ord "j"]).
  { destruct (selected_section st <? length details_sections - 1)%nat; cbn; auto. }
  destruct (key_in key [KEY_RIGHT; ord "l"]); [now exfalso|].
  destruct (key_in key [KEY_ENTER; 10; 13; ord " "]).
  { destruct (index (details_collapsed st) (selected_section st)); cbn; auto. }
  destruct (key_in key [ord "q"; 27]); cbn; auto.
Qed.

Lemma details_loop_in_sections (pid : string) (inputs : list details_input) :
  Forall (fun i => ~ opens_menu i) inputs ->
  forall st st',
    mode st = InSections ->
    details_loop pid st inputs = Returns (Continue st') ->
    mode st' = InSections /\ called st' = called st /\ proc_info st' = proc_info st.
Proof.
  induction 1 as [|i inputs Hi _ IH]; intros st st' Hmode H; simpl in H.
  - injection H as <-. auto.
  - pose proof (details_turn_in_sections pid st i Hmode Hi) as Hturn.
    destruct (details_turn pid st i) as [[st1|r]|r]; try discriminate.
    destruct Hturn as (Hm & Hc & Hp).
    destruct (IH st1 st' Hm H) as (Hm' & Hc' & Hp'). repeat split; congruence.
Qed.

(** X15.  The menu of the details screen is reached only with Right or
    [l]: as long as no such key is typed, whatever else is typed, the
    screen stays in section mode, calls neither [get_proc_info] again nor
    the monitor nor the advanced screen, and keeps showing the snapshot it
    took when it opened. *)
Theorem show_process_details_menu_needs_switch (h : host) (pid : string)
    (inputs : list details_input) (st : details) :
  Forall (fun i => ~ opens_menu i) inputs ->
  show_process_details h pid inputs = Returns (Continue st) ->
  mode st = InSections /\ called st = [] /\ get_proc_info h pid = Ok (proc_info st).
Proof.
  intros Hin. unfold show_process_details.
  destruct (get_proc_info h pid) as [info|e]; [|discriminate].
  destruct (info !! "error"); [discriminate|]. intros H.
  destruct (details_loop_in_sections pid inputs Hin (details_start info) st eq_refl H)
    as (Hm & Hc & Hp).
  repeat split; [exact Hm | exact Hc | now rewrite Hp].
Qed.

Lemma show_process_details_menu_needs_switch_witness :
  mode (details_after shell_process "4242"
          [DetailsKey KEY_DOWN shell_process true (Returns tt);
           DetailsKey 10 shell_process true (Returns tt);
           DetailsKey KEY_LEFT shell_process true (Returns tt)]) = InSections
  /\ called (details_after shell_process "4242"
          [DetailsKey KEY_DOWN shell_process true (Returns tt);
           DetailsKey 10 shell_process true (Returns tt);
           DetailsKey KEY_LEFT shell_process true (Returns tt)]) = []
  /\ get_proc_info shell_process "4242"
     = Ok (proc_info (details_after shell_process "4242"
          [DetailsKey KEY_DOWN shell_process true (Returns tt);
           DetailsKey 10 shell_process true (Returns tt);
           DetailsKey KEY_LEFT shell_process true (Returns tt)])).
Proof.
  apply (show_process_details_menu_needs_switch shell_process "4242"
          [DetailsKey KEY_DOWN shell_process true (Returns tt);
           DetailsKey 10 shell_process true (Returns tt);
           DetailsKey KEY_LEFT shell_process true (Returns tt)]).
  - repeat constructor; intros H; vm_compute in H; discriminate.
  - vm_compute. reflexivity.
Defined.

Lemma select_key_only (key : Z) :
  key_in key [KEY_ENTER; 10; 13; ord " "] = true ->
  key_in key [KEY_UP; ord "k"] = false /\ key_in key [KEY_DOWN; ord "j"] = false
  /\ key_in key [KEY_LEFT; ord "h"] = false /\ key_in key [KEY_RIGHT; ord "l"] = false.
Proof.
  intros Hkey. apply key_in_cases in Hkey. simpl in Hkey.
  destruct Hkey as [<-|[<-|[<-|[<-|[]]]]]; repeat split; reflexivity.
Qed.

(** X16.  Refreshing a process that has exited leaves an empty screen.
    When "Refresh information" is chosen in the menu and the process is
    gone by then, the screen does not return and shows no message: the loop
    goes on with a snapshot that holds the field [error] only, and [error]
    is none of the fields that any section displays. *)
Theorem show_process_details_refresh_gone (h : host) (pid : string)
    (inputs : list details_input) (st : details)
    (key : Z) (now : host) (endwin : bool) (sub : outcome unit) :
  show_process_details h pid inputs = Returns (Continue st) ->
  mode st = InMenu -> selected_menu st = 0%nat ->
  key_in key [KEY_ENTER; 10; 13; ord " "] = true ->
  platform_system now = "Linux" -> proc_path_exists now = false ->
  exists st',
    show_process_details h pid (inputs ++ [DetailsKey key now endwin sub])
    = Returns (Continue st')
    /\ proc_info st' = {[ "error" := VStr ("Process " +:+ pid +:+ " no longer exists") ]}
    /\ Forall (fun field => proc_info st' !! field = None) details_fields
    /\ mode st' = InMenu.
Proof.
  unfold show_process_details.
  destruct (get_proc_info h pid) as [info|e]; [|discriminate].
  destruct (info !! "error"); [discriminate|].
  intros Hrun Hmode Hsel Hkey Hsys Hgone.
  rewrite (details_loop_app _ _ _ _ _ Hrun). cbn [details_loop]. unfold details_turn.
  rewrite Hmode, Hsel.
  destruct (select_key_only key Hkey) as (-> & -> & -> & _). rewrite Hkey.
  cbn [Nat.eqb].
  assert (E : get_proc_info now pid
              = Ok {[ "error" := VStr ("Process " +:+ pid +:+ " no longer exists") ]}).
  { unfold get_proc_info, get_proc_info_m. rewrite Hsys.
    cbn [String.eqb Ascii.eqb Bool.eqb negb andb]. run. rewrite Hgone. reflexivity. }
  rewrite E. eexists. split; [reflexivity|]. cbn [proc_info mode]. split; [reflexivity|].
  split; [|reflexivity].
  repeat constructor; apply lookup_singleton_ne; discriminate.
Qed.

Lemma show_process_details_refresh_gone_witness :
  exists st',
    show_process_details shell_process "4242"
      ([DetailsKey KEY_RIGHT shell_process true (Returns tt)]
       ++ [DetailsKey 10 vanished_process true (Returns tt)])
    = Returns (Continue st')
    /\ proc_info st' = {[ "error" := VStr ("Process " +:+ "4242" +:+ " no longer exists") ]}
    /\ Forall (fun field => proc_info st' !! field = None) details_fields
    /\ mode st' = InMenu.
Proof.
  apply (show_process_details_refresh_gone shell_process "4242"
           [DetailsKey KEY_RIGHT shell_process true (Returns tt)]
           (details_after shell_process "4242"
              [DetailsKey KEY_RIGHT shell_process true (Returns tt)])
           10 vanished_process true (Returns tt));
    vm_compute; reflexivity.
Defined.
